(** * code-header-annotator: a shallow embedding and its properties

    The development follows the two scripts of the skill:
    - [scripts/annotate_code_headers.py]  (module [annotate_code_headers])
    - [scripts/check_incomplete_headers.py] (module [check_incomplete_headers])

    Python text is modelled as a list of Unicode code points, Python [int] as
    [Z], dictionaries as [gmap], [ValueError] as a constructor of a result
    type.  File contents are the decoded text the scripts obtain from
    [Path.read_text]; the path, its lowercased suffix, the path relative to
    the root and today's date are inputs of the model. *)

From Stdlib Require Import ZArith NArith Lia Ascii String DecimalString Sorted.
From stdpp Require Import base list gmap strings.

Local Open Scope N_scope.

(** ** Python strings *)

Module Py.

Abbreviation char := N (only parsing).
Abbreviation str := (list N) (only parsing).

(** An ASCII literal as Python text. *)
Fixpoint lit (s : string) : str :=
  match s with
  | EmptyString => []
  | String a r => N_of_ascii a :: lit r
  end.

Definition NL : N := 10.
Definition CR : N := 13.
Definition SPACE : N := 32.

Definition in_range (lo hi c : N) : bool := (lo <=? c) && (c <=? hi).

Fixpoint in_ranges (t : list (N * N)) (c : N) : bool :=
  match t with
  | [] => false
  | (lo, hi) :: t' => in_range lo hi c || in_ranges t' c
  end.

(** [str.isspace] on one character; the same table drives [\s] in [re]. *)
Definition whitespace_ranges : list (N * N) :=
  [ (0x9, 0xd); (0x1c, 0x20); (0x85, 0x85); (0xa0, 0xa0); (0x1680, 0x1680);
    (0x2000, 0x200a); (0x2028, 0x2029); (0x202f, 0x202f); (0x205f, 0x205f);
    (0x3000, 0x3000) ].

Definition isspace (c : N) : bool := in_ranges whitespace_ranges c.

(** The characters at which [str.splitlines] breaks a line. *)
Definition linebreak_ranges : list (N * N) :=
  [ (0xa, 0xd); (0x1c, 0x1e); (0x85, 0x85); (0x2028, 0x2029) ].

Definition is_linebreak (c : N) : bool := in_ranges linebreak_ranges c.

Fixpoint str_eqb (a b : str) : bool :=
  match a, b with
  | [], [] => true
  | x :: a', y :: b' => (x =? y) && str_eqb a' b'
  | _, _ => false
  end.

(** [len(s)] *)
Definition len {A} (l : list A) : Z := Z.of_nat (length l).

(** [s.startswith(p)] *)
Fixpoint startswith (s p : str) {struct p} : bool :=
  match p, s with
  | [], _ => true
  | x :: p', y :: s' => (x =? y) && startswith s' p'
  | _ :: _, [] => false
  end.

(** [s.endswith(p)] *)
Definition endswith (s p : str) : bool := startswith (rev s) (rev p).

(** [sub in s] *)
Fixpoint contains (s sub : str) : bool :=
  startswith s sub ||
  match s with
  | [] => false
  | _ :: s' => contains s' sub
  end.

(** [s.find(sub)], [None] for -1. *)
Fixpoint find (s sub : str) : option nat :=
  if startswith s sub then Some 0%nat
  else match s with
       | [] => None
       | _ :: s' => S <$> find s' sub
       end.

(** [s.lstrip()], [s.rstrip()], [s.strip()] and their one-argument forms. *)
Fixpoint lstrip_by (p : N -> bool) (s : str) : str :=
  match s with
  | [] => []
  | c :: r => if p c then lstrip_by p r else s
  end.

Definition rstrip_by (p : N -> bool) (s : str) : str :=
  rev (lstrip_by p (rev s)).

Definition lstrip : str -> str := lstrip_by isspace.
Definition rstrip : str -> str := rstrip_by isspace.
Definition strip (s : str) : str := rstrip (lstrip s).

Definition one_of (cs : str) (c : N) : bool := existsb (N.eqb c) cs.

Definition lstrip_chars (cs s : str) : str := lstrip_by (one_of cs) s.
Definition rstrip_chars (cs s : str) : str := rstrip_by (one_of cs) s.

(** [s[:k]] for a Python integer [k] (a negative [k] counts from the end). *)
Definition slice_to {A} (l : list A) (k : Z) : list A :=
  if (0 <=? k)%Z then take (Z.to_nat k) l
  else take (length l - Z.to_nat (- k)) l.

(** [l[-1:]] and [l[:-1]] *)
Definition last_slice {A} (l : list A) : list A := drop (length l - 1) l.
Definition but_last {A} (l : list A) : list A := take (length l - 1) l.

(** [sep.join(l)] *)
Fixpoint join (sep : str) (l : list str) : str :=
  match l with
  | [] => []
  | [x] => x
  | x :: l' => x ++ sep ++ join sep l'
  end.

(** [str.join] with the empty separator. *)
Definition concat_lines (l : list str) : str := concat l.

(** [s.split(sep)] for a non-empty separator: [fuel] bounds the number of
    pieces, and the length of the text plus one always suffices. *)
Fixpoint split_fuel (fuel : nat) (sep s : str) : list str :=
  match fuel with
  | O => [s]
  | S f =>
      match find s sep with
      | None => [s]
      | Some i => take i s :: split_fuel f sep (drop (i + length sep) s)
      end
  end.

Definition split (sep s : str) : list str := split_fuel (S (length s)) sep s.

(** [s.split(sep, maxsplit)] *)
Definition split_max (sep s : str) (maxsplit : nat) : list str :=
  split_fuel maxsplit sep s.

(** [s.rsplit(sep, 1)[-1]]: the text after the last occurrence of [sep]. *)
Definition after_last (sep s : str) : str :=
  match find (rev s) (rev sep) with
  | None => s
  | Some i => drop (length s - i) s
  end.

(** [s.count(sub)] for a non-empty [sub] (occurrences do not overlap). *)
Definition count (s sub : str) : nat := length (split sub s) - 1.

(** [s.replace(old, empty)] for a non-empty [old]. *)
Definition remove_all (old s : str) : str := concat (split old s).

(** [s.splitlines(keepends)]: [cur] is the line read so far. *)
Fixpoint splitlines_from (keepends : bool) (cur s : str) : list str :=
  match s with
  | [] => match cur with [] => [] | _ => [cur] end
  | c :: r =>
      if c =? CR then
        match r with
        | d :: r' =>
            if d =? NL
            then (cur ++ if keepends then [c; d] else []) ::
                 splitlines_from keepends [] r'
            else (cur ++ if keepends then [c] else []) ::
                 splitlines_from keepends [] r
        | [] => [cur ++ if keepends then [c] else []]
        end
      else if is_linebreak c
      then (cur ++ if keepends then [c] else []) :: splitlines_from keepends [] r
      else splitlines_from keepends (cur ++ [c]) r
  end.

Definition splitlines (keepends : bool) (s : str) : list str :=
  splitlines_from keepends [] s.

(** [str(n)] for an integer. *)
Definition dec (n : Z) : str := lit (NilEmpty.string_of_int (Z.to_int n)).

(** Truthiness of a string: [bool(s)]. *)
Definition truthy (s : str) : bool :=
  match s with [] => false | _ => true end.

(** [a or b] on strings. *)
Definition or_else (a b : str) : str := if truthy a then a else b.

(** [x in {...}] for a literal set of strings. *)
Definition mem (x : str) (l : list str) : bool := existsb (str_eqb x) l.

End Py.

(** ** Regular expressions ([re])

    The patterns of the scripts use literals, [.], character classes, the
    anchors [^] and [$], [\b], groups, alternation and the greedy quantifiers
    [*], [+] and [?].  [compile] reads a pattern as it is written in the
    source; [run] is a backtracking matcher that tries alternatives from left
    to right and longer repetitions first, as [re] does. *)

Module Re.
Import Py.

(** Alphanumeric code points above ASCII (Unicode 14.0, the table of
    CPython 3.11): [\w] is [[A-Za-z0-9_]] together with these. *)
Definition word_ranges : list (N * N) :=
  [ (0xaa, 0xaa); (0xb2, 0xb3); (0xb5, 0xb5); (0xb9, 0xba); (0xbc, 0xbe);
    (0xc0, 0xd6); (0xd8, 0xf6); (0xf8, 0x2c1); (0x2c6, 0x2d1); (0x2e0, 0x2e4);
    (0x2ec, 0x2ec); (0x2ee, 0x2ee); (0x370, 0x374); (0x376, 0x377);
    (0x37a, 0x37d); (0x37f, 0x37f); (0x386, 0x386); (0x388, 0x38a);
    (0x38c, 0x38c); (0x38e, 0x3a1); (0x3a3, 0x3f5); (0x3f7, 0x481);
    (0x48a, 0x52f); (0x531, 0x556); (0x559, 0x559); (0x560, 0x588);
    (0x5d0, 0x5ea); (0x5ef, 0x5f2); (0x620, 0x64a); (0x660, 0x669);
    (0x66e, 0x66f); (0x671, 0x6d3); (0x6d5, 0x6d5); (0x6e5, 0x6e6);
    (0x6ee, 0x6fc); (0x6ff, 0x6ff); (0x710, 0x710); (0x712, 0x72f);
    (0x74d, 0x7a5); (0x7b1, 0x7b1); (0x7c0, 0x7ea); (0x7f4, 0x7f5);
    (0x7fa, 0x7fa); (0x800, 0x815); (0x81a, 0x81a); (0x824, 0x824);
    (0x828, 0x828); (0x840, 0x858); (0x860, 0x86a); (0x870, 0x887);
    (0x889, 0x88e); (0x8a0, 0x8c9); (0x904, 0x939); (0x93d, 0x93d);
    (0x950, 0x950); (0x958, 0x961); (0x966, 0x96f); (0x971, 0x980);
    (0x985, 0x98c); (0x98f, 0x990); (0x993, 0x9a8); (0x9aa, 0x9b0);
    (0x9b2, 0x9b2); (0x9b6, 0x9b9); (0x9bd, 0x9bd); (0x9ce, 0x9ce);
    (0x9dc, 0x9dd); (0x9df, 0x9e1); (0x9e6, 0x9f1); (0x9f4, 0x9f9);
    (0x9fc, 0x9fc); (0xa05, 0xa0a); (0xa0f, 0xa10); (0xa13, 0xa28);
    (0xa2a, 0xa30); (0xa32, 0xa33); (0xa35, 0xa36); (0xa38, 0xa39);
    (0xa59, 0xa5c); (0xa5e, 0xa5e); (0xa66, 0xa6f); (0xa72, 0xa74);
    (0xa85, 0xa8d); (0xa8f, 0xa91); (0xa93, 0xaa8); (0xaaa, 0xab0);
    (0xab2, 0xab3); (0xab5, 0xab9); (0xabd, 0xabd); (0xad0, 0xad0);
    (0xae0, 0xae1); (0xae6, 0xaef); (0xaf9, 0xaf9); (0xb05, 0xb0c);
    (0xb0f, 0xb10); (0xb13, 0xb28); (0xb2a, 0xb30); (0xb32, 0xb33);
    (0xb35, 0xb39); (0xb3d, 0xb3d); (0xb5c, 0xb5d); (0xb5f, 0xb61);
    (0xb66, 0xb6f); (0xb71, 0xb77); (0xb83, 0xb83); (0xb85, 0xb8a);
    (0xb8e, 0xb90); (0xb92, 0xb95); (0xb99, 0xb9a); (0xb9c, 0xb9c);
    (0xb9e, 0xb9f); (0xba3, 0xba4); (0xba8, 0xbaa); (0xbae, 0xbb9);
    (0xbd0, 0xbd0); (0xbe6, 0xbf2); (0xc05, 0xc0c); (0xc0e, 0xc10);
    (0xc12, 0xc28); (0xc2a, 0xc39); (0xc3d, 0xc3d); (0xc58, 0xc5a);
    (0xc5d, 0xc5d); (0xc60, 0xc61); (0xc66, 0xc6f); (0xc78, 0xc7e);
    (0xc80, 0xc80); (0xc85, 0xc8c); (0xc8e, 0xc90); (0xc92, 0xca8);
    (0xcaa, 0xcb3); (0xcb5, 0xcb9); (0xcbd, 0xcbd); (0xcdd, 0xcde);
    (0xce0, 0xce1); (0xce6, 0xcef); (0xcf1, 0xcf2); (0xd04, 0xd0c);
    (0xd0e, 0xd10); (0xd12, 0xd3a); (0xd3d, 0xd3d); (0xd4e, 0xd4e);
    (0xd54, 0xd56); (0xd58, 0xd61); (0xd66, 0xd78); (0xd7a, 0xd7f);
    (0xd85, 0xd96); (0xd9a, 0xdb1); (0xdb3, 0xdbb); (0xdbd, 0xdbd);
    (0xdc0, 0xdc6); (0xde6, 0xdef); (0xe01, 0xe30); (0xe32, 0xe33);
    (0xe40, 0xe46); (0xe50, 0xe59); (0xe81, 0xe82); (0xe84, 0xe84);
    (0xe86, 0xe8a); (0xe8c, 0xea3); (0xea5, 0xea5); (0xea7, 0xeb0);
    (0xeb2, 0xeb3); (0xebd, 0xebd); (0xec0, 0xec4); (0xec6, 0xec6);
    (0xed0, 0xed9); (0xedc, 0xedf); (0xf00, 0xf00); (0xf20, 0xf33);
    (0xf40, 0xf47); (0xf49, 0xf6c); (0xf88, 0xf8c); (0x1000, 0x102a);
    (0x103f, 0x1049); (0x1050, 0x1055); (0x105a, 0x105d); (0x1061, 0x1061);
    (0x1065, 0x1066); (0x106e, 0x1070); (0x1075, 0x1081); (0x108e, 0x108e);
    (0x1090, 0x1099); (0x10a0, 0x10c5); (0x10c7, 0x10c7); (0x10cd, 0x10cd);
    (0x10d0, 0x10fa); (0x10fc, 0x1248); (0x124a, 0x124d); (0x1250, 0x1256);
    (0x1258, 0x1258); (0x125a, 0x125d); (0x1260, 0x1288); (0x128a, 0x128d);
    (0x1290, 0x12b0); (0x12b2, 0x12b5); (0x12b8, 0x12be); (0x12c0, 0x12c0);
    (0x12c2, 0x12c5); (0x12c8, 0x12d6); (0x12d8, 0x1310); (0x1312, 0x1315);
    (0x1318, 0x135a); (0x1369, 0x137c); (0x1380, 0x138f); (0x13a0, 0x13f5);
    (0x13f8, 0x13fd); (0x1401, 0x166c); (0x166f, 0x167f); (0x1681, 0x169a);
    (0x16a0, 0x16ea); (0x16ee, 0x16f8); (0x1700, 0x1711); (0x171f, 0x1731);
    (0x1740, 0x1751); (0x1760, 0x176c); (0x176e, 0x1770); (0x1780, 0x17b3);
    (0x17d7, 0x17d7); (0x17dc, 0x17dc); (0x17e0, 0x17e9); (0x17f0, 0x17f9);
    (0x1810, 0x1819); (0x1820, 0x1878); (0x1880, 0x1884); (0x1887, 0x18a8);
    (0x18aa, 0x18aa); (0x18b0, 0x18f5); (0x1900, 0x191e); (0x1946, 0x196d);
    (0x1970, 0x1974); (0x1980, 0x19ab); (0x19b0, 0x19c9); (0x19d0, 0x19da);
    (0x1a00, 0x1a16); (0x1a20, 0x1a54); (0x1a80, 0x1a89); (0x1a90, 0x1a99);
    (0x1aa7, 0x1aa7); (0x1b05, 0x1b33); (0x1b45, 0x1b4c); (0x1b50, 0x1b59);
    (0x1b83, 0x1ba0); (0x1bae, 0x1be5); (0x1c00, 0x1c23); (0x1c40, 0x1c49);
    (0x1c4d, 0x1c7d); (0x1c80, 0x1c88); (0x1c90, 0x1cba); (0x1cbd, 0x1cbf);
    (0x1ce9, 0x1cec); (0x1cee, 0x1cf3); (0x1cf5, 0x1cf6); (0x1cfa, 0x1cfa);
    (0x1d00, 0x1dbf); (0x1e00, 0x1f15); (0x1f18, 0x1f1d); (0x1f20, 0x1f45);
    (0x1f48, 0x1f4d); (0x1f50, 0x1f57); (0x1f59, 0x1f59); (0x1f5b, 0x1f5b);
    (0x1f5d, 0x1f5d); (0x1f5f, 0x1f7d); (0x1f80, 0x1fb4); (0x1fb6, 0x1fbc);
    (0x1fbe, 0x1fbe); (0x1fc2, 0x1fc4); (0x1fc6, 0x1fcc); (0x1fd0, 0x1fd3);
    (0x1fd6, 0x1fdb); (0x1fe0, 0x1fec); (0x1ff2, 0x1ff4); (0x1ff6, 0x1ffc);
    (0x2070, 0x2071); (0x2074, 0x2079); (0x207f, 0x2089); (0x2090, 0x209c);
    (0x2102, 0x2102); (0x2107, 0x2107); (0x210a, 0x2113); (0x2115, 0x2115);
    (0x2119, 0x211d); (0x2124, 0x2124); (0x2126, 0x2126); (0x2128, 0x2128);
    (0x212a, 0x212d); (0x212f, 0x2139); (0x213c, 0x213f); (0x2145, 0x2149);
    (0x214e, 0x214e); (0x2150, 0x2189); (0x2460, 0x249b); (0x24ea, 0x24ff);
    (0x2776, 0x2793); (0x2c00, 0x2ce4); (0x2ceb, 0x2cee); (0x2cf2, 0x2cf3);
    (0x2cfd, 0x2cfd); (0x2d00, 0x2d25); (0x2d27, 0x2d27); (0x2d2d, 0x2d2d);
    (0x2d30, 0x2d67); (0x2d6f, 0x2d6f); (0x2d80, 0x2d96); (0x2da0, 0x2da6);
    (0x2da8, 0x2dae); (0x2db0, 0x2db6); (0x2db8, 0x2dbe); (0x2dc0, 0x2dc6);
    (0x2dc8, 0x2dce); (0x2dd0, 0x2dd6); (0x2dd8, 0x2dde); (0x2e2f, 0x2e2f);
    (0x3005, 0x3007); (0x3021, 0x3029); (0x3031, 0x3035); (0x3038, 0x303c);
    (0x3041, 0x3096); (0x309d, 0x309f); (0x30a1, 0x30fa); (0x30fc, 0x30ff);
    (0x3105, 0x312f); (0x3131, 0x318e); (0x3192, 0x3195); (0x31a0, 0x31bf);
    (0x31f0, 0x31ff); (0x3220, 0x3229); (0x3248, 0x324f); (0x3251, 0x325f);
    (0x3280, 0x3289); (0x32b1, 0x32bf); (0x3400, 0x4dbf); (0x4e00, 0xa48c);
    (0xa4d0, 0xa4fd); (0xa500, 0xa60c); (0xa610, 0xa62b); (0xa640, 0xa66e);
    (0xa67f, 0xa69d); (0xa6a0, 0xa6ef); (0xa717, 0xa71f); (0xa722, 0xa788);
    (0xa78b, 0xa7ca); (0xa7d0, 0xa7d1); (0xa7d3, 0xa7d3); (0xa7d5, 0xa7d9);
    (0xa7f2, 0xa801); (0xa803, 0xa805); (0xa807, 0xa80a); (0xa80c, 0xa822);
    (0xa830, 0xa835); (0xa840, 0xa873); (0xa882, 0xa8b3); (0xa8d0, 0xa8d9);
    (0xa8f2, 0xa8f7); (0xa8fb, 0xa8fb); (0xa8fd, 0xa8fe); (0xa900, 0xa925);
    (0xa930, 0xa946); (0xa960, 0xa97c); (0xa984, 0xa9b2); (0xa9cf, 0xa9d9);
    (0xa9e0, 0xa9e4); (0xa9e6, 0xa9fe); (0xaa00, 0xaa28); (0xaa40, 0xaa42);
    (0xaa44, 0xaa4b); (0xaa50, 0xaa59); (0xaa60, 0xaa76); (0xaa7a, 0xaa7a);
    (0xaa7e, 0xaaaf); (0xaab1, 0xaab1); (0xaab5, 0xaab6); (0xaab9, 0xaabd);
    (0xaac0, 0xaac0); (0xaac2, 0xaac2); (0xaadb, 0xaadd); (0xaae0, 0xaaea);
    (0xaaf2, 0xaaf4); (0xab01, 0xab06); (0xab09, 0xab0e); (0xab11, 0xab16);
    (0xab20, 0xab26); (0xab28, 0xab2e); (0xab30, 0xab5a); (0xab5c, 0xab69);
    (0xab70, 0xabe2); (0xabf0, 0xabf9); (0xac00, 0xd7a3); (0xd7b0, 0xd7c6);
    (0xd7cb, 0xd7fb); (0xf900, 0xfa6d); (0xfa70, 0xfad9); (0xfb00, 0xfb06);
    (0xfb13, 0xfb17); (0xfb1d, 0xfb1d); (0xfb1f, 0xfb28); (0xfb2a, 0xfb36);
    (0xfb38, 0xfb3c); (0xfb3e, 0xfb3e); (0xfb40, 0xfb41); (0xfb43, 0xfb44);
    (0xfb46, 0xfbb1); (0xfbd3, 0xfd3d); (0xfd50, 0xfd8f); (0xfd92, 0xfdc7);
    (0xfdf0, 0xfdfb); (0xfe70, 0xfe74); (0xfe76, 0xfefc); (0xff10, 0xff19);
    (0xff21, 0xff3a); (0xff41, 0xff5a); (0xff66, 0xffbe); (0xffc2, 0xffc7);
    (0xffca, 0xffcf); (0xffd2, 0xffd7); (0xffda, 0xffdc); (0x10000, 0x1000b);
    (0x1000d, 0x10026); (0x10028, 0x1003a); (0x1003c, 0x1003d);
    (0x1003f, 0x1004d); (0x10050, 0x1005d); (0x10080, 0x100fa);
    (0x10107, 0x10133); (0x10140, 0x10178); (0x1018a, 0x1018b);
    (0x10280, 0x1029c); (0x102a0, 0x102d0); (0x102e1, 0x102fb);
    (0x10300, 0x10323); (0x1032d, 0x1034a); (0x10350, 0x10375);
    (0x10380, 0x1039d); (0x103a0, 0x103c3); (0x103c8, 0x103cf);
    (0x103d1, 0x103d5); (0x10400, 0x1049d); (0x104a0, 0x104a9);
    (0x104b0, 0x104d3); (0x104d8, 0x104fb); (0x10500, 0x10527);
    (0x10530, 0x10563); (0x10570, 0x1057a); (0x1057c, 0x1058a);
    (0x1058c, 0x10592); (0x10594, 0x10595); (0x10597, 0x105a1);
    (0x105a3, 0x105b1); (0x105b3, 0x105b9); (0x105bb, 0x105bc);
    (0x10600, 0x10736); (0x10740, 0x10755); (0x10760, 0x10767);
    (0x10780, 0x10785); (0x10787, 0x107b0); (0x107b2, 0x107ba);
    (0x10800, 0x10805); (0x10808, 0x10808); (0x1080a, 0x10835);
    (0x10837, 0x10838); (0x1083c, 0x1083c); (0x1083f, 0x10855);
    (0x10858, 0x10876); (0x10879, 0x1089e); (0x108a7, 0x108af);
    (0x108e0, 0x108f2); (0x108f4, 0x108f5); (0x108fb, 0x1091b);
    (0x10920, 0x10939); (0x10980, 0x109b7); (0x109bc, 0x109cf);
    (0x109d2, 0x10a00); (0x10a10, 0x10a13); (0x10a15, 0x10a17);
    (0x10a19, 0x10a35); (0x10a40, 0x10a48); (0x10a60, 0x10a7e);
    (0x10a80, 0x10a9f); (0x10ac0, 0x10ac7); (0x10ac9, 0x10ae4);
    (0x10aeb, 0x10aef); (0x10b00, 0x10b35); (0x10b40, 0x10b55);
    (0x10b58, 0x10b72); (0x10b78, 0x10b91); (0x10ba9, 0x10baf);
    (0x10c00, 0x10c48); (0x10c80, 0x10cb2); (0x10cc0, 0x10cf2);
    (0x10cfa, 0x10d23); (0x10d30, 0x10d39); (0x10e60, 0x10e7e);
    (0x10e80, 0x10ea9); (0x10eb0, 0x10eb1); (0x10f00, 0x10f27);
    (0x10f30, 0x10f45); (0x10f51, 0x10f54); (0x10f70, 0x10f81);
    (0x10fb0, 0x10fcb); (0x10fe0, 0x10ff6); (0x11003, 0x11037);
    (0x11052, 0x1106f); (0x11071, 0x11072); (0x11075, 0x11075);
    (0x11083, 0x110af); (0x110d0, 0x110e8); (0x110f0, 0x110f9);
    (0x11103, 0x11126); (0x11136, 0x1113f); (0x11144, 0x11144);
    (0x11147, 0x11147); (0x11150, 0x11172); (0x11176, 0x11176);
    (0x11183, 0x111b2); (0x111c1, 0x111c4); (0x111d0, 0x111da);
    (0x111dc, 0x111dc); (0x111e1, 0x111f4); (0x11200, 0x11211);
    (0x11213, 0x1122b); (0x11280, 0x11286); (0x11288, 0x11288);
    (0x1128a, 0x1128d); (0x1128f, 0x1129d); (0x1129f, 0x112a8);
    (0x112b0, 0x112de); (0x112f0, 0x112f9); (0x11305, 0x1130c);
    (0x1130f, 0x11310); (0x11313, 0x11328); (0x1132a, 0x11330);
    (0x11332, 0x11333); (0x11335, 0x11339); (0x1133d, 0x1133d);
    (0x11350, 0x11350); (0x1135d, 0x11361); (0x11400, 0x11434);
    (0x11447, 0x1144a); (0x11450, 0x11459); (0x1145f, 0x11461);
    (0x11480, 0x114af); (0x114c4, 0x114c5); (0x114c7, 0x114c7);
    (0x114d0, 0x114d9); (0x11580, 0x115ae); (0x115d8, 0x115db);
    (0x11600, 0x1162f); (0x11644, 0x11644); (0x11650, 0x11659);
    (0x11680, 0x116aa); (0x116b8, 0x116b8); (0x116c0, 0x116c9);
    (0x11700, 0x1171a); (0x11730, 0x1173b); (0x11740, 0x11746);
    (0x11800, 0x1182b); (0x118a0, 0x118f2); (0x118ff, 0x11906);
    (0x11909, 0x11909); (0x1190c, 0x11913); (0x11915, 0x11916);
    (0x11918, 0x1192f); (0x1193f, 0x1193f); (0x11941, 0x11941);
    (0x11950, 0x11959); (0x119a0, 0x119a7); (0x119aa, 0x119d0);
    (0x119e1, 0x119e1); (0x119e3, 0x119e3); (0x11a00, 0x11a00);
    (0x11a0b, 0x11a32); (0x11a3a, 0x11a3a); (0x11a50, 0x11a50);
    (0x11a5c, 0x11a89); (0x11a9d, 0x11a9d); (0x11ab0, 0x11af8);
    (0x11c00, 0x11c08); (0x11c0a, 0x11c2e); (0x11c40, 0x11c40);
    (0x11c50, 0x11c6c); (0x11c72, 0x11c8f); (0x11d00, 0x11d06);
    (0x11d08, 0x11d09); (0x11d0b, 0x11d30); (0x11d46, 0x11d46);
    (0x11d50, 0x11d59); (0x11d60, 0x11d65); (0x11d67, 0x11d68);
    (0x11d6a, 0x11d89); (0x11d98, 0x11d98); (0x11da0, 0x11da9);
    (0x11ee0, 0x11ef2); (0x11fb0, 0x11fb0); (0x11fc0, 0x11fd4);
    (0x12000, 0x12399); (0x12400, 0x1246e); (0x12480, 0x12543);
    (0x12f90, 0x12ff0); (0x13000, 0x1342e); (0x14400, 0x14646);
    (0x16800, 0x16a38); (0x16a40, 0x16a5e); (0x16a60, 0x16a69);
    (0x16a70, 0x16abe); (0x16ac0, 0x16ac9); (0x16ad0, 0x16aed);
    (0x16b00, 0x16b2f); (0x16b40, 0x16b43); (0x16b50, 0x16b59);
    (0x16b5b, 0x16b61); (0x16b63, 0x16b77); (0x16b7d, 0x16b8f);
    (0x16e40, 0x16e96); (0x16f00, 0x16f4a); (0x16f50, 0x16f50);
    (0x16f93, 0x16f9f); (0x16fe0, 0x16fe1); (0x16fe3, 0x16fe3);
    (0x17000, 0x187f7); (0x18800, 0x18cd5); (0x18d00, 0x18d08);
    (0x1aff0, 0x1aff3); (0x1aff5, 0x1affb); (0x1affd, 0x1affe);
    (0x1b000, 0x1b122); (0x1b150, 0x1b152); (0x1b164, 0x1b167);
    (0x1b170, 0x1b2fb); (0x1bc00, 0x1bc6a); (0x1bc70, 0x1bc7c);
    (0x1bc80, 0x1bc88); (0x1bc90, 0x1bc99); (0x1d2e0, 0x1d2f3);
    (0x1d360, 0x1d378); (0x1d400, 0x1d454); (0x1d456, 0x1d49c);
    (0x1d49e, 0x1d49f); (0x1d4a2, 0x1d4a2); (0x1d4a5, 0x1d4a6);
    (0x1d4a9, 0x1d4ac); (0x1d4ae, 0x1d4b9); (0x1d4bb, 0x1d4bb);
    (0x1d4bd, 0x1d4c3); (0x1d4c5, 0x1d505); (0x1d507, 0x1d50a);
    (0x1d50d, 0x1d514); (0x1d516, 0x1d51c); (0x1d51e, 0x1d539);
    (0x1d53b, 0x1d53e); (0x1d540, 0x1d544); (0x1d546, 0x1d546);
    (0x1d54a, 0x1d550); (0x1d552, 0x1d6a5); (0x1d6a8, 0x1d6c0);
    (0x1d6c2, 0x1d6da); (0x1d6dc, 0x1d6fa); (0x1d6fc, 0x1d714);
    (0x1d716, 0x1d734); (0x1d736, 0x1d74e); (0x1d750, 0x1d76e);
    (0x1d770, 0x1d788); (0x1d78a, 0x1d7a8); (0x1d7aa, 0x1d7c2);
    (0x1d7c4, 0x1d7cb); (0x1d7ce, 0x1d7ff); (0x1df00, 0x1df1e);
    (0x1e100, 0x1e12c); (0x1e137, 0x1e13d); (0x1e140, 0x1e149);
    (0x1e14e, 0x1e14e); (0x1e290, 0x1e2ad); (0x1e2c0, 0x1e2eb);
    (0x1e2f0, 0x1e2f9); (0x1e7e0, 0x1e7e6); (0x1e7e8, 0x1e7eb);
    (0x1e7ed, 0x1e7ee); (0x1e7f0, 0x1e7fe); (0x1e800, 0x1e8c4);
    (0x1e8c7, 0x1e8cf); (0x1e900, 0x1e943); (0x1e94b, 0x1e94b);
    (0x1e950, 0x1e959); (0x1ec71, 0x1ecab); (0x1ecad, 0x1ecaf);
    (0x1ecb1, 0x1ecb4); (0x1ed01, 0x1ed2d); (0x1ed2f, 0x1ed3d);
    (0x1ee00, 0x1ee03); (0x1ee05, 0x1ee1f); (0x1ee21, 0x1ee22);
    (0x1ee24, 0x1ee24); (0x1ee27, 0x1ee27); (0x1ee29, 0x1ee32);
    (0x1ee34, 0x1ee37); (0x1ee39, 0x1ee39); (0x1ee3b, 0x1ee3b);
    (0x1ee42, 0x1ee42); (0x1ee47, 0x1ee47); (0x1ee49, 0x1ee49);
    (0x1ee4b, 0x1ee4b); (0x1ee4d, 0x1ee4f); (0x1ee51, 0x1ee52);
    (0x1ee54, 0x1ee54); (0x1ee57, 0x1ee57); (0x1ee59, 0x1ee59);
    (0x1ee5b, 0x1ee5b); (0x1ee5d, 0x1ee5d); (0x1ee5f, 0x1ee5f);
    (0x1ee61, 0x1ee62); (0x1ee64, 0x1ee64); (0x1ee67, 0x1ee6a);
    (0x1ee6c, 0x1ee72); (0x1ee74, 0x1ee77); (0x1ee79, 0x1ee7c);
    (0x1ee7e, 0x1ee7e); (0x1ee80, 0x1ee89); (0x1ee8b, 0x1ee9b);
    (0x1eea1, 0x1eea3); (0x1eea5, 0x1eea9); (0x1eeab, 0x1eebb);
    (0x1f100, 0x1f10c); (0x1fbf0, 0x1fbf9); (0x20000, 0x2a6df);
    (0x2a700, 0x2b738); (0x2b740, 0x2b81d); (0x2b820, 0x2cea1);
    (0x2ceb0, 0x2ebe0); (0x2f800, 0x2fa1d); (0x30000, 0x3134a) ].

Definition is_word (c : N) : bool :=
  if c <? 128
  then in_range 48 57 c || in_range 65 90 c || in_range 97 122 c || (c =? 95)
  else in_ranges word_ranges c.

Inductive citem :=
| CChar (c : N)
| CRange (lo hi : N)
| CWord
| CSpace.

Inductive re :=
| Eps
| Chr (c : N)
| Any
| Cls (neg : bool) (items : list citem)
| Bol
| Eol
| WordB
| Seq (a b : re)
| Alt (a b : re)
| Star (a : re)
| Group (n : nat) (a : re).

Definition item_matches (c : N) (i : citem) : bool :=
  match i with
  | CChar x => c =? x
  | CRange lo hi => in_range lo hi c
  | CWord => is_word c
  | CSpace => isspace c
  end.

Definition cls_matches (neg : bool) (items : list citem) (c : N) : bool :=
  xorb neg (existsb (item_matches c) items).

Definition is_word_opt (c : option N) : bool :=
  match c with Some x => is_word x | None => false end.

(** Captured groups, most recent first. *)
Definition caps := list (nat * list N).

(** The rounds of a greedy repetition: [body] matches one more round, which
    must consume text, and longer repetitions are tried first.  Each round
    consumes a character, so that [fuel] above the length of the text is
    enough. *)
Fixpoint star_loop {A}
    (body : option N -> str -> caps ->
            (option N -> str -> caps -> option A) -> option A)
    (k : option N -> str -> caps -> option A)
    (fuel : nat) (prev : option N) (inp : str) (cs : caps) : option A :=
  match fuel with
  | O => k prev inp cs
  | S f =>
      match body prev inp cs
              (fun p i c =>
                 if (length i <? length inp)%nat
                 then star_loop body k f p i c else None) with
      | Some x => Some x
      | None => k prev inp cs
      end
  end.

(** [run r prev inp cs k]: match [r] at the head of [inp], where [prev] is
    the character before it ([None] at the start of the text), then
    continue with [k]; a failing continuation makes the matcher backtrack. *)
Fixpoint run {A} (r : re) (prev : option N) (inp : str) (cs : caps)
    (k : option N -> str -> caps -> option A) {struct r} : option A :=
  match r with
  | Eps => k prev inp cs
  | Chr c =>
      match inp with
      | x :: t => if x =? c then k (Some x) t cs else None
      | [] => None
      end
  | Any =>
      match inp with
      | x :: t => if x =? NL then None else k (Some x) t cs
      | [] => None
      end
  | Cls neg items =>
      match inp with
      | x :: t => if cls_matches neg items x then k (Some x) t cs else None
      | [] => None
      end
  | Bol => match prev with None => k prev inp cs | Some _ => None end
  | Eol =>
      match inp with
      | [] => k prev inp cs
      | [x] => if x =? NL then k prev inp cs else None
      | _ => None
      end
  | WordB =>
      if xorb (is_word_opt prev) (is_word_opt (head inp))
      then k prev inp cs else None
  | Seq a b => run a prev inp cs (fun p i c => run b p i c k)
  | Alt a b =>
      match run a prev inp cs k with
      | Some x => Some x
      | None => run b prev inp cs k
      end
  | Star a => star_loop (run a) k (S (length inp)) prev inp cs
  | Group n a =>
      run a prev inp cs
        (fun p i c => k p i ((n, take (length inp - length i) inp) :: c))
  end.

(** [m.group(n)] *)
Fixpoint group (cs : caps) (n : nat) : option str :=
  match cs with
  | [] => None
  | (i, s) :: cs' => if (i =? n)%nat then Some s else group cs' n
  end.

(** [next((g for g in m.groups() if g), None)] over groups [1..n]. *)
Fixpoint first_group (cs : caps) (from n : nat) : option str :=
  match n with
  | O => None
  | S n' =>
      match group cs from with
      | Some (c :: s) => Some (c :: s)
      | _ => first_group cs (S from) n'
      end
  end.

(** [pattern.match(s)]: the groups of the match at the start of [s]. *)
Definition rmatch (r : re) (s : str) : option caps :=
  run r None s [] (fun _ _ cs => Some cs).

Definition matches (r : re) (s : str) : bool :=
  match rmatch r s with Some _ => true | None => false end.

(** [pattern.sub(repl, s)], for a pattern that matches no empty text or for
    an empty [repl] (replacing an empty match by nothing changes nothing):
    every match that consumes text is replaced by [repl], scanning from left
    to right.  Each round consumes a character, so that [fuel] above the
    length of the text is enough. *)
Fixpoint sub_from (r : re) (repl : str) (fuel : nat) (prev : option N)
    (inp : str) : str :=
  match fuel with
  | O => inp
  | S f =>
      match run r prev inp []
              (fun p i _ =>
                 if (length i <? length inp)%nat then Some (p, i) else None)
      with
      | Some (p, i) => repl ++ sub_from r repl f p i
      | None =>
          match inp with
          | [] => []
          | c :: t => c :: sub_from r repl f (Some c) t
          end
      end
  end.

Definition sub (r : re) (repl s : str) : str :=
  sub_from r repl (S (length s)) None s.

(** [pattern.sub(empty, s)] *)
Definition sub_del (r : re) (s : str) : str := sub r [] s.

(** [re.split(pattern, s, maxsplit=1)[0]] for a pattern that matches no
    empty text: the text before the first match, all of it without a
    match. *)
Fixpoint before_match (r : re) (prev : option N) (inp : str) : str :=
  match run r prev inp [] (fun _ _ _ => Some tt) with
  | Some _ => []
  | None =>
      match inp with
      | [] => []
      | c :: t => c :: before_match r (Some c) t
      end
  end.

(** *** Reading a pattern *)

Definition ch (a : ascii) : N := N_of_ascii a.

Definition is_ascii_alnum (c : N) : bool :=
  in_range 48 57 c || in_range 65 90 c || in_range 97 122 c.

(** An escaped character inside or outside a class; escapes of letters and
    digits other than [\w] and [\s] do not occur in the scripts. *)
Definition escape_item (e : N) : option citem :=
  if e =? ch "w" then Some CWord
  else if e =? ch "s" then Some CSpace
  else if is_ascii_alnum e then None
  else Some (CChar e).

Fixpoint parse_class (fuel : nat) (s : str) (acc : list citem)
    : option (list citem * str) :=
  match fuel with
  | O => None
  | S f =>
      match s with
      | [] => None
      | c :: r =>
          if c =? ch "]" then Some (rev acc, r)
          else if c =? ch "\" then
            match r with
            | e :: r' =>
                match escape_item e with
                | Some it => parse_class f r' (it :: acc)
                | None => None
                end
            | [] => None
            end
          else
            match r with
            | d :: hi :: r' =>
                if (d =? ch "-") && negb (hi =? ch "]")
                then if hi =? ch "\" then None
                     else parse_class f r' (CRange c hi :: acc)
                else parse_class f r (CChar c :: acc)
            | _ => parse_class f r (CChar c :: acc)
            end
      end
  end.

(** A quantifier after an atom; lazy and possessive forms are not used. *)
Definition parse_quant (a : re) (s : str) : option (re * str) :=
  let plain (r : str) : bool :=
    match r with
    | q :: _ => negb ((q =? ch "?") || (q =? ch "+") || (q =? ch "*"))
    | [] => true
    end in
  match s with
  | q :: r =>
      if q =? ch "*" then if plain r then Some (Star a, r) else None
      else if q =? ch "+" then
        if plain r then Some (Seq a (Star a), r) else None
      else if q =? ch "?" then
        if plain r then Some (Alt a Eps, r) else None
      else Some (a, s)
  | [] => Some (a, s)
  end.

(** [g] is the number of capturing groups opened so far. *)
Fixpoint parse_alt (fuel g : nat) (s : str) : option (re * nat * str) :=
  match fuel with
  | O => None
  | S f =>
      match parse_seq f g s with
      | Some (a, g1, r) =>
          match r with
          | c :: r' =>
              if c =? ch "|" then
                match parse_alt f g1 r' with
                | Some (b, g2, r'') => Some (Alt a b, g2, r'')
                | None => None
                end
              else Some (a, g1, r)
          | [] => Some (a, g1, r)
          end
      | None => None
      end
  end
with parse_seq (fuel g : nat) (s : str) : option (re * nat * str) :=
  match fuel with
  | O => None
  | S f =>
      match s with
      | [] => Some (Eps, g, s)
      | c :: _ =>
          if (c =? ch "|") || (c =? ch ")") then Some (Eps, g, s)
          else
            match parse_atom f g s with
            | Some (a, g1, r) =>
                match parse_quant a r with
                | Some (a', r') =>
                    match parse_seq f g1 r' with
                    | Some (Eps, g2, r'') => Some (a', g2, r'')
                    | Some (b, g2, r'') => Some (Seq a' b, g2, r'')
                    | None => None
                    end
                | None => None
                end
            | None => None
            end
      end
  end
with parse_atom (fuel g : nat) (s : str) : option (re * nat * str) :=
  match fuel with
  | O => None
  | S f =>
      match s with
      | [] => None
      | c :: r =>
          if c =? ch "(" then
            match r with
            | q :: r1 =>
                if q =? ch "?" then
                  match r1 with
                  | x :: r2 =>
                      if x =? ch ":" then
                        match parse_alt f g r2 with
                        | Some (a, g1, y :: r3) =>
                            if y =? ch ")" then Some (a, g1, r3) else None
                        | _ => None
                        end
                      else None
                  | [] => None
                  end
                else
                  match parse_alt f (S g) r with
                  | Some (a, g1, y :: r3) =>
                      if y =? ch ")" then Some (Group (S g) a, g1, r3)
                      else None
                  | _ => None
                  end
            | [] => None
            end
          else if c =? ch "[" then
            match r with
            | n :: r1 =>
                if n =? ch "^" then
                  match parse_class (length r1) r1 [] with
                  | Some (items, r2) => Some (Cls true items, g, r2)
                  | None => None
                  end
                else
                  match parse_class (length r) r [] with
                  | Some (items, r2) => Some (Cls false items, g, r2)
                  | None => None
                  end
            | [] => None
            end
          else if c =? ch "\" then
            match r with
            | e :: r1 =>
                if e =? ch "b" then Some (WordB, g, r1)
                else match escape_item e with
                     | Some (CChar x) => Some (Chr x, g, r1)
                     | Some it => Some (Cls false [it], g, r1)
                     | None => None
                     end
            | [] => None
            end
          else if c =? ch "." then Some (Any, g, r)
          else if c =? ch "^" then Some (Bol, g, r)
          else if c =? ch "$" then Some (Eol, g, r)
          else if (c =? ch "*") || (c =? ch "+") || (c =? ch "?")
                  || (c =? ch "{") || (c =? ch "}") || (c =? ch "]")
          then None
          else Some (Chr c, g, r)
      end
  end.

(** A pattern that matches nothing, for a pattern that cannot be read. *)
Definition never : re := Cls false [].

Definition parse (p : string) : option re :=
  match parse_alt (4 * String.length p + 4) 0 (lit p) with
  | Some (r, _, []) => Some r
  | _ => None
  end.

(** [re.compile(p)] *)
Definition compile (p : string) : re :=
  match parse p with Some r => r | None => never end.

End Re.

(** A call that either returns or raises [ValueError]. *)
Inductive result (A : Type) : Type :=
| Ok (a : A)
| ValueError (msg : list N).
Arguments Ok {A} a.
Arguments ValueError {A} msg.

(** ** scripts/annotate_code_headers.py *)

Module annotate_code_headers.
Import Py Re.

Definition CODEX_MARKER : str := lit "@codex-header: v1".
Definition DEFAULT_MAX_WIDTH : Z := 120.
Definition HEADER_LINES : nat := 20.
Definition MAX_INHERIT_EDGES : nat := 6.

(** The truncation marker, U+2026. *)
Definition ELLIPSIS : N := 0x2026.

(** The unfilled-marker token. *)
Definition TODO : str := lit "TODO".

Inductive style_kind := Line | Block | PyDocstring.

#[global] Instance style_kind_eq_dec : EqDecision style_kind.
Proof. solve_decision. Defined.

Record CommentStyle := {
  kind : style_kind;
  line_prefix : str;
  block_start : str;
  block_line_prefix : str;
  block_end : str;
  docstring_quote : str
}.

Definition line_style (prefix : string) : CommentStyle :=
  {| kind := Line; line_prefix := lit prefix; block_start := [];
     block_line_prefix := []; block_end := []; docstring_quote := [] |}.

Definition block_style (start prefix stop : string) : CommentStyle :=
  {| kind := Block; line_prefix := []; block_start := lit start;
     block_line_prefix := lit prefix; block_end := lit stop;
     docstring_quote := [] |}.

Definition c_block : CommentStyle := block_style "/*" " * " " */".
Definition html_block : CommentStyle := block_style "<!--" "  " "-->".

Definition COMMENT_STYLES_BY_SUFFIX : list (str * CommentStyle) :=
  [ (lit ".py", line_style "# "); (lit ".pyi", line_style "# ");
    (lit ".sh", line_style "# "); (lit ".bash", line_style "# ");
    (lit ".zsh", line_style "# "); (lit ".fish", line_style "# ");
    (lit ".ps1", line_style "# ");
    (lit ".rb", line_style "# "); (lit ".yml", line_style "# ");
    (lit ".yaml", line_style "# ");
    (lit ".sql", line_style "-- "); (lit ".lua", line_style "-- ");
    (lit ".c", c_block); (lit ".h", c_block); (lit ".cc", c_block);
    (lit ".cpp", c_block); (lit ".hpp", c_block); (lit ".cs", c_block);
    (lit ".java", c_block); (lit ".kt", c_block); (lit ".swift", c_block);
    (lit ".js", c_block); (lit ".jsx", c_block); (lit ".ts", c_block);
    (lit ".tsx", c_block); (lit ".go", c_block); (lit ".rs", c_block);
    (lit ".php", c_block); (lit ".css", c_block); (lit ".scss", c_block);
    (lit ".less", c_block);
    (lit ".html", html_block); (lit ".htm", html_block);
    (lit ".xml", html_block); (lit ".vue", html_block) ].

Definition SKIP_SUFFIXES : list str :=
  [ lit ".json"; lit ".lock"; lit ".png"; lit ".jpg"; lit ".jpeg";
    lit ".gif"; lit ".webp"; lit ".ico"; lit ".pdf"; lit ".zip"; lit ".gz";
    lit ".bz2"; lit ".xz"; lit ".7z"; lit ".jar"; lit ".class";
    lit ".wasm" ].

(** [d.get(key)] on the suffix table. *)
Fixpoint table_get {V} (t : list (str * V)) (key : str) : option V :=
  match t with
  | [] => None
  | (k, v) :: t' => if str_eqb k key then Some v else table_get t' key
  end.

(** [suffix] is [path.suffix.lower()]. *)
Definition _detect_comment_style (suffix : str) : option CommentStyle :=
  if mem suffix SKIP_SUFFIXES then None
  else table_get COMMENT_STYLES_BY_SUFFIX suffix.

Definition _RE_WHITESPACE : re := Eval vm_compute in compile "\s+".

Definition _truncate (s : str) (max_width : Z) : str :=
  let s := sub _RE_WHITESPACE (lit " ") (strip s) in
  if (len s <=? max_width)%Z then s
  else if (max_width <=? 1)%Z then slice_to s max_width
  else rstrip (slice_to s (max_width - 1)) ++ [ELLIPSIS].

(** *** Prolog *)

Definition _RE_CODING_COOKIE : re :=
  Eval vm_compute in compile "^#.*coding[:=]\s*[-\w.]+".

Definition is_shebang (l : str) : bool := startswith l (lit "#!").
Definition is_xml_decl (l : str) : bool := startswith (lstrip l) (lit "<?xml").
Definition is_coding_cookie (l : str) : bool := matches _RE_CODING_COOKIE l.
Definition is_go_build_tag (l : str) : bool :=
  startswith l (lit "//go:build") || startswith l (lit "// +build").
Definition is_rust_inner_attr (l : str) : bool :=
  startswith (lstrip l) (lit "#![").
Definition is_blank (l : str) : bool := str_eqb (strip l) [].

(** [i < len(lines) and p(lines[i])] *)
Definition test_at (p : str -> bool) (lines : list str) (i : nat) : bool :=
  match lines !! i with
  | Some l => p l
  | None => false
  end.

(** The loop state of [_split_prolog]: the prolog so far and the index. *)
Definition pstate : Type := list (list N) * nat.

(** [if i < len(lines) and p(lines[i]): prolog.append(lines[i]); i += 1] *)
Definition consume_if (p : str -> bool) (lines : list str) (st : pstate)
    : pstate :=
  let '(prolog, i) := st in
  match lines !! i with
  | Some l => if p l then (prolog ++ [l], S i) else st
  | None => st
  end.

Fixpoint count_while {A} (p : A -> bool) (l : list A) : nat :=
  match l with
  | [] => O
  | x :: r => if p x then S (count_while p r) else O
  end.

(** [while i < len(lines) and p(lines[i]): prolog.append(lines[i]); i += 1] *)
Definition consume_while (p : str -> bool) (lines : list str) (st : pstate)
    : pstate :=
  let '(prolog, i) := st in
  let n := count_while p (drop i lines) in
  (prolog ++ take n (drop i lines), (i + n)%nat).

Definition go_build_block (lines : list str) (st : pstate) : pstate :=
  if test_at is_go_build_tag lines st.2 then
    let '(prolog, i) := consume_while is_go_build_tag lines st in
    match lines !! i with
    | Some l => if is_blank l then (prolog ++ [l], S i)
                else (prolog ++ [[NL]], i)
    | None => (prolog ++ [[NL]], i)
    end
  else st.

Definition rust_attr_block (lines : list str) (st : pstate) : pstate :=
  if test_at is_rust_inner_attr lines st.2 then
    consume_if is_blank lines (consume_while is_rust_inner_attr lines st)
  else st.

Definition is_python (suffix : str) : bool :=
  mem suffix [lit ".py"; lit ".pyi"].

(** The state after the five rules, for a file whose first line is
    [first]. *)
Definition prolog_scan (first : str) (lines : list str) (suffix : str)
    : pstate :=
  let st : pstate := if is_shebang first then ([first], 1%nat)
                     else ([], 0%nat) in
  let st := consume_if is_xml_decl lines st in
  let st := if is_python suffix
            then consume_if is_coding_cookie lines st else st in
  let st := go_build_block lines st in
  rust_attr_block lines st.

Definition _split_prolog (lines : list str) (suffix : str)
    : list str * list str :=
  match lines with
  | [] => ([], [])
  | first :: _ =>
      let st := prolog_scan first lines suffix in
      (st.1, drop st.2 lines)
  end.

(** *** Existing header *)

Definition short_header_message : str :=
  lit "found " ++ CODEX_MARKER ++ lit " but file is shorter than "
  ++ dec (Z.of_nat HEADER_LINES) ++ lit " lines".

Definition misplaced_header_message (path : str) : str :=
  lit "found " ++ CODEX_MARKER
  ++ lit " near top but header is not the first "
  ++ dec (Z.of_nat HEADER_LINES) ++ lit " lines; "
  ++ lit "manually normalize the header in " ++ path.

Definition _split_existing_codex_header (rest : list str) (path : str)
    : result (option (list str) * list str * bool) :=
  let max_scan := Nat.min (length rest) 60 in
  let scan_lines := take max_scan rest in
  let scan := concat scan_lines in
  if negb (contains scan CODEX_MARKER) then Ok (None, rest, false)
  else if (length rest <? HEADER_LINES)%nat
  then ValueError short_header_message
  else if existsb (fun ln => contains ln CODEX_MARKER) (take HEADER_LINES rest)
  then Ok (Some (take HEADER_LINES rest), drop HEADER_LINES rest, true)
  else ValueError (misplaced_header_message path).

(** *** AGENTS.md *)

Definition DQ : N := 34.

(** A text given by its lines, each ended by a newline. *)
Definition lines_text (ls : list str) : str :=
  concat (map (fun l => l ++ [NL]) ls).

Definition AGENTS_MD_TEMPLATE : str :=
  lines_text
  [ lit "# Code Navigation Guide";
    [];
    lit "> **IMPORTANT**: This project uses codex-header annotations "
      ++ lit "(20-line file headers) for efficient AI navigation.";
    lit "> **DO NOT** read entire files at once. Follow the pattern "
      ++ lit "below to reduce context bloat.";
    [];
    lit "## Reading Pattern (MUST FOLLOW)";
    [];
    lit "When you need to understand or modify any source file:";
    [];
    lit "1. **READ FIRST 20 LINES ONLY** - Contains file overview, "
      ++ lit "purpose, key types, functions, and inheritance";
    lit "2. **USE LINE REFERENCES** - Jump directly to specific "
      ++ lit "locations using `@L<line-number>` syntax";
    lit "3. **READ FULL FILE ONLY WHEN**: You need to see "
      ++ lit "implementation details for the specific function/class "
      ++ lit "you're working on";
    [];
    lit "## Example Workflow";
    [];
    lit "**Instead of reading**:";
    lit "```";
    lit "User: " ++ [DQ] ++ lit "How does authentication work?" ++ [DQ];
    lit "AI: [reads entire auth.py file - 500 lines]";
    lit "```";
    [];
    lit "**Do this**:";
    lit "```";
    lit "User: " ++ [DQ] ++ lit "How does authentication work?" ++ [DQ];
    lit "AI: [reads first 20 lines of auth.py]";
    lit "   " ++ [0x2192] ++ lit " Sees " ++ [DQ] ++ lit "Key types: AuthService@L45, TokenHandler@L89" ++ [DQ];
    lit "   " ++ [0x2192] ++ lit " Reads AuthService@L45 to "
      ++ lit "understand the main class";
    lit "   " ++ [0x2192] ++ lit " Reads TokenHandler@L89 if needed";
    lit "```";
    [];
    lit "## File Structure Overview";
    [];
    lit "```";
    lit "project-root/";
    [0x251c; 0x2500; 0x2500] ++ lit " src/                  # Source code";
    [0x251c; 0x2500; 0x2500] ++ lit " tests/                # Test files";
    [0x251c; 0x2500; 0x2500] ++ lit " scripts/              # Build/utility scripts";
    [0x2514; 0x2500; 0x2500] ++ lit " AGENTS.md            # This file - DO NOT REMOVE";
    lit "```";
    [];
    lit "## Navigation Syntax Reference";
    [];
    lit "- `ClassName@L45` - Jump to line 45 (class definition)";
    lit "- `function_name@L123` - Jump to line 123 (function definition)";
    lit "- `Child@L..->Base@L..` - Inheritance relationship";
    lit "- `Type@path/to/file.py#L..` - Cross-file reference";
    [];
    lit "## Why This Format?";
    [];
    lit "- **Faster context building**: 20 lines vs 500+ lines";
    lit "- **Better accuracy**: Focus on structure before details";
    lit "- **Efficient updates**: Headers stay in sync with code";
    lit "- **Team readable**: Human developers can also use this pattern";
    [];
    lit "---";
    [];
    lit "*Last updated: {date}*";
    lit "*Generated by: code-header-annotator skill*" ].

(** [template.format(date=date)], for a template whose only braces are those
    of [{date}]. *)
Definition format_date (template date : str) : str :=
  join date (split (lit "{date}") template).

(** [s.replace(old, new)] for a non-empty [old]. *)
Definition replace (old new s : str) : str := join new (split old s).

(** [a < b] on strings: code points are compared from left to right. *)
Fixpoint str_ltb (a b : str) : bool :=
  match a, b with
  | _, [] => false
  | [], _ :: _ => true
  | x :: a', y :: b' => (x <? y) || ((x =? y) && str_ltb a' b')
  end.

(** [sorted(l, key=key)]: elements with equal keys keep their order. *)
Fixpoint insert_by {A} (key : A -> str) (x : A) (l : list A) : list A :=
  match l with
  | [] => [x]
  | y :: l' =>
      if str_ltb (key y) (key x) then y :: insert_by key x l'
      else x :: y :: l'
  end.

Definition sorted_by {A} (key : A -> str) (l : list A) : list A :=
  foldr (insert_by key) [] l.

(** An entry of [annotated_files]: the path (as [str(path)]), the values of
    Purpose, Key types and Key funcs, and [_relpath_for_header(path, root)]
    for the root of the call. *)
Record annotated := {
  a_path : list N;
  a_purpose : list N;
  a_types : list N;
  a_funcs : list N;
  a_relpath : list N
}.

(** The row of a file in the index table. *)
Definition index_row (f : annotated) : str :=
  let purpose_short :=
    if truthy (a_purpose f) then _truncate (a_purpose f) 60 else TODO in
  let key_content :=
    (if truthy (a_types f) && negb (str_eqb (a_types f) TODO)
     then [lit "Types: " ++ a_types f] else [])
    ++ (if truthy (a_funcs f) && negb (str_eqb (a_funcs f) TODO)
        then [lit "Funcs: " ++ a_funcs f] else []) in
  let key_content_str :=
    match key_content with
    | [] => lit "-"
    | _ => join (lit "; ") key_content
    end in
  lit "| `" ++ a_relpath f ++ lit "` | " ++ purpose_short ++ lit " | "
  ++ key_content_str ++ lit " |".

Definition _generate_agents_md_index (annotated_files : list annotated) : str :=
  match annotated_files with
  | [] => []
  | _ => join [NL] (map index_row (sorted_by a_path annotated_files))
  end.

Definition marker_start : str := lit "<!-- CODEX_HEADER_INDEX_START -->".
Definition marker_end : str := lit "<!-- CODEX_HEADER_INDEX_END -->".
Definition section_marker : str := lit "## File Structure Overview".

(** The lines written around the table. *)
Definition INDEX_NOTICE : str :=
  lit "<!-- This section is auto-generated by code-header-annotator -->"
  ++ [NL] ++ lit "<!-- DO NOT EDIT MANUALLY -->" ++ [NL; NL]
  ++ lit "| File | Purpose | Key Content |" ++ [NL]
  ++ lit "|------|---------|-------------|" ++ [NL].

(** [index_section] of the branch for a new file. *)
Definition index_section (index_content : str) : str :=
  [NL] ++ lit "## Annotated Files Index" ++ [NL; NL]
  ++ marker_start ++ [NL] ++ INDEX_NOTICE
  ++ index_content ++ [NL] ++ marker_end ++ [NL].

(** [existing_pre_content] and [existing_post_content]; [existing] is the
    text of [AGENTS.md], [None] when the file does not exist. *)
Definition existing_parts (existing : option str) : str * str :=
  match existing with
  | Some existing_content =>
      if contains existing_content marker_start
         && contains existing_content marker_end
      then (nth 0 (split marker_start existing_content) [],
            nth 1 (split marker_end existing_content) [])
      else ([], [])
  | None => ([], [])
  end.

(** The returned flag and the text written to [AGENTS.md], if any; [today]
    is [date.today().isoformat()]. *)
Definition _update_agents_md (existing : option str) (today : str)
    (annotated_files : list annotated) : bool * option str :=
  let index_content := _generate_agents_md_index annotated_files in
  if truthy index_content then
    let '(existing_pre_content, existing_post_content) :=
      existing_parts existing in
    let new_content := format_date AGENTS_MD_TEMPLATE today in
    let new_content :=
      if truthy existing_pre_content || truthy existing_post_content then
        (* the text built in this branch is not the one that is written *)
        let final_content :=
          existing_pre_content ++ marker_start ++ [NL] ++ INDEX_NOTICE
          ++ index_content ++ [NL] ++ marker_end ++ existing_post_content in
        new_content
      else if contains new_content section_marker then
        replace section_marker (index_section index_content ++ section_marker)
          new_content
      else new_content in
    (true, Some new_content)
  else (false, None).

(** *** Fields of an existing header *)

Definition _HEADER_FIELD_PREFIXES : list str :=
  [ lit "Path:"; lit "Purpose:"; lit "Key types:"; lit "Inheritance:";
    lit "Key funcs:"; lit "Entrypoints:"; lit "Public API:";
    lit "Inputs/Outputs:"; lit "Core flow:"; lit "Dependencies:";
    lit "Error handling:"; lit "Config/env:"; lit "Side effects:";
    lit "Performance:"; lit "Security:"; lit "Tests:"; lit "Known issues:";
    lit "Index:"; lit "Last update:" ].

Definition _RE_HEADER_PREFIX : re :=
  Eval vm_compute in compile "^\s*(?:/\*+|<!--)?\s*(?:\*+\s*)?(?:#|//|--)?\s*".
Definition _RE_HEADER_SUFFIX : re :=
  Eval vm_compute in compile "\s*(?:\*/|-->)\s*$".

Definition _strip_header_comment_syntax (line : str) : str :=
  let s := rstrip_chars [CR] (rstrip_chars [NL] line) in
  let s := sub_del _RE_HEADER_SUFFIX s in
  let s := sub_del _RE_HEADER_PREFIX s in
  strip s.

(** The first prefix of the table that [clean] starts with. *)
Definition matching_prefix (clean : str) : option str :=
  List.find (startswith clean) _HEADER_FIELD_PREFIXES.

Definition parse_header_line (fields : gmap (list N) (list N)) (ln : str)
    : gmap (list N) (list N) :=
  let clean := _strip_header_comment_syntax ln in
  match matching_prefix clean with
  | Some prefix =>
      <[ but_last prefix := strip (drop (length prefix) clean) ]> fields
  | None => fields
  end.

Definition _parse_existing_header_fields (header_lines : list str)
    : gmap (list N) (list N) :=
  foldl parse_header_line ∅ header_lines.

Definition _is_placeholder (value : option str) : bool :=
  match value with
  | None => true
  | Some value =>
      let v := strip value in
      if negb (truthy v) then true
      else if str_eqb v TODO then true
      else if startswith v (lit "TODO ") then true
      else if startswith v (lit "TODO:") then true
      else if startswith v (lit "TODO;") then true
      else false
  end.

(** *** Docstring hint *)

(** Three double quotes and three single quotes. *)
Definition TRIPLE_DQ : str := [34; 34; 34].
Definition TRIPLE_SQ : str := lit "'''".

(** The [for idx in range(i + 1, ...)] loop of [_peek_py_module_docstring]
    over the lines that follow the opener. *)
Fixpoint docstring_body (quote : str) (following collected : list str)
    : option str :=
  match following with
  | [] => None
  | ln :: more =>
      if contains ln quote
      then Some (_truncate (join [NL] collected) 300)
      else docstring_body quote more (collected ++ [rstrip_chars [NL] ln])
  end.

Definition _peek_py_module_docstring (lines : list str) : option str :=
  let i := count_while is_blank lines in
  match lines !! i with
  | None => None
  | Some l =>
      let opener := lstrip l in
      let quote :=
        if startswith opener TRIPLE_DQ then Some TRIPLE_DQ
        else if startswith opener TRIPLE_SQ then Some TRIPLE_SQ
        else None in
      match quote with
      | None => None
      | Some quote =>
          if (2 <=? count opener quote)%nat
             && negb (str_eqb (strip opener) quote)
          then Some (_truncate (nth 1 (split_max quote opener 2) []) 300)
          else docstring_body quote (take 1999 (drop (S i) lines)) []
      end
  end.

(** *** Patterns *)

Definition _RE_PY_DEF : re :=
  Eval vm_compute in compile "^\s*def\s+([A-Za-z_]\w*)\s*\(".
Definition _RE_PY_CLASS : re :=
  Eval vm_compute in compile "^\s*class\s+([A-Za-z_]\w*)\s*[\(:]".
Definition _RE_PY_INHERIT : re :=
  Eval vm_compute in compile "^\s*class\s+([A-Za-z_]\w*)\s*\(([^)]*)\)\s*:".
Definition _RE_JS_CLASS : re :=
  Eval vm_compute in compile
    "^\s*export\s+default\s+class\s+([A-Za-z_$][\w$]*)\b|^\s*export\s+class\s+([A-Za-z_$][\w$]*)\b|^\s*class\s+([A-Za-z_$][\w$]*)\b".
Definition _RE_JS_INHERIT : re :=
  Eval vm_compute in compile
    "^\s*(?:export\s+)?(?:default\s+)?(?:abstract\s+)?class\s+([A-Za-z_$][\w$]*)\s+extends\s+([A-Za-z_$][\w$]*)".
Definition _RE_TS_CLASS : re :=
  Eval vm_compute in compile
    "^\s*(?:export\s+)?(?:default\s+)?(?:abstract\s+)?class\s+([A-Za-z_$][\w$]*)\b".
Definition _RE_TS_INTERFACE : re :=
  Eval vm_compute in compile "^\s*(?:export\s+)?interface\s+([A-Za-z_$][\w$]*)\b".
Definition _RE_TS_ENUM : re :=
  Eval vm_compute in compile "^\s*(?:export\s+)?enum\s+([A-Za-z_$][\w$]*)\b".
Definition _RE_TS_TYPE_ALIAS : re :=
  Eval vm_compute in compile "^\s*(?:export\s+)?type\s+([A-Za-z_$][\w$]*)\b".
Definition _RE_TS_IMPLEMENTS : re :=
  Eval vm_compute in compile
    "^\s*(?:export\s+)?(?:default\s+)?(?:abstract\s+)?class\s+([A-Za-z_$][\w$]*)\b(?:\s+extends\s+[A-Za-z_$][\w$]*)?\s+implements\s+([^{]+)".
Definition _RE_JS_FN : re :=
  Eval vm_compute in compile
    "^\s*export\s+function\s+([A-Za-z_$][\w$]*)\s*\(|^\s*function\s+([A-Za-z_$][\w$]*)\s*\(|^\s*export\s+const\s+([A-Za-z_$][\w$]*)\s*=\s*\(|^\s*const\s+([A-Za-z_$][\w$]*)\s*=\s*\(".
Definition _RE_GO_TYPE : re :=
  Eval vm_compute in compile "^\s*type\s+([A-Za-z_]\w*)\s+(struct|interface)\b".
Definition _RE_GO_FUNC : re :=
  Eval vm_compute in compile
    "^\s*func\s+\(?[A-Za-z_*\w]*\)?\s*([A-Za-z_]\w*)\s*\(".
Definition _RE_RS_ITEM : re :=
  Eval vm_compute in compile
    "^\s*(?:pub\s+)?(struct|enum|trait)\s+([A-Za-z_]\w*)\b".
Definition _RE_RS_FN : re :=
  Eval vm_compute in compile "^\s*(?:pub\s+)?fn\s+([A-Za-z_]\w*)\s*\(".
Definition _RE_RS_IMPL_FOR : re :=
  Eval vm_compute in compile
    "^\s*impl\s+(?:<[^>]+>\s+)?([A-Za-z_]\w*)\s+for\s+([A-Za-z_]\w*)\b".
Definition _RE_JAVA_TYPE : re :=
  Eval vm_compute in compile
    "^\s*(?:public|protected|private)?\s*(?:abstract|final)?\s*(class|interface|enum)\s+([A-Za-z_]\w*)\b".
Definition _RE_JAVA_INHERIT : re :=
  Eval vm_compute in compile
    "^\s*(?:public|protected|private)?\s*(?:abstract|final)?\s*class\s+([A-Za-z_]\w*)\s+extends\s+([A-Za-z_]\w*)\b".
Definition _RE_JAVA_IMPLEMENTS : re :=
  Eval vm_compute in compile
    "^\s*(?:public|protected|private)?\s*(?:abstract|final)?\s*class\s+([A-Za-z_]\w*)\b(?:\s+extends\s+[A-Za-z_]\w*)?\s+implements\s+([^{]+)".
Definition _RE_JAVA_INTERFACE_EXTENDS : re :=
  Eval vm_compute in compile
    "^\s*(?:public|protected|private)?\s*interface\s+([A-Za-z_]\w*)\s+extends\s+([^{]+)".
Definition _RE_CS_INHERIT : re :=
  Eval vm_compute in compile
    "^\s*(?:public|protected|private|internal)?\s*(?:abstract|sealed|static|partial)?\s*class\s+([A-Za-z_]\w*)\s*:\s*([A-Za-z_]\w*)".
Definition _RE_CS_SUPERTYPES : re :=
  Eval vm_compute in compile
    "^\s*(?:public|protected|private|internal)?\s*(?:abstract|sealed|static|partial)?\s*(class|interface|struct)\s+([A-Za-z_]\w*)\s*:\s*([^{]+)".
Definition _RE_KT_INHERIT : re :=
  Eval vm_compute in compile
    "^\s*(?:public|protected|private|internal)?\s*(?:open|abstract|sealed|data)?\s*class\s+([A-Za-z_]\w*)\s*:\s*([A-Za-z_]\w*)".
Definition _RE_KT_SUPERTYPES : re :=
  Eval vm_compute in compile
    "^\s*(?:public|protected|private|internal)?\s*(?:open|abstract|sealed|data)?\s*(class|interface)\s+([A-Za-z_]\w*)\s*:\s*([^{]+)".
Definition _RE_C_LIKE_FN : re :=
  Eval vm_compute in compile
    "^\s*[A-Za-z_][\w\s\*]+\s+([A-Za-z_]\w*)\s*\([^;]*\)\s*\{".
(** The pattern written in place in the [.cs] branches. *)
Definition _RE_CS_TYPE : re :=
  Eval vm_compute in compile
    "^\s*(?:public|protected|private|internal)?\s*(?:abstract|sealed|static|partial)?\s*(?:class|interface|struct|enum)\s+([A-Za-z_]\w*)\b".

(** [m.group(n)] of a group that takes part in every match. *)
Definition grp (cs : caps) (n : nat) : str := default [] (group cs n).

Definition is_js_like (suffix : str) : bool :=
  mem suffix [lit ".js"; lit ".jsx"; lit ".ts"; lit ".tsx"].
Definition is_ts (suffix : str) : bool := mem suffix [lit ".ts"; lit ".tsx"].
Definition is_java_kt (suffix : str) : bool :=
  mem suffix [lit ".java"; lit ".kt"].

(** [a.match(line) or b.match(line) or ...] *)
Fixpoint first_match (rs : list re) (line : str) : option caps :=
  match rs with
  | [] => None
  | r :: rs' =>
      match rmatch r line with
      | Some cs => Some cs
      | None => first_match rs' line
      end
  end.

Definition ts_type_patterns : list re :=
  [_RE_TS_CLASS; _RE_TS_INTERFACE; _RE_TS_ENUM; _RE_TS_TYPE_ALIAS].

(** *** Inheritance *)

Definition _RE_GENERIC_OR_CALL : re := Eval vm_compute in compile "[<(]".

(** [re.split(r"[<(]", s, maxsplit=1)[0]] *)
Definition before_generic (s : str) : str :=
  before_match _RE_GENERIC_OR_CALL None s.

Definition _clean_base_name (s : str) : str :=
  let s := strip s in
  if negb (truthy s) then []
  else
    let s := strip (before_generic s) in
    if contains s (lit ".") then after_last (lit ".") s else s.

Definition _split_supertype_list (raw : str) : list str :=
  let raw := strip raw in
  let raw := strip (nth 0 (split_max (lit "{") raw 1) []) in
  let raw := strip (nth 0 (split_max (lit "where") raw 1) []) in
  if negb (truthy raw) then []
  else List.filter truthy (map strip (split (lit ",") raw)).

Definition _resolve_type_ref (name : str)
    (type_line_by_name : gmap (list N) Z)
    (type_index : option (gmap (list N) (list (list N * Z)))) : str :=
  match type_line_by_name !! name with
  | Some in_file_ln => name ++ lit "@L" ++ dec in_file_ln
  | None =>
      match type_index with
      | None => name
      | Some index =>
          match default [] (index !! name) with
          | [(relpath, ln)] => name ++ lit "@" ++ relpath ++ lit "#L" ++ dec ln
          | _ => name
          end
      end
  end.

(** The declared type name the first loop of [_extract_inheritance] records
    for a line, if any. *)
Definition declared_type (suffix line : str) : option str :=
  if is_python suffix then
    match rmatch _RE_PY_CLASS line with
    | Some m => Some (grp m 1)
    | None => None
    end
  else if is_js_like suffix then
    if is_ts suffix then
      match first_match ts_type_patterns line with
      | Some m => Some (grp m 1)
      | None => None
      end
    else
      match rmatch _RE_JS_CLASS line with
      | Some m => first_group m 1 3
      | None => None
      end
  else if is_java_kt suffix then
    match rmatch _RE_JAVA_TYPE line with
    | Some m => Some (grp m 2)
    | None => None
    end
  else if str_eqb suffix (lit ".cs") then
    match rmatch _RE_CS_TYPE line with
    | Some m => Some (grp m 1)
    | None => None
    end
  else None.

(** [for idx, line in enumerate(body_lines, start=idx)] of the first loop. *)
Fixpoint type_lines (suffix : str) (body_lines : list str) (idx : Z)
    (final_body_offset : Z) (acc : gmap (list N) Z) : gmap (list N) Z :=
  match body_lines with
  | [] => acc
  | line :: more =>
      let acc :=
        match declared_type suffix line with
        | Some name => <[ name := (final_body_offset + idx)%Z ]> acc
        | None => acc
        end in
      type_lines suffix more (idx + 1)%Z final_body_offset acc
  end.

Definition ARROW : str := lit "->".
Definition PLUS : str := lit "+".
Definition IMPLEMENTS : str := lit "~>".

(** [(rel, p) for p in names if p] *)
Definition tagged (rel : str) (names : list str) : list (str * str) :=
  map (fun p => (rel, p)) (List.filter truthy names).

Definition cleaned_supertypes (raw : str) : list str :=
  map _clean_base_name (_split_supertype_list raw).

(** The Kotlin class case: the first supertype written as a call is the
    superclass, and without any call the first supertype is. *)
Fixpoint kt_with_super (used_super : bool) (raw_clean : list (str * str))
    : list (str * str) :=
  match raw_clean with
  | [] => []
  | (rel, parent) :: more =>
      if negb (truthy parent) then kt_with_super used_super more
      else if str_eqb rel ARROW && negb used_super
      then (ARROW, parent) :: kt_with_super true more
      else (IMPLEMENTS, parent) :: kt_with_super used_super more
  end.

Fixpoint kt_without_super (j : nat) (raw_clean : list (str * str))
    : list (str * str) :=
  match raw_clean with
  | [] => []
  | (_, parent) :: more =>
      if negb (truthy parent) then kt_without_super (S j) more
      else ((if (j =? 0)%nat then ARROW else IMPLEMENTS), parent)
           :: kt_without_super (S j) more
  end.

Definition kt_class_bases (raw : list str) : list (str * str) :=
  let raw_clean :=
    map (fun p =>
           ((if contains p (lit "(") && contains p (lit ")")
             then ARROW else IMPLEMENTS), _clean_base_name p)) raw in
  if existsb (fun rp => str_eqb rp.1 ARROW) raw_clean
  then kt_with_super false raw_clean
  else kt_without_super 0 raw_clean.

(** The child and the [(rel, parent)] pairs the second loop finds on a line;
    the child is empty when no pattern matched. *)
Definition line_bases (suffix line : str) (type_line_by_name : gmap (list N) Z)
    : str * list (str * str) :=
  if is_python suffix then
    match rmatch _RE_PY_INHERIT line with
    | Some m =>
        match List.filter truthy (cleaned_supertypes (grp m 2)) with
        | [] => (grp m 1, [])
        | b :: extra => (grp m 1, (ARROW, b) :: map (fun e => (PLUS, e)) extra)
        end
    | None => ([], [])
    end
  else if is_js_like suffix then
    let '(child, bases) :=
      match rmatch _RE_JS_INHERIT line with
      | Some m => (grp m 1, [(ARROW, _clean_base_name (grp m 2))])
      | None => ([], [])
      end in
    match rmatch _RE_TS_IMPLEMENTS line with
    | Some m =>
        (grp m 1, bases ++ tagged IMPLEMENTS (cleaned_supertypes (grp m 2)))
    | None => (child, bases)
    end
  else if str_eqb suffix (lit ".java") then
    let '(child, bases) :=
      match rmatch _RE_JAVA_INHERIT line with
      | Some m => (grp m 1, [(ARROW, _clean_base_name (grp m 2))])
      | None => ([], [])
      end in
    let '(child, bases) :=
      match rmatch _RE_JAVA_IMPLEMENTS line with
      | Some m =>
          (grp m 1, bases ++ tagged IMPLEMENTS (cleaned_supertypes (grp m 2)))
      | None => (child, bases)
      end in
    match rmatch _RE_JAVA_INTERFACE_EXTENDS line with
    | Some m =>
        (grp m 1, bases ++ tagged ARROW (cleaned_supertypes (grp m 2)))
    | None => (child, bases)
    end
  else if str_eqb suffix (lit ".kt") then
    match rmatch _RE_KT_SUPERTYPES line with
    | Some m =>
        let raw := _split_supertype_list (grp m 3) in
        if str_eqb (grp m 1) (lit "interface")
        then (grp m 2, tagged ARROW (map _clean_base_name raw))
        else (grp m 2, kt_class_bases raw)
    | None => ([], [])
    end
  else if str_eqb suffix (lit ".cs") then
    match rmatch _RE_CS_SUPERTYPES line with
    | Some m =>
        let raw := List.filter truthy (cleaned_supertypes (grp m 3)) in
        if str_eqb (grp m 1) (lit "interface")
        then (grp m 2, map (fun p => (ARROW, p)) raw)
        else if str_eqb (grp m 1) (lit "struct")
        then (grp m 2, map (fun p => (IMPLEMENTS, p)) raw)
        else match raw with
             | [] => (grp m 2, [])
             | b :: ifaces =>
                 (grp m 2,
                  (ARROW, b) :: map (fun p => (IMPLEMENTS, p)) ifaces)
             end
    | None => ([], [])
    end
  else if str_eqb suffix (lit ".rs") then
    match rmatch _RE_RS_IMPL_FOR line with
    | Some m =>
        let trait := _clean_base_name (grp m 1) in
        let impl_for := _clean_base_name (grp m 2) in
        if truthy impl_for && truthy trait
           && bool_decide (is_Some (type_line_by_name !! impl_for))
        then (impl_for, [(IMPLEMENTS, trait)])
        else ([], [])
    | None => ([], [])
    end
  else ([], []).

(** [for rel, parent in bases]: the edges so far and whether the cap was
    reached (the function then returns at once). *)
Fixpoint add_edges (child_ref : str) (bases : list (str * str))
    (type_line_by_name : gmap (list N) Z)
    (type_index : option (gmap (list N) (list (list N * Z))))
    (edges : list str) : list str * bool :=
  match bases with
  | [] => (edges, false)
  | (rel, parent) :: more =>
      if negb (truthy parent)
      then add_edges child_ref more type_line_by_name type_index edges
      else
        let parent_ref :=
          _resolve_type_ref parent type_line_by_name type_index in
        let edges := edges ++ [child_ref ++ rel ++ parent_ref] in
        if (MAX_INHERIT_EDGES <=? length edges)%nat then (edges, true)
        else add_edges child_ref more type_line_by_name type_index edges
  end.

Fixpoint inheritance_edges (suffix : str) (body_lines : list str) (idx : Z)
    (final_body_offset : Z) (type_line_by_name : gmap (list N) Z)
    (type_index : option (gmap (list N) (list (list N * Z))))
    (edges : list str) : list str :=
  match body_lines with
  | [] => edges
  | line :: more =>
      let '(child, bases) := line_bases suffix line type_line_by_name in
      if negb (truthy child) || match bases with [] => true | _ => false end
      then inheritance_edges suffix more (idx + 1)%Z final_body_offset
             type_line_by_name type_index edges
      else
        let child_ln := (final_body_offset + idx)%Z in
        let child_decl_ln := default child_ln (type_line_by_name !! child) in
        let child_ref := child ++ lit "@L" ++ dec child_decl_ln in
        let '(edges, stop) :=
          add_edges child_ref bases type_line_by_name type_index edges in
        if stop then edges
        else inheritance_edges suffix more (idx + 1)%Z final_body_offset
               type_line_by_name type_index edges
  end.

Definition _extract_inheritance (suffix : str) (body_lines : list str)
    (final_body_offset : Z)
    (type_index : option (gmap (list N) (list (list N * Z)))) : list str :=
  let type_line_by_name :=
    type_lines suffix body_lines 1 final_body_offset ∅ in
  inheritance_edges suffix body_lines 1 final_body_offset type_line_by_name
    type_index [].

(** *** Symbols *)

Inductive symkind := TypeSym | FuncSym | EntrySym.

Definition js_function (line : str) : option (symkind * list N) :=
  match rmatch _RE_JS_FN line with
  | Some m =>
      match first_group m 1 4 with
      | Some name => Some (FuncSym, name)
      | None => None
      end
  | None => None
  end.

(** What one iteration of the loop of [_extract_symbols] records for a line:
    at most one symbol, chosen by the first pattern of the language that
    matches. *)
Definition symbol_of_line (suffix line : str) : option (symkind * list N) :=
  if is_python suffix then
    match rmatch _RE_PY_CLASS line with
    | Some m => Some (TypeSym, grp m 1)
    | None =>
        match rmatch _RE_PY_DEF line with
        | Some m => Some (FuncSym, grp m 1)
        | None =>
            if startswith line (lit "if __name__")
               && contains line (lit "__main__")
            then Some (EntrySym, lit "__main__") else None
        end
    end
  else if is_js_like suffix then
    if is_ts suffix then
      match first_match ts_type_patterns line with
      | Some m => Some (TypeSym, grp m 1)
      | None => js_function line
      end
    else
      match rmatch _RE_JS_CLASS line with
      | Some m =>
          match first_group m 1 3 with
          | Some name => Some (TypeSym, name)
          | None => None
          end
      | None => js_function line
      end
  else if str_eqb suffix (lit ".go") then
    match rmatch _RE_GO_TYPE line with
    | Some m => Some (TypeSym, grp m 1)
    | None =>
        match rmatch _RE_GO_FUNC line with
        | Some m => Some (FuncSym, grp m 1)
        | None => None
        end
    end
  else if str_eqb suffix (lit ".rs") then
    match rmatch _RE_RS_ITEM line with
    | Some m => Some (TypeSym, grp m 2)
    | None =>
        match rmatch _RE_RS_FN line with
        | Some m => Some (FuncSym, grp m 1)
        | None => None
        end
    end
  else if is_java_kt suffix then
    match rmatch _RE_JAVA_TYPE line with
    | Some m => Some (TypeSym, grp m 2)
    | None => None
    end
  else if str_eqb suffix (lit ".cs") then
    match rmatch _RE_CS_TYPE line with
    | Some m => Some (TypeSym, grp m 1)
    | None => None
    end
  else
    match rmatch _RE_C_LIKE_FN line with
    | Some m => Some (FuncSym, grp m 1)
    | None => None
    end.

(** The lines longer than this are skipped as data. *)
Definition LONG_LINE : Z := 5000.

(** The pairs [(name, line)] of one kind, in file order; [idx] is the
    1-based index of the first line of [body_lines]. *)
Fixpoint scan_symbols (want : symkind) (suffix : str) (body_lines : list str)
    (idx final_body_offset : Z) : list (list N * Z) :=
  match body_lines with
  | [] => []
  | line :: more =>
      let rest := scan_symbols want suffix more (idx + 1)%Z final_body_offset in
      if (LONG_LINE <? len line)%Z then rest
      else
        match symbol_of_line suffix line, want with
        | Some (TypeSym, name), TypeSym
        | Some (FuncSym, name), FuncSym
        | Some (EntrySym, name), EntrySym =>
            (name, (final_body_offset + idx)%Z) :: rest
        | _, _ => rest
        end
  end.

(** The inner [fmt]: references deduplicated by name and capped. *)
Fixpoint fmt_from (pairs : list (list N * Z)) (limit : nat)
    (seen : gset (list N)) (out : list str) : list str :=
  match pairs with
  | [] => out
  | (name, ln) :: more =>
      if bool_decide (name ∈ seen) then fmt_from more limit seen out
      else
        let out := out ++ [name ++ lit "@L" ++ dec ln] in
        if (limit <=? length out)%nat then out
        else fmt_from more limit ({[ name ]} ∪ seen) out
  end.

Definition fmt (pairs : list (list N * Z)) (limit : nat) : list str :=
  fmt_from pairs limit ∅ [].

Definition _extract_symbols (suffix : str) (body_lines : list str)
    (final_body_offset : Z) : list str * list str * list str :=
  (fmt (scan_symbols TypeSym suffix body_lines 1 final_body_offset) 4,
   fmt (scan_symbols FuncSym suffix body_lines 1 final_body_offset) 6,
   fmt (scan_symbols EntrySym suffix body_lines 1 final_body_offset) 2).

(** The type name [_scan_type_pairs] records for a line, if any. *)
(* ---- model ---- *)
Definition type_pair_of_line (suffix line : str) : option str :=
  if is_python suffix then
    match rmatch _RE_PY_CLASS line with
    | Some m => Some (grp m 1)
    | None => None
    end
  else if is_js_like suffix then
    if is_ts suffix then
      match first_match ts_type_patterns line with
      | Some m => Some (grp m 1)
      | None => None
      end
    else
      match rmatch _RE_JS_CLASS line with
      | Some m => first_group m 1 3
      | None => None
      end
  else if str_eqb suffix (lit ".go") then
    match rmatch _RE_GO_TYPE line with
    | Some m => Some (grp m 1)
    | None => None
    end
  else if str_eqb suffix (lit ".rs") then
    match rmatch _RE_RS_ITEM line with
    | Some m => Some (grp m 2)
    | None => None
    end
  else if is_java_kt suffix then
    match rmatch _RE_JAVA_TYPE line with
    | Some m => Some (grp m 2)
    | None => None
    end
  else if str_eqb suffix (lit ".cs") then
    match rmatch _RE_CS_TYPE line with
    | Some m => Some (grp m 1)
    | None => None
    end
  else None.

(** [for idx, line in enumerate(body_lines, start=idx)] of
    [_scan_type_pairs]. *)
Fixpoint scan_type_pairs_from (suffix : str) (body_lines : list str)
    (idx final_body_offset : Z) : list (list N * Z) :=
  match body_lines with
  | [] => []
  | line :: more =>
      let out := scan_type_pairs_from suffix more (idx + 1)%Z final_body_offset in
      if (LONG_LINE <? len line)%Z then out
      else
        match type_pair_of_line suffix line with
        | Some name => (name, (final_body_offset + idx)%Z) :: out
        | None => out
        end
  end.

Definition _scan_type_pairs (suffix : str) (body_lines : list str)
    (final_body_offset : Z) : list (list N * Z) :=
  scan_type_pairs_from suffix body_lines 1 final_body_offset.

(** *** Rendering *)

(** [l[0]], [l[-1]] and [l[1:-1]]; the renderer only uses them on a list of
    [HEADER_LINES] fields. *)
Definition first_item (l : list str) : str := nth 0 l [].
Definition last_item (l : list str) : str := default [] (last l).
Definition middle (l : list str) : list str := drop 1 (but_last l).

(** The fields a block header is rendered from: cut to the first 19 and the
    last, or padded before the last, so that there are exactly 20. *)
Definition block_fields (fields : list str) : list str :=
  let fields :=
    if (HEADER_LINES <? length fields)%nat
    then take (HEADER_LINES - 1) fields ++ [last_item fields]
    else fields in
  if (length fields <? HEADER_LINES)%nat
  then but_last fields ++ replicate (HEADER_LINES - length fields) []
       ++ last_slice fields
  else fields.

Definition _render_header_lines (style : CommentStyle) (fields : list str)
    (max_width : Z) : list str :=
  match kind style with
  | Block =>
      let fields := block_fields fields in
      [block_start style ++ lit " " ++ _truncate (first_item fields) max_width]
      ++ map (fun f => block_line_prefix style ++ _truncate f max_width)
           (middle fields)
      ++ [block_line_prefix style ++ _truncate (last_item fields) max_width
          ++ lit " " ++ block_end style]
  | _ =>
      let rendered :=
        map (fun f => line_prefix style ++ _truncate f max_width) fields in
      let rendered :=
        if (HEADER_LINES <? length rendered)%nat
        then take HEADER_LINES rendered else rendered in
      rendered
      ++ replicate (HEADER_LINES - length rendered)
           (rstrip (line_prefix style))
  end.

(** *** annotate_file *)

(** The arguments of a call; [suffix] is [path.suffix.lower()], [relpath]
    is [_relpath_for_header(path, root)] and [today] is
    [date.today().isoformat()]. *)
Record request := {
  path : list N;
  suffix : list N;
  relpath : list N;
  today : list N;
  purpose : list N;
  index_hint : list N;
  max_width : Z;
  dry_run : bool;
  refresh : bool;
  type_index : option (gmap (list N) (list (list N * Z)))
}.

(** What a call that returns leaves behind: the returned flag and message,
    the text [new_raw] it computed (none for a skipped file) and the text it
    wrote to the file, if it wrote. *)
Record outcome := {
  changed : bool;
  message : list N;
  new_raw : option (list N);
  written : option (list N)
}.

(** The manual fields between [Entrypoints] and [Index], in header order. *)
Definition MANUAL_KEYS : list str :=
  [ lit "Public API"; lit "Inputs/Outputs"; lit "Core flow";
    lit "Dependencies"; lit "Error handling"; lit "Config/env";
    lit "Side effects"; lit "Performance"; lit "Security"; lit "Tests";
    lit "Known issues" ].

Definition keep_or_todo (existing_fields : gmap (list N) (list N))
    (key : str) : str :=
  match existing_fields !! key with
  | Some v => if _is_placeholder (Some v) then TODO else v
  | None => TODO
  end.

Definition final_purpose (rq : request)
    (existing_fields : gmap (list N) (list N)) (existing_doc_hint : str)
    : str :=
  if refresh rq then or_else (purpose rq) (or_else existing_doc_hint TODO)
  else if truthy (purpose rq) then purpose rq
  else
    let existing_purpose := existing_fields !! lit "Purpose" in
    if negb (_is_placeholder existing_purpose)
    then default [] existing_purpose
    else or_else existing_doc_hint TODO.

Definition manual_value (rq : request)
    (existing_fields : gmap (list N) (list N)) (key : str) : str :=
  if refresh rq then TODO else keep_or_todo existing_fields key.

Definition index_value (rq : request)
    (existing_fields : gmap (list N) (list N)) : str :=
  if refresh rq then or_else (index_hint rq) TODO
  else if truthy (index_hint rq) then index_hint rq
  else
    let existing_index := existing_fields !! lit "Index" in
    if negb (_is_placeholder existing_index)
    then default [] existing_index else TODO.

Definition last_update (rq : request)
    (existing_fields : gmap (list N) (list N)) : str :=
  if refresh rq then today rq
  else
    let existing_last_update := existing_fields !! lit "Last update" in
    if negb (_is_placeholder existing_last_update)
    then default [] existing_last_update else today rq.

(** [', '.join(l) if l else 'TODO'] *)
Definition joined_or_todo (l : list str) : str :=
  match l with [] => TODO | _ => join (lit ", ") l end.

Definition header_fields (rq : request)
    (existing_fields : gmap (list N) (list N)) (existing_doc_hint : str)
    (types funcs entrypoints inheritance : list str) : list str :=
  [ CODEX_MARKER ++ lit " | 20 lines | keep updated";
    lit "Path: " ++ relpath rq;
    lit "Purpose: "
      ++ or_else (final_purpose rq existing_fields existing_doc_hint) TODO;
    lit "Key types: " ++ joined_or_todo types;
    lit "Inheritance: " ++ joined_or_todo inheritance;
    lit "Key funcs: " ++ joined_or_todo funcs;
    lit "Entrypoints: " ++ joined_or_todo entrypoints ]
  ++ map (fun key => key ++ lit ": " ++ manual_value rq existing_fields key)
       MANUAL_KEYS
  ++ [ lit "Index: " ++ index_value rq existing_fields;
       lit "Last update: " ++ last_update rq existing_fields ].

(** [ln if ln.endswith("\n") else ln + "\n"] *)
Definition ensure_newline (ln : str) : str :=
  if endswith ln [NL] then ln else ln ++ [NL].

(** [new_lines] joined: prolog, header, remaining body. *)
Definition assemble (prolog header rest_wo_header : list str) : str :=
  concat (prolog ++ map ensure_newline header ++ rest_wo_header).

(** [header_fields[-1] = ...] *)
Definition set_last (l : list str) (x : str) : list str :=
  match l with [] => [] | _ => but_last l ++ [x] end.

(** [_parse_existing_header_fields(existing_header) if existing_header
    else {}] *)
Definition existing_fields_of (existing_header : option (list str))
    : gmap (list N) (list N) :=
  match existing_header with
  | Some (l :: h) => _parse_existing_header_fields (l :: h)
  | _ => ∅
  end.

(** The docstring hint, read from the lines after the prolog. *)
Definition doc_hint (rq : request) (rest : list str) : str :=
  if is_python (suffix rq) && negb (truthy (purpose rq))
  then default [] (_peek_py_module_docstring rest) else [].

(** [header_fields] as first computed by [annotate_file]. *)
Definition computed_fields (rq : request) (prolog rest : list str)
    (existing_header : option (list str)) (rest_wo_header : list str)
    : list str :=
  let existing_doc_hint := doc_hint rq rest in
  let existing_fields := existing_fields_of existing_header in
  let final_body_offset := (len prolog + Z.of_nat HEADER_LINES)%Z in
  let '(types, funcs, entrypoints) :=
    _extract_symbols (suffix rq) rest_wo_header final_body_offset in
  let inheritance :=
    _extract_inheritance (suffix rq) rest_wo_header final_body_offset
      (type_index rq) in
  header_fields rq existing_fields existing_doc_hint
    types funcs entrypoints inheritance.

(** The condition under which the date is bumped and the header rendered a
    second time. *)
Definition bumps (rq : request) (existing_header : option (list str))
    (new_raw raw : str) : bool :=
  negb (refresh rq)
  && match existing_header with Some (_ :: _) => true | _ => false end
  && negb (str_eqb new_raw raw)
  && negb (str_eqb (last_update rq (existing_fields_of existing_header))
             (today rq)).

Definition annotate_file (rq : request) (raw : str) : result outcome :=
  match _detect_comment_style (suffix rq) with
  | None =>
      Ok {| changed := false;
            message := lit "skip (unsupported): " ++ path rq;
            new_raw := None; written := None |}
  | Some style =>
      let lines := splitlines true raw in
      let '(prolog, rest) := _split_prolog lines (suffix rq) in
      match _split_existing_codex_header rest (path rq) with
      | ValueError msg => ValueError msg
      | Ok (existing_header, rest_wo_header, removed) =>
          let fields :=
            computed_fields rq prolog rest existing_header rest_wo_header in
          let header := _render_header_lines style fields (max_width rq) in
          let new_raw_1 := assemble prolog header rest_wo_header in
          let new_raw_2 :=
            if bumps rq existing_header new_raw_1 raw then
              assemble prolog
                (_render_header_lines style
                   (set_last fields (lit "Last update: " ++ today rq))
                   (max_width rq))
                rest_wo_header
            else new_raw_1 in
          if str_eqb new_raw_2 raw then
            Ok {| changed := false; message := lit "no-op: " ++ path rq;
                  new_raw := Some new_raw_2; written := None |}
          else
            Ok {| changed := true;
                  message := (if removed then lit "updated" else lit "inserted")
                             ++ lit ": " ++ path rq;
                  new_raw := Some new_raw_2;
                  written := if dry_run rq then None else Some new_raw_2 |}
      end
  end.


(** *** Type index *)

(** A file given to [_build_type_index]: its path, [path.suffix.lower()],
    the text [read_text] returns and [_relpath_for_header(path, root)]. *)
Record source := {
  src_path : list N;
  src_suffix : list N;
  src_raw : list N;
  src_relpath : list N
}.

(** [if name: index.setdefault(name, []).append((rel, ln))] *)
Definition index_add (rel : str)
    (index : gmap (list N) (list (list N * Z))) (pair : list N * Z)
    : gmap (list N) (list (list N * Z)) :=
  let '(name, ln) := pair in
  if truthy name
  then <[ name := default [] (index !! name) ++ [(rel, ln)] ]> index
  else index.

(** The body of the loop over the paths. *)
Definition index_file (index : gmap (list N) (list (list N * Z)))
    (f : source) : result (gmap (list N) (list (list N * Z))) :=
  match _detect_comment_style (src_suffix f) with
  | None => Ok index
  | Some _ =>
      let lines := splitlines true (src_raw f) in
      let '(prolog, rest) := _split_prolog lines (src_suffix f) in
      match _split_existing_codex_header rest (src_path f) with
      | ValueError msg => ValueError msg
      | Ok (_, rest_wo_header, _) =>
          let final_body_offset := (len prolog + Z.of_nat HEADER_LINES)%Z in
          let type_pairs :=
            _scan_type_pairs (src_suffix f) rest_wo_header final_body_offset in
          Ok (foldl (index_add (src_relpath f)) index type_pairs)
      end
  end.

Fixpoint build_type_index_from (paths : list source)
    (index : gmap (list N) (list (list N * Z)))
    : result (gmap (list N) (list (list N * Z))) :=
  match paths with
  | [] => Ok index
  | f :: more =>
      match index_file index f with
      | Ok index => build_type_index_from more index
      | ValueError msg => ValueError msg
      end
  end.

Definition _build_type_index (paths : list source)
    : result (gmap (list N) (list (list N * Z))) :=
  build_type_index_from paths ∅.

End annotate_code_headers.

(** ** scripts/check_incomplete_headers.py *)

Module check_incomplete_headers.
Import Py Re.

Definition CODEX_MARKER : str := lit "@codex-header: v1".
Definition HEADER_LINES : nat := 20.

Definition KEY_FUNCS : str := lit "Key funcs:".
Definition ENTRYPOINTS : str := lit "Entrypoints:".

Definition AUTO_POPULATED_FIELDS : list str := [KEY_FUNCS; ENTRYPOINTS].

Definition _RE_CODING_COOKIE : re :=
  Eval vm_compute in compile "^#.*coding[:=]\s*[-\w.]+".
Definition _RE_PY_DEF : re :=
  Eval vm_compute in compile "^\s*def\s+([A-Za-z_]\w*)\s*\(".
Definition _RE_JS_FN : re :=
  Eval vm_compute in compile
    "^\s*export\s+function\s+([A-Za-z_$][\w$]*)\s*\(|^\s*function\s+([A-Za-z_$][\w$]*)\s*\(|^\s*export\s+const\s+([A-Za-z_$][\w$]*)\s*=\s*\(|^\s*const\s+([A-Za-z_$][\w$]*)\s*=\s*\(".
Definition _RE_GO_FUNC : re :=
  Eval vm_compute in compile
    "^\s*func\s+\(?[A-Za-z_*\w]*\)?\s*([A-Za-z_]\w*)\s*\(".
Definition _RE_RS_FN : re :=
  Eval vm_compute in compile "^\s*(?:pub\s+)?fn\s+([A-Za-z_]\w*)\s*\(".

(** The number of prolog lines the checker skips: a shebang, then an
    encoding cookie. *)
Definition prolog_length (lines : list str) : nat :=
  let i := match lines with
           | l :: _ => if startswith l (lit "#!") then 1%nat else 0%nat
           | [] => 0%nat
           end in
  match lines !! i with
  | Some l => if matches _RE_CODING_COOKIE l then S i else i
  | None => i
  end.

Definition _extract_header_lines (lines : list str) : list str :=
  let i := prolog_length lines in
  let scan_end := Nat.min (i + HEADER_LINES) (length lines) in
  let scan_text := concat (take (scan_end - i) (drop i lines)) in
  if negb (contains scan_text CODEX_MARKER) then []
  else
    let header_start := i in
    let header_end := Nat.min (header_start + HEADER_LINES) (length lines) in
    take (header_end - header_start) (drop header_start lines).

Inductive style := LineStyle | BlockStyle | HtmlStyle.

Definition _strip_comment_prefix (line : str) (st : style) : str :=
  let line := rstrip line in
  match st with
  | LineStyle =>
      if startswith line (lit "#")
      then lstrip (lstrip_chars (lit "#") line) else line
  | BlockStyle =>
      lstrip (lstrip_chars (lit "*")
                (remove_all (lit "*/") (remove_all (lit "/*") line)))
  | HtmlStyle => lstrip line
  end.

Definition _detect_comment_style (line : str) : style :=
  let line := strip line in
  if startswith line (lit "#") then LineStyle
  else if startswith line (lit "/*") then BlockStyle
  else if startswith line (lit "<!--") then HtmlStyle
  else if startswith line (lit "--") then LineStyle
  else LineStyle.

Definition in_suffixes (suffix : str) (l : list string) : bool :=
  mem suffix (map lit l).

(** Whether a body line counts as a function definition for the suffix. *)
Definition function_line (suffix line : str) : bool :=
  if (5000 <? len line)%Z then false
  else if in_suffixes suffix [".py"; ".pyi"]%string then matches _RE_PY_DEF line
  else if in_suffixes suffix [".js"; ".jsx"; ".ts"; ".tsx"]%string
  then matches _RE_JS_FN line
  else if str_eqb suffix (lit ".go") then matches _RE_GO_FUNC line
  else if str_eqb suffix (lit ".rs") then matches _RE_RS_FN line
  else if in_suffixes suffix [".java"; ".kt"]%string
  then contains line (lit "def ") && negb (contains line (lit "void"))
  else false.

(** [content] is what [path.read_text] returns, [None] when it raises. *)
Definition _has_functions (content : option str) (suffix : str) : bool :=
  match content with
  | None => false
  | Some content =>
      let lines := splitlines false content in
      let header_start := prolog_length lines in
      let header_end :=
        Nat.min (header_start + HEADER_LINES) (length lines) in
      let body_lines := drop header_end lines in
      existsb (function_line suffix) body_lines
  end.

Definition _has_entrypoint (content : option str) (suffix : str) : bool :=
  match content with
  | None => false
  | Some content =>
      if in_suffixes suffix [".py"; ".pyi"]%string
      then contains content (lit "__main__")
      else if in_suffixes suffix [".js"; ".jsx"; ".ts"; ".tsx"]%string
      then contains content (lit "export default")
           || contains content (lit "export {")
      else if str_eqb suffix (lit ".rs") then contains content (lit "fn main()")
      else if str_eqb suffix (lit ".go")
      then contains content (lit "func main()")
      else false
  end.

Definition NO_VALID_HEADER : str := lit "No valid header found".

(** The body of [for line in header_lines]: the cleaned line when it is
    reported, nothing otherwise. *)
Definition incomplete_field (content : option str) (suffix : str) (st : style)
    (line : str) : list str :=
  let clean_line := _strip_comment_prefix line st in
  match List.find (startswith clean_line) AUTO_POPULATED_FIELDS with
  | Some field =>
      let value := strip (drop (length field) clean_line) in
      if str_eqb value (lit "TODO") || contains value (lit "TODO") then
        if str_eqb field KEY_FUNCS then
          if _has_functions content suffix then [clean_line] else []
        else if str_eqb field ENTRYPOINTS then
          if _has_entrypoint content suffix then [clean_line] else []
        else []
      else []
  | None => []
  end.

Definition _check_header_incomplete (header_lines : list str)
    (content : option str) (suffix : str) : bool * list str :=
  if (length header_lines <? HEADER_LINES)%nat then (true, [NO_VALID_HEADER])
  else
    let st := _detect_comment_style (nth 0 header_lines []) in
    let incomplete_fields :=
      flat_map (incomplete_field content suffix st) header_lines in
    ((0 <? length incomplete_fields)%nat, incomplete_fields).

(** A file named on the command line, after directories are expanded:
    [is_file] is [path.exists() and path.is_file()], [content] the text
    [read_text] returns ([None] when it raises) and [rel_path] the path
    relative to the root ([None] when [relative_to] raises). *)
Record file := {
  is_file : bool;
  suffix : list N;
  content : option (list N);
  rel_path : option (list N)
}.

(** One iteration of the loop of [main]: the entry appended to
    [incomplete_files], if any. *)
Definition check_file (f : file) : option (list N * list (list N)) :=
  if negb (is_file f) then None
  else
    match content f with
    | None => None
    | Some text =>
        let lines := splitlines false text in
        match _extract_header_lines lines with
        | [] => None
        | header =>
            let '(is_incomplete, issues) :=
              _check_header_incomplete header (content f) (suffix f) in
            if is_incomplete then
              match rel_path f with
              | Some rel => Some (rel, issues)
              | None => None
              end
            else None
        end
    end.

Definition incomplete_files (files : list file)
    : list (list N * list (list N)) :=
  omap check_file files.

(** The exit status of [main]. *)
Definition main (files : list file) : Z :=
  match incomplete_files files with
  | [] => 0%Z
  | _ => 1%Z
  end.

End check_incomplete_headers.

(** ** Vocabulary of the statements *)

Module Spec.
Import Py Re annotate_code_headers.

(** The class [\s]. *)
Definition WS : re := Cls false [CSpace].

(** Each maximal run of whitespace becomes one space; [in_run] tells that
    the previous character was whitespace. *)
Fixpoint collapse_from (in_run : bool) (s : str) : str :=
  match s with
  | [] => []
  | c :: r =>
      if isspace c
      then if in_run then collapse_from true r
           else SPACE :: collapse_from true r
      else c :: collapse_from false r
  end.

Definition collapse_ws (s : str) : str := collapse_from false s.

(** The value as the renderer sees it: stripped, whitespace runs collapsed. *)
Definition normalized (s : str) : str := collapse_ws (strip s).

Definition no_space (s : str) : Prop := Forall (fun c => isspace c = false) s.

Definition no_linebreak (s : str) : Prop :=
  Forall (fun c => is_linebreak c = false) s.

(** The sentinel marker occurs in the text of the first 60 lines. *)
Definition marker_in_scan (rest : list str) : bool :=
  contains (concat (take 60 rest)) CODEX_MARKER.

(** The sentinel marker occurs in one of the first 20 lines. *)
Definition marker_in_header (rest : list str) : bool :=
  existsb (fun ln => contains ln CODEX_MARKER) (take HEADER_LINES rest).

(** What a loop state of [_split_prolog] stands for: the prolog so far
    followed by the lines not yet consumed. *)
Definition unread (lines : list str) (st : pstate) : list str :=
  st.1 ++ drop st.2 lines.

(** [result] is [lines] with a blank line synthesized after a block of build
    tags that no blank line follows. *)
Definition synthesized (lines result : list str) : Prop :=
  exists pre post tag,
    lines = pre ++ post
    /\ result = pre ++ [[NL]] ++ post
    /\ last pre = Some tag /\ is_go_build_tag tag = true
    /\ forall l, head post = Some l -> is_blank l = false.

(** The prefixes of a style contain no line break. *)
Definition style_one_line (style : CommentStyle) : Prop :=
  no_linebreak (line_prefix style) /\ no_linebreak (block_start style)
  /\ no_linebreak (block_line_prefix style) /\ no_linebreak (block_end style).


(** The fields the header is finally rendered from: the computed fields,
    with today's date when the date is bumped. *)
Definition final_fields (rq : request) (raw : list N) (style : CommentStyle)
    (prolog rest : list (list N)) (existing_header : option (list (list N)))
    (rest_wo_header : list (list N)) : list (list N) :=
  let fields :=
    computed_fields rq prolog rest existing_header rest_wo_header in
  if bumps rq existing_header
       (assemble prolog (_render_header_lines style fields (max_width rq))
          rest_wo_header) raw
  then set_last fields (lit "Last update: " ++ today rq)
  else fields.

(** The prefix of the lines between the first and the last of a header. *)
Definition inner_prefix (style : CommentStyle) : list N :=
  match kind style with
  | Block => block_line_prefix style
  | _ => line_prefix style
  end.

(* ---- Spec ---- *)
Definition ref_of (p : list N * Z) : list N := p.1 ++ lit "@L" ++ dec p.2.

Definition symbols_of (k : symkind) (r : list (list N) * list (list N) * list (list N))
    : list (list N) :=
  match k with
  | TypeSym => r.1.1
  | FuncSym => r.1.2
  | EntrySym => r.2
  end.

(* ---- Spec ---- *)
(** The first field of every header. *)
Definition marker_field : list N :=
  CODEX_MARKER ++ lit " | 20 lines | keep updated".

(* ---- Spec ---- *)
(** What follows the value on the last line of a header. *)
Definition closing (style : CommentStyle) : list N :=
  match kind style with
  | Block => lit " " ++ block_end style
  | _ => []
  end.

(* ---- Spec ---- *)
(** The text has the two markers of an index. *)
Definition has_index (existing : option (list N)) : bool :=
  match existing with
  | Some c => contains c marker_start && contains c marker_end
  | None => false
  end.

(** The template up to the heading of the file structure section. *)
Definition TEMPLATE_HEAD : list N := take 1027 AGENTS_MD_TEMPLATE.

(** The error [_split_existing_codex_header] raises on a supported file, if
    it raises. *)
Definition header_error (f : source) : option (list N) :=
  match _detect_comment_style (src_suffix f) with
  | None => None
  | Some _ =>
      match _split_existing_codex_header
              (_split_prolog (splitlines true (src_raw f)) (src_suffix f)).2
              (src_path f) with
      | ValueError msg => Some msg
      | Ok _ => None
      end
  end.

(** The type declarations [_build_type_index] reads in a file: none for an
    unsupported file. *)
Definition indexed_pairs (f : source) : list (list N * Z) :=
  match _detect_comment_style (src_suffix f) with
  | None => []
  | Some _ =>
      let '(prolog, rest) :=
        _split_prolog (splitlines true (src_raw f)) (src_suffix f) in
      match _split_existing_codex_header rest (src_path f) with
      | ValueError _ => []
      | Ok (_, rest_wo_header, _) =>
          _scan_type_pairs (src_suffix f) rest_wo_header
            (len prolog + Z.of_nat HEADER_LINES)
      end
  end.

Definition CLOSER : re :=
  Alt (Seq (Chr 42) (Chr 47)) (Seq (Chr 45) (Seq (Chr 45) (Chr 62))).

Definition OPENER : re :=
  Alt (Alt (Seq (Chr 47) (Seq (Chr 42) (Star (Chr 42))))
           (Seq (Chr 60) (Seq (Chr 33) (Seq (Chr 45) (Chr 45)))))
      Eps.
Definition STARS : re :=
  Alt (Seq (Seq (Chr 42) (Star (Chr 42))) (Star WS)) Eps.
Definition MARK : re :=
  Alt (Alt (Chr 35) (Alt (Seq (Chr 47) (Chr 47)) (Seq (Chr 45) (Chr 45))))
      Eps.

(** The comment prefixes of the styles of the table, as they stand before
    a field. *)
Definition field_prefixes : list (list N) :=
  [lit "# "; lit "-- "; lit " * "; lit "  "].

(** What the table of field names guarantees for each prefix [p]. *)
Definition field_prefix_ok (p : list N) : Prop :=
  (exists c k, p = c :: k /\ in_range 65 90 c = true)
  /\ but_last p ++ lit ":" = p
  /\ (forall v, matching_prefix (p ++ 32 :: v) = Some p)
  /\ (forall v, collapse_from false (p ++ 32 :: v)
                = p ++ 32 :: collapse_from true v).

(* ---- Spec ---- *)
(** The relation signs of an inheritance edge. *)
Definition RELATIONS : list (list N) := [ARROW; PLUS; IMPLEMENTS].

(** An inheritance edge: child reference, relation, parent reference. *)
Definition edge_shaped (tl : gmap (list N) Z)
    (ti : option (gmap (list N) (list (list N * Z)))) (e : list N) : Prop :=
  exists child n rel parent,
    e = (child ++ lit "@L" ++ dec n) ++ rel
        ++ _resolve_type_ref parent tl ti
    /\ child <> [] /\ parent <> [] /\ rel ∈ RELATIONS.

End Spec.

(** ** Files used in the examples *)

Module Fixtures.
Import Py Re annotate_code_headers.

(** A text made of newline-terminated lines. *)
Definition text (ls : list string) : list N :=
  concat (map (fun l => lit l ++ [NL]) ls).

(** A call on 2026-11-03 with the default width and no override. *)
Definition call (name sfx : string) (refresh_mode : bool) : request :=
  {| path := lit name; suffix := lit sfx; relpath := lit name;
     today := lit "2026-11-03"; purpose := []; index_hint := [];
     max_width := DEFAULT_MAX_WIDTH; dry_run := false;
     refresh := refresh_mode; type_index := None |}.

(** An annotated [a.py] whose Public API field holds [public_api]. *)
Definition annotated_py (public_api : string) : list string :=
  [ "# @codex-header: v1 | 20 lines | keep updated"; "# Path: a.py";
    "# Purpose: TODO"; "# Key types: TODO"; "# Inheritance: TODO";
    "# Key funcs: TODO"; "# Entrypoints: TODO";
    ("# Public API: " ++ public_api)%string;
    "# Inputs/Outputs: TODO"; "# Core flow: TODO"; "# Dependencies: TODO";
    "# Error handling: TODO"; "# Config/env: TODO"; "# Side effects: TODO";
    "# Performance: TODO"; "# Security: TODO"; "# Tests: TODO";
    "# Known issues: TODO"; "# Index: TODO"; "# Last update: 2026-11-03";
    "x = 1" ].

(** Five classes, the fifth one new. *)
Definition five_classes : list string :=
  [ "class A:"; "class B:"; "class C:"; "class D:"; "class E:" ].


(** A Python script with a shebang and an encoding cookie. *)
Definition python_script : list string :=
  [ "#!/usr/bin/env python"; "# -*- coding: utf-8 -*-"; "x = 1" ].

(** A Python module whose docstring ends in a comment-closing token. *)
Definition docstring_module : list N :=
  TRIPLE_DQ ++ lit "Strip trailing */" ++ TRIPLE_DQ ++ [NL].

(** The lines of a text, for reading the result of a call. *)
Definition output_lines (r : result outcome) : list (list N) :=
  match r with
  | Ok o => splitlines true (default [] (new_raw o))
  | ValueError _ => []
  end.

(** The files of [tests/test_preserve_manual_fields.py]; the purpose and the
    Public API value of the first one are written in Chinese. *)
Definition alarm_purpose : list N :=
  lit "React "
  ++ [0x7ec4; 0x4ef6; 0x6a21; 0x5757; 0xff08; 0x9ed8; 0x8ba4; 0x5bfc; 0x51fa;
      0xff09; 0xff1a]
  ++ lit "AlarmMessageList".

Definition alarm_public_api : list N := [0x5df2; 0x5b8c; 0x6210].

Definition alarm_tsx : list N :=
  text [ "/* @codex-header: v1 | 20 lines | keep updated";
         " * Path: src/components/AlarmMessageList.tsx" ]
  ++ lit " * Purpose: " ++ alarm_purpose ++ [NL]
  ++ text [ " * Key types: TODO"; " * Inheritance: TODO";
            " * Key funcs: TODO"; " * Entrypoints: TODO" ]
  ++ lit " * Public API: " ++ alarm_public_api ++ [NL]
  ++ text [ " * Inputs/Outputs: TODO"; " * Core flow: TODO";
            " * Dependencies: TODO"; " * Error handling: TODO";
            " * Config/env: TODO"; " * Side effects: TODO";
            " * Performance: TODO"; " * Security: TODO"; " * Tests: TODO";
            " * Known issues: TODO"; " * Index: TODO";
            " * Last update: 2026-01-01 */"; EmptyString;
            "export const AlarmMessageList = () => null;";
            "export default AlarmMessageList;"; EmptyString ].

Definition keepme_ts : list N :=
  text [ "/* @codex-header: v1 | 20 lines | keep updated";
         " * Path: file.ts"; " * Purpose: KeepMe"; " * Key types: TODO";
         " * Inheritance: TODO"; " * Key funcs: TODO"; " * Entrypoints: TODO";
         " * Public API: KeepMe"; " * Inputs/Outputs: KeepMe";
         " * Core flow: KeepMe"; " * Dependencies: KeepMe";
         " * Error handling: KeepMe"; " * Config/env: KeepMe";
         " * Side effects: KeepMe"; " * Performance: KeepMe";
         " * Security: KeepMe"; " * Tests: KeepMe"; " * Known issues: KeepMe";
         " * Index: KeepMe"; " * Last update: 2026-01-01 */"; EmptyString;
         "export const x = 1;"; EmptyString ].

(** The text a call wrote to the file, empty when it did not write. *)
Definition updated (r : result outcome) : list N :=
  match r with
  | Ok o => default [] (written o)
  | ValueError _ => []
  end.

Definition did_change (r : result outcome) : bool :=
  match r with
  | Ok o => changed o
  | ValueError _ => false
  end.

(** A file given to the checker, found under the root as [name]. *)
Definition checked (name sfx : string) (content : list N)
    : check_incomplete_headers.file :=
  {| check_incomplete_headers.is_file := true;
     check_incomplete_headers.suffix := lit sfx;
     check_incomplete_headers.content := Some content;
     check_incomplete_headers.rel_path := Some (lit name) |}.

(** An annotated Python file whose Key funcs field is unfilled although it
    defines a function. *)
Definition unfilled_funcs : check_incomplete_headers.file :=
  checked "a.py" ".py" (text (annotated_py "TODO" ++ ["def f():"; "    pass"])).

(** A file that holds nothing but the marker line. *)
Definition marker_only : check_incomplete_headers.file :=
  checked "a.py" ".py" (text ["# @codex-header: v1 | 20 lines | keep updated"]).

(** A Rust file with a trait implementation. *)
Definition rust_impl : list (list N) :=
  splitlines true
    (text ["struct Foo;"; "impl Display for Foo {"; "}"]).

(** A TypeScript file with a filled header in block style, an unfilled
    Key funcs field and a function. *)
Definition annotated_ts : list string :=
  [ "/* @codex-header: v1 | 20 lines | keep updated"; " * Path: a.ts";
    " * Purpose: TODO"; " * Key types: TODO"; " * Inheritance: TODO";
    " * Key funcs: TODO"; " * Entrypoints: TODO"; " * Public API: TODO";
    " * Inputs/Outputs: TODO"; " * Core flow: TODO"; " * Dependencies: TODO";
    " * Error handling: TODO"; " * Config/env: TODO"; " * Side effects: TODO";
    " * Performance: TODO"; " * Security: TODO"; " * Tests: TODO";
    " * Known issues: TODO"; " * Index: TODO";
    " * Last update: 2026-11-03 */";
    "export function f() {}" ].

(** Two annotated files for the index of [AGENTS.md]. *)
Definition two_annotated : list annotated :=
  [ {| a_path := lit "src/b.py"; a_purpose := lit "Second";
       a_types := lit "B@L21"; a_funcs := TODO; a_relpath := lit "src/b.py" |};
    {| a_path := lit "src/a.py"; a_purpose := [];
       a_types := TODO; a_funcs := TODO; a_relpath := lit "src/a.py" |} ].

(** An [AGENTS.md] written by hand around an index. *)
Definition agents_md_with_index : list N :=
  text ["# Notes"; "<!-- CODEX_HEADER_INDEX_START -->"; "| old row |";
        "<!-- CODEX_HEADER_INDEX_END -->"; "Kept by hand."].

(** Two Python files for the type index, and one with a misplaced marker. *)
Definition indexed (name : string) (lines : list string) : source :=
  {| src_path := lit name; src_suffix := lit ".py"; src_raw := text lines;
     src_relpath := lit name |}.

Definition base_py : source := indexed "base.py" ["class Base:"; "    pass"].

Definition misplaced_py : source :=
  indexed "bad.py"
    (repeat "x = 1"%string 25 ++ ["# @codex-header: v1"]%list).

(** A Go file that opens with a build tag. *)
Definition go_tagged : list (list N) :=
  splitlines true (text ["//go:build linux"; "package main"]).

End Fixtures.

Module CH := check_incomplete_headers.

(** * Properties *)

Import Py Re annotate_code_headers Spec Fixtures.

(** ** Strings *)

Lemma str_eqb_eq (a b : list N) : str_eqb a b = true <-> a = b.
Proof.
  revert b. induction a as [|x a IH]; intros [|y b]; simpl; try easy.
  rewrite andb_true_iff, N.eqb_eq, IH. split.
  - intros [-> ->]; reflexivity.
  - intros [= -> ->]; auto.
Qed.

Lemma str_eqb_refl (a : list N) : str_eqb a a = true.
Proof. apply str_eqb_eq; reflexivity. Qed.

Lemma str_eqb_neq (a b : list N) : str_eqb a b = false <-> a <> b.
Proof.
  rewrite <- str_eqb_eq. destruct (str_eqb a b); split; congruence.
Qed.

Lemma startswith_app (p t : list N) : startswith (p ++ t) p = true.
Proof.
  induction p as [|x p IH]; simpl; [reflexivity|].
  rewrite N.eqb_refl; exact IH.
Qed.

Lemma startswith_inv (s p : list N) :
  startswith s p = true -> exists t, s = p ++ t.
Proof.
  revert s. induction p as [|x p IH]; intros s H; simpl in *.
  - exists s; reflexivity.
  - destruct s as [|y s]; [discriminate|].
    apply andb_true_iff in H as [Hxy H]. apply N.eqb_eq in Hxy; subst y.
    destruct (IH _ H) as [t ->]. exists t; reflexivity.
Qed.

Lemma contains_startswith (s sub : list N) :
  startswith s sub = true -> contains s sub = true.
Proof. intros H. destruct s; simpl; rewrite H; reflexivity. Qed.

Lemma contains_app (a sub b : list N) : contains (a ++ sub ++ b) sub = true.
Proof.
  induction a as [|x a IH]; simpl.
  - apply contains_startswith, startswith_app.
  - rewrite IH. apply orb_true_r.
Qed.


Lemma contains_inv (s sub : list N) :
  contains s sub = true -> exists a b, s = a ++ sub ++ b.
Proof.
  induction s as [|x s IH]; simpl; intros H.
  - rewrite orb_false_r in H. apply startswith_inv in H as [t Ht].
    exists [], t; exact Ht.
  - apply orb_true_iff in H as [H|H].
    + apply startswith_inv in H as [t Ht]. exists [], t; exact Ht.
    + destruct (IH H) as (a & b & ->). exists (x :: a), b; reflexivity.
Qed.

Lemma lstrip_by_length (p : N -> bool) (s : list N) :
  (length (lstrip_by p s) <= length s)%nat.
Proof.
  induction s as [|c s IH]; simpl; [lia|].
  destruct (p c); simpl; lia.
Qed.

Lemma rstrip_by_length (p : N -> bool) (s : list N) :
  (length (rstrip_by p s) <= length s)%nat.
Proof.
  unfold rstrip_by. rewrite length_rev.
  etransitivity; [apply lstrip_by_length|]. rewrite length_rev; lia.
Qed.

Lemma lstrip_by_Forall (P : N -> Prop) (p : N -> bool) (s : list N) :
  Forall P s -> Forall P (lstrip_by p s).
Proof.
  induction 1 as [|c s Hc Hs IH]; simpl; [constructor|].
  destruct (p c); [exact IH | constructor; assumption].
Qed.

Lemma rstrip_by_Forall (P : N -> Prop) (p : N -> bool) (s : list N) :
  Forall P s -> Forall P (rstrip_by p s).
Proof.
  intros H. unfold rstrip_by.
  apply Forall_rev, lstrip_by_Forall, Forall_rev, H.
Qed.

Lemma lstrip_by_head (p : N -> bool) (c : N) (s : list N) :
  p c = false -> lstrip_by p (c :: s) = c :: s.
Proof. intros H; simpl; rewrite H; reflexivity. Qed.

(** Stripping on the right leaves a text that ends in a kept character. *)
Lemma rstrip_by_last (p : N -> bool) (s : list N) (c : N) :
  last s = Some c -> p c = false -> rstrip_by p s = s.
Proof.
  intros Hl Hc. unfold rstrip_by.
  destruct (decide (s = [])) as [->|Hne]; [reflexivity|].
  destruct (exists_last Hne) as (s' & x & ->).
  rewrite last_snoc in Hl. injection Hl as ->.
  rewrite rev_unit, lstrip_by_head by exact Hc.
  rewrite <- rev_unit. apply rev_involutive.
Qed.

Lemma lstrip_by_id (p : N -> bool) (s : list N) :
  Forall (fun c => p c = false) s -> lstrip_by p s = s.
Proof.
  intros H. destruct H as [|c s Hc _]; [reflexivity|].
  apply lstrip_by_head, Hc.
Qed.

Lemma rstrip_by_id (p : N -> bool) (s : list N) :
  Forall (fun c => p c = false) s -> rstrip_by p s = s.
Proof.
  intros H. unfold rstrip_by.
  rewrite lstrip_by_id by (apply Forall_rev, H). apply rev_involutive.
Qed.

Lemma len_nonneg {A} (l : list A) : (0 <= len l)%Z.
Proof. unfold len; lia. Qed.

Lemma slice_to_length {A} (l : list A) (k : Z) :
  (0 <= k)%Z -> (len (slice_to l k) <= k)%Z.
Proof.
  intros Hk. unfold slice_to, len.
  destruct (0 <=? k)%Z eqn:E; [|lia].
  rewrite length_take. lia.
Qed.

(** Line breaks are whitespace. *)
Lemma linebreak_isspace (c : N) : is_linebreak c = true -> isspace c = true.
Proof.
  unfold is_linebreak, isspace, linebreak_ranges, whitespace_ranges.
  simpl. unfold in_range.
  rewrite !orb_true_iff, !andb_true_iff, !N.leb_le. lia.
Qed.

(** ** The matcher *)

(** All the patterns of the scripts are read. *)
Lemma patterns_read :
  Forall (fun r => r <> never)
    [ _RE_WHITESPACE; _RE_CODING_COOKIE; _RE_HEADER_PREFIX; _RE_HEADER_SUFFIX;
      _RE_GENERIC_OR_CALL; _RE_PY_DEF; _RE_PY_CLASS; _RE_PY_INHERIT;
      _RE_JS_CLASS; _RE_JS_INHERIT; _RE_TS_CLASS; _RE_TS_INTERFACE;
      _RE_TS_ENUM; _RE_TS_TYPE_ALIAS; _RE_TS_IMPLEMENTS; _RE_JS_FN;
      _RE_GO_TYPE; _RE_GO_FUNC; _RE_RS_ITEM; _RE_RS_FN; _RE_RS_IMPL_FOR;
      _RE_JAVA_TYPE; _RE_JAVA_INHERIT; _RE_JAVA_IMPLEMENTS;
      _RE_JAVA_INTERFACE_EXTENDS; _RE_CS_INHERIT; _RE_CS_SUPERTYPES;
      _RE_KT_INHERIT; _RE_KT_SUPERTYPES; _RE_C_LIKE_FN; _RE_CS_TYPE;
      CH._RE_CODING_COOKIE; CH._RE_PY_DEF; CH._RE_JS_FN; CH._RE_GO_FUNC;
      CH._RE_RS_FN ].
Proof. repeat (constructor; [discriminate|]). constructor. Qed.

(** The matcher answers only what its continuation answers. *)
Lemma run_answer {A} (r : re) :
  forall (prev : option N) (inp : list N) (cs : caps)
         (k : option N -> list N -> caps -> option A) (x : A),
    run r prev inp cs k = Some x -> exists p i c, k p i c = Some x.
Proof.
  induction r as [| c | | neg items | | | | a IHa b IHb | a IHa b IHb
                 | a IHa | n a IHa]; intros prev inp cs k x; cbn [run].
  - eauto.
  - destruct inp as [|y t]; [discriminate|]. destruct (y =? c); [eauto|discriminate].
  - destruct inp as [|y t]; [discriminate|]. destruct (y =? NL); [discriminate|eauto].
  - destruct inp as [|y t]; [discriminate|].
    destruct (cls_matches neg items y); [eauto|discriminate].
  - destruct prev; [discriminate|eauto].
  - destruct inp as [|y [|z t]]; [eauto| |discriminate].
    destruct (y =? NL); [eauto|discriminate].
  - destruct (xorb _ _); [eauto|discriminate].
  - intros H. apply IHa in H as (p & i & c & H). apply IHb in H. exact H.
  - destruct (run a prev inp cs k) eqn:E.
    + intros [= ->]. apply IHa in E. exact E.
    + apply IHb.
  - generalize (S (length inp)). intros fuel. revert prev inp cs.
    induction fuel as [|fuel IHf]; intros prev inp cs; cbn [star_loop];
      [eauto|].
    match goal with
    | |- context [run a prev inp cs ?k'] =>
        destruct (run a prev inp cs k') eqn:E
    end; [|eauto].
    intros [= ->]. apply IHa in E as (p & i & c & E).
    destruct (length i <? length inp)%nat; [|discriminate].
    apply IHf in E. exact E.
  - intros H. apply IHa in H as (p & i & c & H). eauto.
Qed.

(** A match found by [sub_from] leaves a shorter text. *)
Lemma sub_round (r : re) (prev : option N) (inp : list N) (p : option N)
    (i : list N) :
  run r prev inp []
    (fun p i _ => if (length i <? length inp)%nat then Some (p, i) else None)
  = Some (p, i) ->
  (length i < length inp)%nat.
Proof.
  intros H. apply run_answer in H as (q & j & c & H).
  destruct (length j <? length inp)%nat eqn:E; [|discriminate].
  injection H as <- <-. apply Nat.ltb_lt, E.
Qed.

(** Any [fuel] above the length of the text gives the same substitution. *)
Lemma sub_from_fuel (r : re) (repl : list N) (f1 : nat) :
  forall (f2 : nat) (prev : option N) (inp : list N),
    (length inp < f1)%nat -> (length inp < f2)%nat ->
    sub_from r repl f1 prev inp = sub_from r repl f2 prev inp.
Proof.
  induction f1 as [|f1 IH]; intros f2 prev inp H1 H2; [lia|].
  destruct f2 as [|f2]; [lia|]. cbn [sub_from].
  destruct (run r prev inp [] _) as [[p i]|] eqn:E.
  - apply sub_round in E. f_equal. apply IH; lia.
  - destruct inp as [|c t]; [reflexivity|]. cbn [length] in *.
    f_equal. apply IH; lia.
Qed.

(** Any [fuel] above the length of the text gives all the pieces of a split
    at a non-empty separator. *)
Lemma find_bound (s sub : list N) (i : nat) :
  find s sub = Some i -> (i + length sub <= length s)%nat.
Proof.
  revert i. induction s as [|c s IH]; intros i; cbn [find].
  - destruct (startswith [] sub) eqn:E; [|discriminate].
    intros [= <-]. destruct sub; [simpl; lia | discriminate].
  - destruct (startswith (c :: s) sub) eqn:E.
    + intros [= <-]. apply startswith_inv in E as (t & E).
      rewrite E, length_app. lia.
    + destruct (find s sub) as [j|] eqn:Ej; [|discriminate].
      intros [= <-]. specialize (IH _ eq_refl). cbn [length]. lia.
Qed.

Lemma split_fuel_enough (sep : list N) (f1 : nat) :
  sep <> [] ->
  forall (f2 : nat) (s : list N),
    (length s < f1)%nat -> (length s < f2)%nat ->
    split_fuel f1 sep s = split_fuel f2 sep s.
Proof.
  intros Hsep. induction f1 as [|f1 IH]; intros f2 s H1 H2; [lia|].
  destruct f2 as [|f2]; [lia|]. cbn [split_fuel].
  destruct (find s sep) as [i|] eqn:E; [|reflexivity].
  apply find_bound in E. f_equal.
  assert (0 < length sep)%nat by (destruct sep; [congruence | simpl; lia]).
  apply IH; rewrite length_drop; lia.
Qed.

(** ** Whitespace runs *)

Lemma cls_ws (c : N) : cls_matches false [CSpace] c = isspace c.
Proof. unfold cls_matches. simpl. rewrite orb_false_r. reflexivity. Qed.

Lemma run_ws_cons {A} (c : N) (t : list N) (p : option N) (cs : caps)
    (k : option N -> list N -> caps -> option A) :
  run WS p (c :: t) cs k = if isspace c then k (Some c) t cs else None.
Proof. unfold WS. cbn [run]. rewrite cls_ws. reflexivity. Qed.

Lemma run_star_ws_cons {A} (d : N) (t : list N) (p : option N) (cs : caps)
    (k : option N -> list N -> caps -> option A) :
  isspace d = true ->
  run (Star WS) p (d :: t) cs k
  = match run (Star WS) (Some d) t cs k with
    | Some x => Some x
    | None => k p (d :: t) cs
    end.
Proof.
  intros Hd. cbn [run length star_loop]. rewrite run_ws_cons, Hd.
  rewrite (proj2 (Nat.ltb_lt _ _) (Nat.lt_succ_diag_r _)).
  reflexivity.
Qed.

Lemma run_star_ws_stop {A} (t : list N) (p : option N) (cs : caps)
    (k : option N -> list N -> caps -> option A) :
  match t with [] => True | d :: _ => isspace d = false end ->
  run (Star WS) p t cs k = k p t cs.
Proof.
  destruct t as [|d t]; intros Hd; cbn [run star_loop length].
  - reflexivity.
  - rewrite run_ws_cons, Hd. reflexivity.
Qed.

(** Followed by a continuation that accepts whatever is left, the greedy
    [\s*] consumes the whitespace at the head of the text. *)
Lemma run_star_ws {A} (t : list N) (p : option N) (cs : caps)
    (k : option N -> list N -> caps -> option A) :
  (forall q i, (length i <= length t)%nat -> is_Some (k q i cs)) ->
  exists q, run (Star WS) p t cs k = k q (lstrip t) cs.
Proof.
  revert p. induction t as [|d t IH]; intros p Hk.
  - exists p. apply run_star_ws_stop. exact I.
  - unfold lstrip. cbn [lstrip_by]. destruct (isspace d) eqn:Hd.
    + rewrite (run_star_ws_cons _ _ _ _ _ Hd).
      destruct (IH (Some d)) as (q & Hq).
      { intros q i Hi. apply Hk. cbn [length]. lia. }
      exists q. fold (lstrip t). rewrite Hq.
      destruct (Hk q (lstrip t)) as (x & ->); [|reflexivity].
      cbn [length]. pose proof (lstrip_by_length isspace t). unfold lstrip. lia.
    + exists p. apply run_star_ws_stop. exact Hd.
Qed.

Lemma run_seq {A} (a b : re) (p : option N) (inp : list N) (cs : caps)
    (k : option N -> list N -> caps -> option A) :
  run (Seq a b) p inp cs k = run a p inp cs (fun q i c => run b q i c k).
Proof. reflexivity. Qed.

Lemma collapse_from_true (t : list N) :
  collapse_from true t = collapse_from false (lstrip t).
Proof.
  induction t as [|d t IH]; [reflexivity|].
  unfold lstrip in *. cbn [collapse_from lstrip_by].
  destruct (isspace d) eqn:Hd; [exact IH|].
  cbn [collapse_from]. rewrite Hd. reflexivity.
Qed.

Lemma sub_from_whitespace (fuel : nat) :
  forall (inp : list N) (prev : option N),
    (length inp < fuel)%nat ->
    sub_from _RE_WHITESPACE (lit " ") fuel prev inp = collapse_ws inp.
Proof.
  unfold collapse_ws.
  induction fuel as [|fuel IH]; intros inp prev Hlen; [lia|].
  change _RE_WHITESPACE with (Seq WS (Star WS)) in *.
  destruct inp as [|c t]; [reflexivity|].
  cbn [sub_from]. rewrite run_seq, run_ws_cons.
  destruct (isspace c) eqn:Hc.
  - destruct (run_star_ws t (Some c) []
                (fun p i _ =>
                   if (length i <? length (c :: t))%nat
                   then Some (p, i) else None)) as (q & ->).
    { intros q i Hi. cbn [length].
      rewrite (proj2 (Nat.ltb_lt _ _)) by lia. eauto. }
    pose proof (lstrip_by_length isspace t) as Hl. fold (lstrip t) in Hl.
    cbn [length] in *.
    rewrite (proj2 (Nat.ltb_lt (length (lstrip t)) (S (length t)))) by lia.
    rewrite IH by lia.
    cbn [collapse_from]. rewrite Hc, collapse_from_true. reflexivity.
  - cbn [length] in Hlen. rewrite IH by lia.
    cbn [collapse_from]. rewrite Hc. reflexivity.
Qed.

(** [re.sub(r"\s+", " ", s)] collapses the runs of whitespace. *)
Lemma sub_whitespace (s : list N) :
  sub _RE_WHITESPACE (lit " ") s = collapse_ws s.
Proof. apply sub_from_whitespace. lia. Qed.

Lemma truncate_normalized (s : list N) (mw : Z) :
  _truncate s mw
  = if (len (normalized s) <=? mw)%Z then normalized s
    else if (mw <=? 1)%Z then slice_to (normalized s) mw
    else rstrip (slice_to (normalized s) (mw - 1)) ++ [ELLIPSIS].
Proof. unfold _truncate, normalized. rewrite sub_whitespace. reflexivity. Qed.

(** ** Width truncation *)

Lemma collapse_from_no_space (b : bool) (s : list N) :
  no_space s -> collapse_from b s = s.
Proof.
  intros H. revert b.
  induction H as [|c s Hc _ IH]; intros b; simpl; [reflexivity|].
  rewrite Hc, IH. reflexivity.
Qed.

Lemma normalized_no_space (s : list N) : no_space s -> normalized s = s.
Proof.
  intros H. unfold normalized, strip, lstrip, rstrip, collapse_ws.
  rewrite lstrip_by_id, rstrip_by_id by exact H.
  apply collapse_from_no_space, H.
Qed.

(** The collapsed text has no whitespace other than single spaces, hence no
    line break. *)
Lemma collapse_from_no_linebreak (b : bool) (s : list N) :
  no_linebreak (collapse_from b s).
Proof.
  revert b. induction s as [|c s IH]; intros b; simpl; [constructor|].
  destruct (isspace c) eqn:E.
  - destruct b; [apply IH | constructor; [reflexivity | apply IH]].
  - constructor; [|apply IH].
    destruct (is_linebreak c) eqn:L; [|reflexivity].
    apply linebreak_isspace in L. congruence.
Qed.

Lemma truncate_no_linebreak (s : list N) (mw : Z) :
  no_linebreak (_truncate s mw).
Proof.
  rewrite truncate_normalized. unfold no_linebreak.
  pose proof (collapse_from_no_linebreak false (strip s)) as H.
  fold (collapse_ws (strip s)) in H. fold (normalized s) in H.
  destruct (_ <=? _)%Z; [exact H|].
  assert (forall k, Forall (fun c => is_linebreak c = false)
                      (slice_to (normalized s) k)) as Hs.
  { intros k. unfold slice_to. destruct (0 <=? k)%Z; apply Forall_take, H. }
  destruct (_ <=? _)%Z; [apply Hs|].
  apply Forall_app. split; [apply rstrip_by_Forall, Hs|].
  constructor; [reflexivity | constructor].
Qed.

Lemma truncate_fits (s : list N) (mw : Z) :
  (len (normalized s) <= mw)%Z -> _truncate s mw = normalized s.
Proof.
  intros H. rewrite truncate_normalized.
  apply Z.leb_le in H. rewrite H. reflexivity.
Qed.

Lemma truncate_cut (s : list N) (mw : Z) :
  (1 < mw < len (normalized s))%Z ->
  _truncate s mw
  = rstrip (take (Z.to_nat (mw - 1)) (normalized s)) ++ [ELLIPSIS].
Proof.
  intros [H1 H2]. rewrite truncate_normalized.
  destruct (len (normalized s) <=? mw)%Z eqn:E1; [apply Z.leb_le in E1; lia|].
  destruct (mw <=? 1)%Z eqn:E2; [apply Z.leb_le in E2; lia|].
  unfold slice_to. destruct (0 <=? mw - 1)%Z eqn:E3; [reflexivity|].
  apply Z.leb_gt in E3; lia.
Qed.

Lemma truncate_le (s : list N) (mw : Z) :
  (0 <= mw)%Z -> (len (_truncate s mw) <= mw)%Z.
Proof.
  intros Hmw. rewrite truncate_normalized.
  destruct (len (normalized s) <=? mw)%Z eqn:E1; [apply Z.leb_le, E1|].
  destruct (mw <=? 1)%Z eqn:E2; [apply slice_to_length, Hmw|].
  apply Z.leb_gt in E2.
  pose proof (slice_to_length (normalized s) (mw - 1)) as Hs.
  pose proof (rstrip_by_length isspace (slice_to (normalized s) (mw - 1))) as Hr.
  unfold len in *. rewrite length_app. simpl. unfold rstrip. lia.
Qed.

(** C6, as amended.  The rendered value never exceeds a non-negative
    maximum width.  When the normalized value is longer than a width of at
    least 2, the rendered value is the cut prefix, stripped on the right,
    followed by the truncation marker; it is exactly as long as the width
    when the character before the cut is not whitespace.  In particular a
    value of 200 characters without whitespace, rendered with width 120, is a
    text of 120 characters that ends in the marker. *)
Theorem truncate_width (s : list N) (mw : Z) :
  (0 <= mw)%Z ->
  (len (_truncate s mw) <= mw)%Z
  /\ ((1 < mw < len (normalized s))%Z ->
      last (_truncate s mw) = Some ELLIPSIS
      /\ forall c, normalized s !! Z.to_nat (mw - 2) = Some c ->
                   isspace c = false -> len (_truncate s mw) = mw)
  /\ (no_space s -> len s = 200%Z ->
      len (_truncate s 120) = 120%Z
      /\ last (_truncate s 120) = Some ELLIPSIS).
Proof.
  intros Hmw. split; [apply truncate_le, Hmw|]. split.
  - intros Hcut. rewrite (truncate_cut s mw Hcut). split; [apply last_snoc|].
    intros c Hc Hsp.
    assert (last (take (Z.to_nat (mw - 1)) (normalized s)) = Some c) as Hl.
    { rewrite last_lookup, length_take.
      replace (Init.Nat.pred _) with (Z.to_nat (mw - 2))
        by (unfold len in Hcut; lia).
      rewrite lookup_take_lt by lia. exact Hc. }
    unfold rstrip. rewrite (rstrip_by_last _ _ c Hl Hsp).
    unfold len in *. rewrite length_app, length_take_le by lia.
    simpl. lia.
  - intros Hns H200.
    assert (normalized s = s) as Hn by (apply normalized_no_space, Hns).
    assert (1 < 120 < len (normalized s))%Z as Hcut by (rewrite Hn; lia).
    rewrite (truncate_cut s 120 Hcut), Hn. split; [|apply last_snoc].
    assert (rstrip (take (Z.to_nat (120 - 1)) s) = take (Z.to_nat (120 - 1)) s)
      as ->.
    { apply rstrip_by_id, Forall_take, Hns. }
    unfold len in *. rewrite length_app, length_take_le by lia.
    reflexivity.
Qed.

Lemma truncate_width_witness :
  (len (_truncate (replicate 200%nat 97%N) 120) <= 120)%Z
  /\ last (_truncate (replicate 200%nat 97%N) 120) = Some ELLIPSIS.
Proof.
  destruct (truncate_width (replicate 200%nat 97%N) 120) as (H1 & H2 & H3);
    [lia|].
  split; [exact H1|].
  apply H3; [|reflexivity].
  apply Forall_replicate. reflexivity.
Defined.

(** C6 as stated fails: a value of 200 characters with a space before the
    cut renders in 119 characters, and a negative width cannot bound the
    rendered value. *)
Lemma truncate_width_counterexample :
  let v := replicate 118%nat 97%N ++ [SPACE] ++ replicate 81%nat 98%N in
  len v = 200%Z
  /\ len (_truncate v 120) = 119%Z
  /\ ~ (len (_truncate (lit "abc") (-1)) <= -1)%Z.
Proof.
  vm_compute. repeat split; congruence.
Qed.

(** ** Rendering *)

Lemma last_item_last (l : list (list N)) (f : list N) :
  last l = Some f -> last_item l = f.
Proof. unfold last_item. intros ->. reflexivity. Qed.

Lemma but_last_length {A} (l : list A) :
  length (but_last l) = (length l - 1)%nat.
Proof. unfold but_last. rewrite length_take. lia. Qed.

Lemma last_slice_length {A} (l : list A) :
  length (last_slice l) = Nat.min 1 (length l).
Proof. unfold last_slice. rewrite length_drop. lia. Qed.

Lemma last_slice_last {A} (l : list A) (x : A) :
  last l = Some x -> last_slice l = [x].
Proof.
  intros H. destruct (decide (l = [])) as [->|Hne]; [discriminate|].
  destruct (exists_last Hne) as (l' & y & ->).
  rewrite last_snoc in H. injection H as ->.
  unfold last_slice. rewrite length_app. simpl.
  replace (length l' + 1 - 1)%nat with (length l') by lia.
  apply drop_app_length.
Qed.

Lemma block_fields_length (fields : list (list N)) :
  length (block_fields fields) = HEADER_LINES.
Proof.
  unfold block_fields, HEADER_LINES.
  destruct (20 <? length fields)%nat eqn:E1.
  - apply Nat.ltb_lt in E1.
    assert (length (take (20 - 1) fields ++ [last_item fields]) = 20%nat) as L.
    { rewrite length_app, length_take. cbn [length]. lia. }
    rewrite L, Nat.ltb_irrefl. exact L.
  - apply Nat.ltb_ge in E1.
    destruct (length fields <? 20)%nat eqn:E2.
    + apply Nat.ltb_lt in E2.
      rewrite !length_app, but_last_length, length_replicate, last_slice_length.
      lia.
    + apply Nat.ltb_ge in E2. lia.
Qed.

Lemma block_fields_last (fields : list (list N)) (f : list N) :
  last fields = Some f -> last (block_fields fields) = Some f.
Proof.
  intros H. unfold block_fields, HEADER_LINES.
  destruct (20 <? length fields)%nat eqn:E1.
  - assert (length (take (20 - 1) fields ++ [last_item fields]) = 20%nat) as L.
    { apply Nat.ltb_lt in E1. rewrite length_app, length_take. cbn [length]. lia. }
    rewrite L, Nat.ltb_irrefl, last_snoc, (last_item_last _ _ H).
    reflexivity.
  - destruct (length fields <? 20)%nat; [|exact H].
    rewrite (last_slice_last _ _ H), app_assoc. apply last_snoc.
Qed.

Lemma render_block (style : CommentStyle) (fields : list (list N)) (mw : Z) :
  kind style = Block ->
  _render_header_lines style fields mw
  = [block_start style ++ lit " " ++ _truncate (first_item (block_fields fields)) mw]
    ++ map (fun f => block_line_prefix style ++ _truncate f mw)
         (middle (block_fields fields))
    ++ [block_line_prefix style
        ++ _truncate (last_item (block_fields fields)) mw
        ++ lit " " ++ block_end style].
Proof. intros H. unfold _render_header_lines. rewrite H. reflexivity. Qed.

Lemma render_line (style : CommentStyle) (fields : list (list N)) (mw : Z) :
  kind style <> Block ->
  _render_header_lines style fields mw
  = take HEADER_LINES
      (map (fun f => line_prefix style ++ _truncate f mw) fields)
    ++ replicate (HEADER_LINES - length fields) (rstrip (line_prefix style)).
Proof.
  intros H. unfold _render_header_lines.
  assert ((let rendered :=
             map (fun f => line_prefix style ++ _truncate f mw) fields in
           let rendered :=
             if (HEADER_LINES <? length rendered)%nat
             then take HEADER_LINES rendered else rendered in
           rendered
           ++ replicate (HEADER_LINES - length rendered)
                (rstrip (line_prefix style)))
          = take HEADER_LINES
              (map (fun f => line_prefix style ++ _truncate f mw) fields)
            ++ replicate (HEADER_LINES - length fields)
                 (rstrip (line_prefix style))) as E.
  { cbv zeta. rewrite length_map.
    destruct (HEADER_LINES <? length fields)%nat eqn:E1.
    - apply Nat.ltb_lt in E1. rewrite length_take, length_map.
      replace (HEADER_LINES - _)%nat with 0%nat by lia.
      replace (HEADER_LINES - _)%nat with 0%nat by lia. reflexivity.
    - apply Nat.ltb_ge in E1. rewrite length_map.
      rewrite take_ge by (rewrite length_map; lia). reflexivity. }
  destruct (kind style); [exact E | congruence | exact E].
Qed.

Lemma middle_length (l : list (list N)) :
  length (middle l) = (length l - 2)%nat.
Proof. unfold middle. rewrite length_drop, but_last_length. lia. Qed.

Lemma render_length (style : CommentStyle) (fields : list (list N)) (mw : Z) :
  length (_render_header_lines style fields mw) = HEADER_LINES.
Proof.
  destruct (decide (kind style = Block)) as [Hb|Hb].
  - rewrite (render_block _ _ _ Hb), !length_app, length_map, middle_length,
      block_fields_length. reflexivity.
  - rewrite (render_line _ _ _ Hb), length_app, length_take, length_map,
      length_replicate. lia.
Qed.

Lemma no_linebreak_lit_space : no_linebreak (lit " ").
Proof. repeat constructor. Qed.

Lemma no_linebreak_app (a b : list N) :
  no_linebreak a -> no_linebreak b -> no_linebreak (a ++ b).
Proof. intros Ha Hb. apply Forall_app; split; assumption. Qed.

Lemma render_no_linebreak (style : CommentStyle) (fields : list (list N))
    (mw : Z) :
  style_one_line style ->
  Forall no_linebreak (_render_header_lines style fields mw).
Proof.
  intros (H1 & H2 & H3 & H4).
  pose proof no_linebreak_lit_space as Hsp.
  pose proof truncate_no_linebreak as Ht.
  destruct (decide (kind style = Block)) as [Hb|Hb].
  - rewrite (render_block _ _ _ Hb).
    apply Forall_app; split; [|apply Forall_app; split].
    + constructor; [|constructor]. auto using no_linebreak_app.
    + apply Forall_map, Forall_forall. intros f _. simpl.
      auto using no_linebreak_app.
    + constructor; [|constructor]. auto using no_linebreak_app.
  - rewrite (render_line _ _ _ Hb).
    apply Forall_app; split.
    + apply Forall_take, Forall_map, Forall_forall. intros f _. simpl.
      auto using no_linebreak_app.
    + apply Forall_replicate. apply rstrip_by_Forall, H1.
Qed.

Lemma table_styles_one_line :
  Forall (fun kv => style_one_line kv.2) COMMENT_STYLES_BY_SUFFIX.
Proof.
  assert (style_one_line (line_style "# ")) as L1 by (repeat constructor).
  assert (style_one_line (line_style "-- ")) as L2 by (repeat constructor).
  assert (style_one_line c_block) as B1 by (repeat constructor).
  assert (style_one_line html_block) as B2 by (repeat constructor).
  unfold COMMENT_STYLES_BY_SUFFIX. repeat (constructor; [assumption|]).
  constructor.
Qed.

Lemma table_get_In {V} (t : list (list N * V)) (key : list N) (v : V) :
  table_get t key = Some v -> In (key, v) t.
Proof.
  induction t as [|[k w] t IH]; simpl; [discriminate|].
  destruct (str_eqb k key) eqn:E.
  - apply str_eqb_eq in E. intros [= ->]. left; congruence.
  - intros H. right. apply IH, H.
Qed.

Lemma detected_style_one_line (sfx : list N) (style : CommentStyle) :
  annotate_code_headers._detect_comment_style sfx = Some style ->
  style_one_line style.
Proof.
  unfold annotate_code_headers._detect_comment_style.
  destruct (mem sfx SKIP_SUFFIXES); [discriminate|].
  intros H. apply table_get_In in H.
  pose proof table_styles_one_line as T.
  rewrite Forall_forall in T. apply list_elem_of_In in H. apply (T _ H).
Qed.

(** C5, as amended.  Whatever the style and the number of fields, the
    rendered header has exactly 20 lines, none of which contains a line break
    when the style is the one of a supported suffix.  In a block style
    (C-like and HTML comments) the last field is rendered as the last line.
    In a line style it is the last line when exactly 20 fields are
    supplied. *)
Theorem render_header_exact (style : CommentStyle) (fields : list (list N))
    (mw : Z) :
  length (_render_header_lines style fields mw) = 20%nat
  /\ (forall sfx,
        annotate_code_headers._detect_comment_style sfx = Some style ->
        Forall no_linebreak (_render_header_lines style fields mw))
  /\ (kind style = Block -> forall f, last fields = Some f ->
      last (_render_header_lines style fields mw)
      = Some (block_line_prefix style ++ _truncate f mw
              ++ lit " " ++ block_end style))
  /\ (kind style <> Block -> length fields = 20%nat ->
      forall f, last fields = Some f ->
      last (_render_header_lines style fields mw)
      = Some (line_prefix style ++ _truncate f mw)).
Proof.
  split; [apply render_length|]. split.
  { intros sfx Hs. apply render_no_linebreak.
    apply (detected_style_one_line sfx), Hs. }
  split.
  - intros Hb f Hf. rewrite (render_block _ _ _ Hb), app_assoc, last_snoc.
    rewrite (last_item_last _ _ (block_fields_last _ _ Hf)). reflexivity.
  - intros Hb Hlen f Hf. rewrite (render_line _ _ _ Hb), Hlen.
    unfold HEADER_LINES. simpl. rewrite app_nil_r.
    rewrite take_ge by (rewrite length_map; lia).
    destruct (decide (fields = [])) as [->|Hne]; [discriminate|].
    destruct (exists_last Hne) as (l' & y & ->).
    rewrite last_snoc in Hf. injection Hf as ->.
    rewrite map_app. simpl. apply last_snoc.
Qed.

(** C5 as stated fails in the line style: with 5 fields the padding follows
    the last field, and with 21 fields the last field is cut off. *)
Lemma render_header_counterexample :
  let five := [lit "a"; lit "b"; lit "c"; lit "d"; lit "Last update: x"] in
  let many := replicate 20%nat (lit "f") ++ [lit "Last update: x"] in
  last (_render_header_lines (line_style "# ") five 120) = Some (lit "#")
  /\ last (_render_header_lines (line_style "# ") many 120)
     = Some (lit "# f").
Proof. vm_compute. split; reflexivity. Qed.

(** ** Prolog *)

Section Prolog.
Variable lines : list (list N).

Lemma consume_if_unread (p : list N -> bool) (st : pstate) :
  unread lines (consume_if p lines st) = unread lines st.
Proof.
  destruct st as [prolog i]. unfold consume_if, unread.
  destruct (lines !! i) as [l|] eqn:E; [|reflexivity].
  destruct (p l); [|reflexivity]. simpl.
  rewrite (drop_S _ _ _ E), <- app_assoc. reflexivity.
Qed.

Lemma consume_while_unread (p : list N -> bool) (st : pstate) :
  unread lines (consume_while p lines st) = unread lines st.
Proof.
  destruct st as [prolog i]. unfold consume_while, unread. simpl.
  rewrite <- app_assoc, <- drop_drop, take_drop. reflexivity.
Qed.

Lemma count_while_Forall {A} (p : A -> bool) (l : list A) :
  Forall (fun x => p x = true) (take (count_while p l) l).
Proof.
  induction l as [|x l IH]; simpl; [constructor|].
  destruct (p x) eqn:E; simpl; [|constructor].
  constructor; assumption.
Qed.

Lemma count_while_pos {A} (p : A -> bool) (l : list A) (x : A) :
  head l = Some x -> p x = true -> (0 < count_while p l)%nat.
Proof.
  destruct l as [|y l]; simpl; [discriminate|].
  intros [= ->] ->. lia.
Qed.

Lemma head_drop {A} (l : list A) (i : nat) : head (drop i l) = l !! i.
Proof.
  revert i. induction l as [|x l IH]; intros [|i]; simpl; auto.
Qed.

Lemma go_build_block_unread (st : pstate) :
  unread lines st = lines ->
  unread lines (go_build_block lines st) = lines
  \/ synthesized lines (unread lines (go_build_block lines st)).
Proof.
  intros Hst. unfold go_build_block.
  destruct (test_at is_go_build_tag lines st.2) eqn:Htest; [|left; exact Hst].
  pose proof (consume_while_unread is_go_build_tag st) as Hw.
  destruct st as [prolog i]. unfold consume_while in *. simpl in Htest.
  set (n := count_while is_go_build_tag (drop i lines)) in *.
  set (prolog' := prolog ++ take n (drop i lines)) in *.
  assert (unread lines (prolog', (i + n)%nat) = lines) as Hu by congruence.
  assert (exists tag, last prolog' = Some tag /\ is_go_build_tag tag = true)
    as (tag & Hlast & Htag).
  { unfold test_at in Htest.
    destruct (lines !! i) as [l|] eqn:El; [|discriminate].
    assert (0 < n)%nat as Hn
      by (apply (count_while_pos _ _ l); [rewrite head_drop|]; assumption).
    pose proof (count_while_Forall is_go_build_tag (drop i lines)) as Hall.
    fold n in Hall.
    assert (take n (drop i lines) <> []) as Hne.
    { intros Et. apply (f_equal length) in Et.
      rewrite length_take, length_drop in Et. cbn [length] in Et.
      apply lookup_lt_Some in El. lia. }
    destruct (exists_last Hne) as (t & x & Et).
    exists x. unfold prolog'. rewrite Et, app_assoc, last_snoc.
    split; [reflexivity|].
    rewrite Et in Hall. apply Forall_app in Hall as [_ Hx].
    inversion Hx; auto. }
  destruct (lines !! (i + n)%nat) as [l|] eqn:El.
  - destruct (is_blank l) eqn:Eb.
    + left. unfold unread in *. simpl in *.
      rewrite (drop_S _ _ _ El) in Hu. rewrite <- app_assoc. exact Hu.
    + right. exists prolog', (drop (i + n) lines), tag.
      unfold unread in *. simpl in *. rewrite <- app_assoc.
      repeat split; auto.
      intros l'. rewrite head_drop, El. intros [= <-]. exact Eb.
  - right. exists prolog', (drop (i + n) lines), tag.
    unfold unread in *. simpl in *. rewrite <- app_assoc.
    repeat split; auto.
    intros l'. rewrite head_drop, El. discriminate.
Qed.

Lemma rust_attr_block_unread (st : pstate) :
  unread lines (rust_attr_block lines st) = unread lines st.
Proof.
  unfold rust_attr_block.
  destruct (test_at is_rust_inner_attr lines st.2); [|reflexivity].
  rewrite consume_if_unread. apply consume_while_unread.
Qed.
End Prolog.

Lemma prolog_scan_unread (first : list N) (more : list (list N))
    (sfx : list N) :
  let lines := first :: more in
  unread lines (prolog_scan first lines sfx) = lines
  \/ synthesized lines (unread lines (prolog_scan first lines sfx)).
Proof.
  intros lines. unfold prolog_scan.
  rewrite rust_attr_block_unread.
  apply go_build_block_unread.
  assert (unread lines (if is_shebang first then ([first], 1%nat)
                        else ([], 0%nat)) = lines) as H0
    by (destruct (is_shebang first); reflexivity).
  destruct (is_python sfx); rewrite ?consume_if_unread; exact H0.
Qed.

(** C7.  The prolog followed by the body is the original sequence of lines,
    or the original sequence with one blank line inserted right after a
    block of build tags that no blank line follows. *)
Theorem split_prolog_reassembles (lines : list (list N)) (sfx : list N) :
  (_split_prolog lines sfx).1 ++ (_split_prolog lines sfx).2 = lines
  \/ synthesized lines
       ((_split_prolog lines sfx).1 ++ (_split_prolog lines sfx).2).
Proof.
  destruct lines as [|first more]; [left; reflexivity|].
  apply prolog_scan_unread.
Qed.

(** ** Existing header *)

Lemma contains_concat (l : list (list N)) (x sub : list N) :
  In x l -> contains x sub = true -> contains (concat l) sub = true.
Proof.
  intros Hin Hx. apply contains_inv in Hx as (a & b & ->).
  apply in_split in Hin as (l1 & l2 & ->).
  rewrite concat_app. simpl. rewrite <- !app_assoc, app_assoc.
  apply contains_app.
Qed.

(** A marker in one of the first 20 lines is a marker in the scanned text. *)
Lemma marker_in_header_scan (rest : list (list N)) :
  marker_in_header rest = true -> marker_in_scan rest = true.
Proof.
  unfold marker_in_header, marker_in_scan. intros H.
  apply existsb_exists in H as (x & Hin & Hx).
  apply (contains_concat _ x); [|exact Hx].
  unfold HEADER_LINES in Hin.
  rewrite <- (take_drop 20 (take 60 rest)), take_take. simpl.
  apply in_or_app. left. exact Hin.
Qed.

Lemma split_header_scan (rest : list (list N)) :
  concat (take (Nat.min (length rest) 60) rest) = concat (take 60 rest).
Proof.
  destruct (Nat.min_spec (length rest) 60) as [[H ->]|[H ->]]; [|reflexivity].
  rewrite !take_ge by lia. reflexivity.
Qed.




(** ** Lines *)







Lemma endswith_snoc (t : list N) (c : N) : endswith (t ++ [c]) [c] = true.
Proof.
  unfold endswith. rewrite rev_unit. cbn [rev app startswith].
  rewrite N.eqb_refl. reflexivity.
Qed.

Lemma endswith_nl_inv (l : list N) :
  endswith l [NL] = true -> exists t, l = t ++ [NL].
Proof.
  unfold endswith. change (rev [NL]) with [NL].
  destruct (rev l) as [|c r] eqn:E; cbn [startswith]; [discriminate|].
  rewrite andb_true_r. intros H. apply N.eqb_eq in H. subst c.
  exists (rev r). rewrite <- (rev_involutive l), E. reflexivity.
Qed.


(** ** annotate_file *)


Lemma annotate_file_ok (rq : request) (raw : list N) (style : CommentStyle)
    (prolog rest : list (list N)) (existing_header : option (list (list N)))
    (body : list (list N)) (removed : bool) :
  annotate_code_headers._detect_comment_style (suffix rq) = Some style ->
  _split_prolog (splitlines true raw) (suffix rq) = (prolog, rest) ->
  _split_existing_codex_header rest (path rq)
  = Ok (existing_header, body, removed) ->
  let text :=
    assemble prolog
      (_render_header_lines style
         (final_fields rq raw style prolog rest existing_header body)
         (max_width rq)) body in
  exists o,
    annotate_file rq raw = Ok o
    /\ new_raw o = Some text
    /\ changed o = negb (str_eqb text raw)
    /\ written o = (if changed o && negb (dry_run rq) then Some text else None).
Proof.
  intros Hs Hp He text. unfold annotate_file. rewrite Hs, Hp, He.
  fold (final_fields rq raw style prolog rest existing_header body).
  unfold final_fields in *.
  destruct (bumps _ _ _ _); subst text; cbv zeta;
    (destruct (str_eqb _ raw) eqn:E;
     [ eexists; split; [reflexivity|]; simpl; auto
     | eexists; split; [reflexivity|]; simpl; destruct (dry_run rq); auto ]).
Qed.



Lemma assemble_concat (prolog header body : list (list N)) :
  assemble prolog header body
  = concat prolog ++ concat (map ensure_newline header) ++ concat body.
Proof. unfold assemble. rewrite !concat_app. reflexivity. Qed.




(** ** Shebang and encoding cookie *)




Lemma consume_if_extends (p : list N -> bool) (lines : list (list N))
    (st : pstate) :
  exists extra, (consume_if p lines st).1 = st.1 ++ extra.
Proof.
  destruct st as [prolog i]. unfold consume_if.
  destruct (lines !! i) as [l|]; [destruct (p l)|]; simpl;
    solve [ eexists; reflexivity | exists []; rewrite app_nil_r; reflexivity ].
Qed.

Lemma consume_while_extends (p : list N -> bool) (lines : list (list N))
    (st : pstate) :
  exists extra, (consume_while p lines st).1 = st.1 ++ extra.
Proof. destruct st as [prolog i]. simpl. eexists; reflexivity. Qed.


Lemma rust_attr_block_extends (lines : list (list N)) (st : pstate) :
  exists extra, (rust_attr_block lines st).1 = st.1 ++ extra.
Proof.
  unfold rust_attr_block.
  destruct (test_at _ _ _); [|exists []; rewrite app_nil_r; reflexivity].
  destruct (consume_while_extends is_rust_inner_attr lines st) as (e1 & H1).
  destruct (consume_if_extends is_blank lines
              (consume_while is_rust_inner_attr lines st)) as (e2 & H2).
  rewrite H2, H1, <- app_assoc. eexists; reflexivity.
Qed.




(** ** Fields and header lines *)

Lemma header_fields_length (rq : request) (ef : gmap (list N) (list N))
    (hint : list N) (types funcs entrypoints inheritance : list (list N)) :
  length (header_fields rq ef hint types funcs entrypoints inheritance)
  = 20%nat.
Proof. reflexivity. Qed.

Lemma computed_fields_length (rq : request) (prolog rest : list (list N))
    (eh : option (list (list N))) (body : list (list N)) :
  length (computed_fields rq prolog rest eh body) = 20%nat.
Proof. reflexivity. Qed.

Lemma set_last_length (l : list (list N)) (x : list N) :
  length (set_last l x) = length l.
Proof.
  destruct l as [|y l]; [reflexivity|]. unfold set_last.
  rewrite length_app, but_last_length. simpl. lia.
Qed.

Lemma set_last_lookup (l : list (list N)) (x : list N) (i : nat) :
  (S i < length l)%nat -> set_last l x !! i = l !! i.
Proof.
  intros H. destruct l as [|y l]; [reflexivity|]. unfold set_last, but_last.
  rewrite lookup_app_l by (rewrite length_take; lia).
  apply lookup_take_lt. lia.
Qed.

Lemma final_fields_length (rq : request) (raw : list N) (style : CommentStyle)
    (prolog rest : list (list N)) (eh : option (list (list N)))
    (body : list (list N)) :
  length (final_fields rq raw style prolog rest eh body) = 20%nat.
Proof.
  unfold final_fields. destruct (bumps _ _ _ _);
    rewrite ?set_last_length; apply computed_fields_length.
Qed.

(** Bumping the date leaves the first 19 fields as they were computed. *)
Lemma final_fields_lookup (rq : request) (raw : list N) (style : CommentStyle)
    (prolog rest : list (list N)) (eh : option (list (list N)))
    (body : list (list N)) (i : nat) :
  (i < 19)%nat ->
  final_fields rq raw style prolog rest eh body !! i
  = computed_fields rq prolog rest eh body !! i.
Proof.
  intros H. unfold final_fields. destruct (bumps _ _ _ _); [|reflexivity].
  apply set_last_lookup. rewrite computed_fields_length. lia.
Qed.

Lemma map_lookup {A B} (f : A -> B) (l : list A) (i : nat) (x : A) :
  l !! i = Some x -> map f l !! i = Some (f x).
Proof.
  revert i. induction l as [|y l IH]; intros [|i]; simpl; try discriminate.
  - intros [= ->]. reflexivity.
  - apply IH.
Qed.

Lemma block_fields_id (fields : list (list N)) :
  length fields = 20%nat -> block_fields fields = fields.
Proof.
  intros H. unfold block_fields, HEADER_LINES.
  rewrite H, Nat.ltb_irrefl, H, Nat.ltb_irrefl. reflexivity.
Qed.

Lemma middle_lookup (l : list (list N)) (i : nat) :
  (S (S i) < length l)%nat -> middle l !! i = l !! S i.
Proof.
  intros H. unfold middle, but_last.
  rewrite lookup_drop. apply lookup_take_lt. lia.
Qed.

(** Line [i] of a header rendered from 20 fields, for [1 <= i <= 18]. *)
Lemma render_inner_line (style : CommentStyle) (fields : list (list N))
    (mw : Z) (i : nat) (f : list N) :
  length fields = 20%nat -> (1 <= i <= 18)%nat -> fields !! i = Some f ->
  _render_header_lines style fields mw !! i
  = Some (inner_prefix style ++ _truncate f mw).
Proof.
  intros Hlen Hi Hf. unfold inner_prefix.
  destruct (decide (kind style = Block)) as [Hb|Hb].
  - rewrite (render_block _ _ _ Hb), Hb, (block_fields_id _ Hlen).
    destruct i as [|i]; [lia|]. simpl.
    rewrite lookup_app_l by (rewrite length_map, middle_length; lia).
    rewrite (map_lookup _ _ _ f); [reflexivity|].
    rewrite middle_lookup by lia. exact Hf.
  - rewrite (render_line _ _ _ Hb), Hlen. unfold HEADER_LINES. simpl.
    rewrite app_nil_r, take_ge by (rewrite length_map; lia).
    assert (map (fun f0 => line_prefix style ++ _truncate f0 mw) fields !! i
            = Some (line_prefix style ++ _truncate f mw)) as ->.
    { apply (map_lookup (fun f0 => line_prefix style ++ _truncate f0 mw)), Hf. }
    destruct (kind style); [reflexivity | congruence | reflexivity].
Qed.

Lemma ensure_newline_append (l : list N) :
  no_linebreak l -> ensure_newline l = l ++ [NL].
Proof.
  intros H. unfold ensure_newline.
  destruct (endswith l [NL]) eqn:E; [|reflexivity].
  apply endswith_nl_inv in E as (t & ->).
  apply Forall_app in H as [_ H]. inversion H; discriminate.
Qed.

(** The text a call produces, with line [i] of its header, for a field
    [f] at position [1 <= i <= 18] of the computed fields. *)
Lemma annotate_file_line (rq : request) (raw : list N) (style : CommentStyle)
    (prolog rest : list (list N)) (eh : option (list (list N)))
    (body : list (list N)) (removed : bool) (i : nat) (f : list N) :
  annotate_code_headers._detect_comment_style (suffix rq) = Some style ->
  _split_prolog (splitlines true raw) (suffix rq) = (prolog, rest) ->
  _split_existing_codex_header rest (path rq) = Ok (eh, body, removed) ->
  (1 <= i <= 18)%nat ->
  computed_fields rq prolog rest eh body !! i = Some f ->
  exists o header,
    annotate_file rq raw = Ok o
    /\ new_raw o = Some (concat prolog ++ concat header ++ concat body)
    /\ length header = 20%nat
    /\ header !! i
       = Some (inner_prefix style ++ _truncate f (max_width rq) ++ [NL]).
Proof.
  intros Hs Hp He Hi Hf.
  destruct (annotate_file_ok rq raw style prolog rest eh body removed Hs Hp He)
    as (o & Ho & Hnew & _).
  pose proof (detected_style_one_line _ _ Hs) as Hone.
  eexists o, (map ensure_newline (_render_header_lines style _ _)).
  split; [exact Ho|].
  split; [rewrite Hnew, assemble_concat; reflexivity|].
  split; [rewrite length_map; apply render_length|].
  assert (final_fields rq raw style prolog rest eh body !! i = Some f) as Hf'
    by (rewrite final_fields_lookup by lia; exact Hf).
  pose proof (render_inner_line style _ (max_width rq) i f
                (final_fields_length _ _ _ _ _ _ _) Hi Hf') as Hline.
  rewrite (map_lookup ensure_newline _ _ _ Hline).
  rewrite ensure_newline_append, <- app_assoc; [reflexivity|].
  pose proof (render_no_linebreak style
                (final_fields rq raw style prolog rest eh body)
                (max_width rq) Hone) as Hall.
  rewrite Forall_forall in Hall. apply Hall.
  apply list_elem_of_lookup. exists i. exact Hline.
Qed.

(** ** Manual fields *)


Lemma computed_fields_manual (rq : request) (prolog rest : list (list N))
    (eh : option (list (list N))) (body : list (list N)) (k : nat)
    (key : list N) :
  MANUAL_KEYS !! k = Some key ->
  computed_fields rq prolog rest eh body !! (7 + k)%nat
  = Some (key ++ lit ": " ++ manual_value rq (existing_fields_of eh) key).
Proof.
  intros Hk. unfold computed_fields, _extract_symbols, header_fields.
  cbv zeta. rewrite lookup_app_r by (cbn [length]; lia).
  cbn [length]. replace (7 + k - 7)%nat with k by lia.
  rewrite lookup_app_l
    by (rewrite length_map; apply lookup_lt_Some in Hk; exact Hk).
  apply (map_lookup
           (fun key0 => key0 ++ lit ": "
                        ++ manual_value rq (existing_fields_of eh) key0)).
  exact Hk.
Qed.



(** ** Key types *)

Lemma scan_symbols_app (want : symkind) (sfx : list N) (a b : list (list N))
    (idx off : Z) :
  scan_symbols want sfx (a ++ b) idx off
  = scan_symbols want sfx a idx off
    ++ scan_symbols want sfx b (idx + len a)%Z off.
Proof.
  revert idx. induction a as [|line a IH]; intros idx.
  - simpl. unfold len. simpl. rewrite Z.add_0_r. reflexivity.
  - cbn [app scan_symbols]. rewrite IH.
    replace (idx + 1 + len a)%Z with (idx + len (line :: a))%Z
      by (unfold len; cbn [length]; lia).
    destruct (LONG_LINE <? len line)%Z; [reflexivity|].
    destruct (symbol_of_line sfx line) as [[[] name]|]; destruct want;
      reflexivity.
Qed.

Lemma fmt_from_keeps (pairs : list (list N * Z)) (limit : nat)
    (seen : gset (list N)) (out : list (list N)) (x : list N) :
  In x out -> In x (fmt_from pairs limit seen out).
Proof.
  revert seen out. induction pairs as [|[name ln] pairs IH]; intros seen out H.
  - exact H.
  - simpl. case_bool_decide; [apply IH, H|].
    assert (In x (out ++ [name ++ lit "@L" ++ dec ln])) as H'
      by (apply in_or_app; left; exact H).
    destruct (limit <=? _)%nat; [exact H' | apply IH, H'].
Qed.

Lemma fmt_from_app (p r : list (list N * Z)) (limit : nat)
    (seen : gset (list N)) (out : list (list N)) :
  (length (fmt_from p limit seen out) < limit)%nat ->
  fmt_from (p ++ r) limit seen out
  = fmt_from r limit (list_to_set (map fst p) ∪ seen)
      (fmt_from p limit seen out).
Proof.
  revert seen out. induction p as [|[name ln] p IH]; intros seen out Hlen.
  - cbn [app fmt_from map]. f_equal. set_solver.
  - cbn [app fmt_from map fst] in *. case_bool_decide as Hin.
    + rewrite (IH _ _ Hlen). f_equal. set_solver.
    + destruct (limit <=? length (out ++ [name ++ lit "@L" ++ dec ln]))%nat
        eqn:E.
      * apply Nat.leb_le in E. lia.
      * rewrite (IH _ _ Hlen). f_equal. set_solver.
Qed.

(** A declaration whose name is new and that fewer than [limit] distinct
    names precede is listed. *)
Lemma fmt_includes (p r : list (list N * Z)) (name : list N) (ln : Z)
    (limit : nat) :
  (length (fmt p limit) < limit)%nat ->
  ~ In name (map fst p) ->
  In (name ++ lit "@L" ++ dec ln) (fmt (p ++ (name, ln) :: r) limit).
Proof.
  intros Hlen Hnew. unfold fmt in *. rewrite (fmt_from_app _ _ _ _ _ Hlen).
  simpl. case_bool_decide as Hin.
  - exfalso. apply Hnew. apply list_elem_of_In. set_solver.
  - assert (In (name ++ lit "@L" ++ dec ln)
              (fmt_from p limit ∅ [] ++ [name ++ lit "@L" ++ dec ln])) as H
      by (apply in_or_app; right; left; reflexivity).
    destruct (limit <=? _)%nat; [exact H | apply fmt_from_keeps, H].
Qed.

Lemma computed_fields_types (rq : request) (prolog rest : list (list N))
    (eh : option (list (list N))) (body : list (list N)) :
  computed_fields rq prolog rest eh body !! 3%nat
  = Some (lit "Key types: "
          ++ joined_or_todo
               (_extract_symbols (suffix rq) body
                  (len prolog + Z.of_nat HEADER_LINES)).1.1).
Proof. reflexivity. Qed.

(** C4, as amended.  In both modes the Key types field is computed from the
    lines that follow the header and from nothing else, and the header line
    written for it is this field passed through [_truncate].  A line of the
    body that the patterns of the language recognize as a type declaration
    is listed, with its line number in the final file, provided it is at
    most 5000 characters long, its name was not declared before and fewer
    than 4 distinct type names precede it. *)
Theorem key_types_recomputed (rq : request) (raw : list N)
    (style : CommentStyle) (prolog rest : list (list N))
    (eh : option (list (list N))) (body : list (list N)) (removed : bool) :
  annotate_code_headers._detect_comment_style (suffix rq) = Some style ->
  _split_prolog (splitlines true raw) (suffix rq) = (prolog, rest) ->
  _split_existing_codex_header rest (path rq) = Ok (eh, body, removed) ->
  let offset := (len prolog + 20)%Z in
  let types := (_extract_symbols (suffix rq) body offset).1.1 in
  let field := lit "Key types: " ++ joined_or_todo types in
  computed_fields rq prolog rest eh body !! 3%nat = Some field
  /\ (exists o lines20,
        annotate_file rq raw = Ok o
        /\ new_raw o = Some (concat prolog ++ concat lines20 ++ concat body)
        /\ length lines20 = 20%nat
        /\ lines20 !! 3%nat
           = Some (inner_prefix style ++ _truncate field (max_width rq)
                   ++ [NL]))
  /\ (forall pre line post name,
        body = pre ++ line :: post ->
        symbol_of_line (suffix rq) line = Some (TypeSym, name) ->
        (len line <= 5000)%Z ->
        ~ In name (map fst (scan_symbols TypeSym (suffix rq) pre 1 offset)) ->
        (length (fmt (scan_symbols TypeSym (suffix rq) pre 1 offset) 4) < 4)%nat ->
        In (name ++ lit "@L" ++ dec (offset + len pre + 1)) types).
Proof.
  intros Hs Hp He offset types field.
  assert (computed_fields rq prolog rest eh body !! 3%nat = Some field)
    as Hfield by apply computed_fields_types.
  split; [exact Hfield|]. split.
  - apply (annotate_file_line rq raw style prolog rest eh body removed 3 field);
      auto; lia.
  - intros pre line post name -> Hsym Hshort Hnew Hfew.
    unfold types, _extract_symbols. cbn [fst].
    rewrite scan_symbols_app. cbn [scan_symbols].
    apply Z.leb_le in Hshort. unfold LONG_LINE.
    rewrite Z.ltb_antisym, Hshort, Hsym. cbn [negb].
    replace (offset + (1 + len pre))%Z with (offset + len pre + 1)%Z by lia.
    apply fmt_includes; assumption.
Qed.

(** ** Examples of the statements above *)

Lemma render_header_exact_witness :
  last (_render_header_lines c_block [lit "a"; lit "Last update: x"] 120)
  = Some (lit " * Last update: x  */").
Proof.
  destruct (render_header_exact c_block [lit "a"; lit "Last update: x"] 120)
    as (_ & _ & H & _).
  apply (H eq_refl (lit "Last update: x")). reflexivity.
Defined.






Lemma key_types_recomputed_witness :
  let rq := call "a.py" ".py" true in
  let body := splitlines true (text five_classes) in
  In (lit "D" ++ lit "@L" ++ dec (0 + 20 + 3 + 1))
     (_extract_symbols (suffix rq) body (len (@nil (list N)) + 20)%Z).1.1.
Proof.
  intros rq body.
  destruct (key_types_recomputed rq (text five_classes) (line_style "# ")
              [] body None body false eq_refl eq_refl eq_refl)
    as (_ & _ & H).
  apply (H (take 3 body) (lit "class D:" ++ [NL]) (drop 4 body) (lit "D"));
    vm_compute; try reflexivity; try discriminate; try lia.
  intros [H1|[H1|[H1|[]]]]; discriminate.
Defined.

(** C4 as stated fails: a fifth type declaration is not listed, in either
    mode. *)
Lemma key_types_counterexample :
  let raw := text five_classes in
  let line := lit "# Key types: A@L21, B@L22, C@L23, D@L24" ++ [NL] in
  symbol_of_line (lit ".py") (lit "class E:" ++ [NL]) = Some (TypeSym, lit "E")
  /\ nth 4 (splitlines true raw) [] = lit "class E:" ++ [NL]
  /\ output_lines (annotate_file (call "a.py" ".py" false) raw) !! 3%nat
     = Some line
  /\ output_lines (annotate_file (call "a.py" ".py" true) raw) !! 3%nat
     = Some line.
Proof. vm_compute. repeat split. Qed.

(** ** The tests of the repository *)

(** [test_preserves_manual_fields_by_default] *)
Example test_preserves_manual_fields_by_default :
  let r := annotate_file (call "AlarmMessageList.tsx" ".tsx" false) alarm_tsx in
  did_change r = true
  /\ contains (updated r) (lit "Purpose: " ++ alarm_purpose) = true
  /\ contains (updated r) (lit "Public API: " ++ alarm_public_api) = true
  /\ contains (updated r) (lit "Last update: 2026-11-03") = true.
Proof. vm_compute. repeat split. Qed.

(** [test_refresh_resets_manual_fields] *)
Example test_refresh_resets_manual_fields :
  let r := annotate_file (call "file.ts" ".ts" true) keepme_ts in
  did_change r = true
  /\ contains (updated r) (lit "Purpose: TODO") = true
  /\ contains (updated r) (lit "Public API: TODO") = true
  /\ contains (updated r) (lit "Index: TODO") = true.
Proof. vm_compute. repeat split. Qed.

(** An empty file of a line-comment language: 20 header lines of
    placeholders and nothing else. *)
Example empty_file_gets_header :
  let r := annotate_file (call "a.sh" ".sh" false) [] in
  did_change r = true
  /\ length (splitlines true (updated r)) = 20%nat
  /\ splitlines true (updated r) !! 2%nat = Some (lit "# Purpose: TODO" ++ [NL])
  /\ splitlines true (updated r) !! 17%nat
     = Some (lit "# Known issues: TODO" ++ [NL]).
Proof. vm_compute. repeat split. Qed.

(** A purpose set by an override on the first run is kept by a second run
    without override. *)
Example override_purpose_is_kept :
  let first :=
    annotate_file
      {| path := lit "a.py"; suffix := lit ".py"; relpath := lit "a.py";
         today := lit "2026-11-03"; purpose := lit "Handles X";
         index_hint := []; max_width := DEFAULT_MAX_WIDTH; dry_run := false;
         refresh := false; type_index := None |} (text ["x = 1"]%string) in
  let second := annotate_file (call "a.py" ".py" false) (updated first) in
  splitlines true (updated first) !! 2%nat
  = Some (lit "# Purpose: Handles X" ++ [NL])
  /\ did_change second = false
  /\ (exists o, second = Ok o /\ new_raw o = Some (updated first)).
Proof. vm_compute. repeat split. eexists. split; reflexivity. Qed.

(** A Go file whose build tag is not followed by a blank line gets one. *)
Example go_build_tag_separator :
  _split_prolog [lit "//go:build linux" ++ [NL]; lit "package main" ++ [NL]]
    (lit ".go")
  = ([lit "//go:build linux" ++ [NL]; [NL]], [lit "package main" ++ [NL]]).
Proof. reflexivity. Qed.

(** ** Running twice *)

(** A file on which the second run is a no-op. *)
Example second_run_noop :
  let rq := call "a.py" ".py" false in
  exists first out1 second,
    annotate_file rq (text python_script) = Ok first
    /\ written first = Some out1
    /\ annotate_file rq out1 = Ok second
    /\ changed second = false /\ written second = None
    /\ new_raw second = Some out1.
Proof.
  intros rq. eexists _, _, _.
  split; [vm_compute; reflexivity|]. split; [vm_compute; reflexivity|].
  split; [vm_compute; reflexivity|]. repeat split.
Qed.

(** C1 fails on the code.  The first run on a Python module takes the
    Purpose from the docstring; when the docstring ends in a comment-closing
    token, the second run in preserve mode, on the same date and with the
    same arguments, reads the Purpose back without it, reports a change and
    rewrites the file. *)
Theorem second_run_rewrites_purpose :
  let rq := call "a.py" ".py" false in
  exists first out1 second out2,
    annotate_file rq docstring_module = Ok first
    /\ written first = Some out1
    /\ annotate_file rq out1 = Ok second
    /\ changed second = true
    /\ written second = Some out2
    /\ out2 <> out1
    /\ splitlines true out1 !! 2%nat
       = Some (lit "# Purpose: Strip trailing */" ++ [NL])
    /\ splitlines true out2 !! 2%nat
       = Some (lit "# Purpose: Strip trailing" ++ [NL])
    /\ drop 20 (splitlines true out1) = [docstring_module]
    /\ drop 20 (splitlines true out2) = [docstring_module].
Proof.
  intros rq. eexists _, _, _, _.
  split; [vm_compute; reflexivity|]. split; [vm_compute; reflexivity|].
  split; [vm_compute; reflexivity|]. split; [reflexivity|].
  split; [vm_compute; reflexivity|].
  split; [vm_compute; discriminate|].
  repeat split.
Qed.

(** ** The completeness checker *)

Lemma todo_value (value : list N) :
  str_eqb value (lit "TODO") || contains value (lit "TODO") = true ->
  contains value (lit "TODO") = true.
Proof.
  intros H. apply orb_true_iff in H as [H|H]; [|exact H].
  apply str_eqb_eq in H. subst value. reflexivity.
Qed.

Lemma auto_populated_field (clean field : list N) :
  List.find (startswith clean) CH.AUTO_POPULATED_FIELDS = Some field ->
  startswith clean field = true
  /\ (field = CH.KEY_FUNCS \/ field = CH.ENTRYPOINTS).
Proof.
  intros H. apply find_some in H as [Hin Hs]. split; [exact Hs|].
  simpl in Hin. destruct Hin as [<-|[<-|[]]]; auto.
Qed.

(** What it takes for a cleaned header line to be reported. *)
Lemma incomplete_field_inv (content : option (list N)) (sfx : list N)
    (st : CH.style) (line issue : list N) :
  In issue (CH.incomplete_field content sfx st line) ->
  issue = CH._strip_comment_prefix line st
  /\ ((startswith issue CH.KEY_FUNCS = true
       /\ contains (strip (drop (length CH.KEY_FUNCS) issue)) (lit "TODO") = true
       /\ CH._has_functions content sfx = true)
      \/ (startswith issue CH.ENTRYPOINTS = true
          /\ contains (strip (drop (length CH.ENTRYPOINTS) issue)) (lit "TODO")
             = true
          /\ CH._has_entrypoint content sfx = true)).
Proof.
  unfold CH.incomplete_field.
  set (clean := CH._strip_comment_prefix line st).
  destruct (List.find _ _) as [field|] eqn:Ef; [|intros []].
  apply auto_populated_field in Ef as [Hs Hf].
  destruct (str_eqb _ _ || contains _ _) eqn:Et; [|intros []].
  apply todo_value in Et.
  destruct Hf as [-> | ->].
  - change (str_eqb CH.KEY_FUNCS CH.KEY_FUNCS) with true. cbv iota.
    destruct (CH._has_functions content sfx) eqn:Eh; [|intros []].
    intros [<-|[]]. split; [reflexivity|]. left. auto.
  - change (str_eqb CH.ENTRYPOINTS CH.KEY_FUNCS) with false.
    change (str_eqb CH.ENTRYPOINTS CH.ENTRYPOINTS) with true. cbv iota.
    destruct (CH._has_entrypoint content sfx) eqn:Eh; [|intros []].
    intros [<-|[]]. split; [reflexivity|]. right. auto.
Qed.

Lemma key_funcs_not_exempt (issue : list N) :
  startswith issue CH.KEY_FUNCS = true ->
  startswith issue (lit "Key types:") = false
  /\ startswith issue (lit "Index:") = false.
Proof. intros H. apply startswith_inv in H as (t & ->). split; reflexivity. Qed.

Lemma entrypoints_not_exempt (issue : list N) :
  startswith issue CH.ENTRYPOINTS = true ->
  startswith issue (lit "Key types:") = false
  /\ startswith issue (lit "Index:") = false.
Proof. intros H. apply startswith_inv in H as (t & ->). split; reflexivity. Qed.

Lemma check_file_inv (f : CH.file) (rel : list N) (issues : list (list N)) :
  CH.check_file f = Some (rel, issues) ->
  exists text,
    CH.is_file f = true /\ CH.content f = Some text /\ CH.rel_path f = Some rel
    /\ CH._extract_header_lines (splitlines false text) <> []
    /\ CH._check_header_incomplete
         (CH._extract_header_lines (splitlines false text))
         (CH.content f) (CH.suffix f) = (true, issues).
Proof.
  unfold CH.check_file.
  destruct (CH.is_file f); [|discriminate]. simpl.
  destruct (CH.content f) as [text|] eqn:Ec; [|discriminate].
  destruct (CH._extract_header_lines (splitlines false text))
    as [|l header] eqn:Eh; [discriminate|].
  destruct (CH._check_header_incomplete _ _ _) as [[] issues'] eqn:Ei;
    [|discriminate].
  destruct (CH.rel_path f) as [rel'|]; [|discriminate].
  intros H. injection H as <- <-.
  exists text. rewrite Eh. repeat split; auto.
Qed.

Lemma omap_nonempty {A B} (g : A -> option B) (l : list A) :
  omap g l <> [] <-> exists x, In x l /\ is_Some (g x).
Proof.
  induction l as [|a l IH]; simpl.
  - split; [congruence | intros (x & [] & _)].
  - destruct (g a) as [b|] eqn:E.
    + split; [|discriminate]. intros _. exists a. split; [left; auto|].
      rewrite E. eauto.
    + rewrite IH. split.
      * intros (x & Hin & Hx). exists x. auto.
      * intros (x & [<-|Hin] & Hx); [rewrite E in Hx; destruct Hx; discriminate|].
        exists x. auto.
Qed.

(** C9, as amended.  The exit status is 1 when some file is reported and 0
    otherwise; a file whose path is not under the root is not reported.  A
    file is reported with the single issue "No valid header
    found" when the located header window has fewer than 20 lines.  When
    the window has 20 lines, every reported issue is a cleaned header line
    that starts with [Key funcs:] or [Entrypoints:] (so a Key types or an
    Index line is never reported), whose value contains the unfilled token,
    and for which the scan of the file finds a function definition,
    respectively an entrypoint. *)
Theorem checker_reports (files : list CH.file) :
  (CH.main files = 1%Z \/ CH.main files = 0%Z)
  /\ (CH.main files <> 0%Z <->
      exists f, In f files /\ is_Some (CH.check_file f))
  /\ (forall f, CH.rel_path f = None -> CH.check_file f = None)
  /\ forall f rel issues,
       CH.check_file f = Some (rel, issues) ->
       exists text header,
         CH.content f = Some text
         /\ header = CH._extract_header_lines (splitlines false text)
         /\ header <> []
         /\ ((length header < 20)%nat -> issues = [CH.NO_VALID_HEADER])
         /\ ((20 <= length header)%nat ->
             issues <> []
             /\ forall issue, In issue issues ->
                  (exists line,
                     In line header
                     /\ issue = CH._strip_comment_prefix line
                                  (CH._detect_comment_style (nth 0 header [])))
                  /\ startswith issue (lit "Key types:") = false
                  /\ startswith issue (lit "Index:") = false
                  /\ ((startswith issue CH.KEY_FUNCS = true
                       /\ contains (strip (drop (length CH.KEY_FUNCS) issue))
                            (lit "TODO") = true
                       /\ CH._has_functions (CH.content f) (CH.suffix f) = true)
                      \/ (startswith issue CH.ENTRYPOINTS = true
                          /\ contains
                               (strip (drop (length CH.ENTRYPOINTS) issue))
                               (lit "TODO") = true
                          /\ CH._has_entrypoint (CH.content f) (CH.suffix f)
                             = true))).
Proof.
  split; [|split; [|split]].
  - unfold CH.main. destruct (CH.incomplete_files files); auto.
  - rewrite <- omap_nonempty. unfold CH.main, CH.incomplete_files.
    destruct (omap CH.check_file files); split; congruence.
  - intros f Hrel. destruct (CH.check_file f) as [[rel issues]|] eqn:Hc;
      [|reflexivity].
    apply check_file_inv in Hc as (text & _ & _ & Hr & _). congruence.
  - intros f rel issues Hc.
    apply check_file_inv in Hc as (text & _ & Hcontent & _ & Hne & Hchk).
    exists text, (CH._extract_header_lines (splitlines false text)).
    split; [exact Hcontent|]. split; [reflexivity|]. split; [exact Hne|].
    unfold CH._check_header_incomplete, CH.HEADER_LINES in Hchk.
    split.
    + intros Hshort. apply Nat.ltb_lt in Hshort. rewrite Hshort in Hchk.
      congruence.
    + intros Hfull. apply Nat.ltb_ge in Hfull. rewrite Hfull in Hchk.
      injection Hchk as Hpos <-. split.
      * apply Nat.ltb_lt in Hpos. intros E. rewrite E in Hpos.
        simpl in Hpos. lia.
      * intros issue Hin. apply in_flat_map in Hin as (line & Hline & Hin).
        apply incomplete_field_inv in Hin as (-> & Hcases).
        split; [exists line; auto|].
        destruct Hcases as [(Hs & Hv & Hf)|(Hs & Hv & Hf)].
        -- destruct (key_funcs_not_exempt _ Hs) as [-> ->]. auto 10.
        -- destruct (entrypoints_not_exempt _ Hs) as [-> ->]. auto 10.
Qed.

Lemma checker_reports_witness :
  CH.main [unfilled_funcs] = 1%Z
  /\ CH.check_file unfilled_funcs
     = Some (lit "a.py", [lit "Key funcs: TODO"])
  /\ CH._has_functions (CH.content unfilled_funcs) (CH.suffix unfilled_funcs)
     = true.
Proof.
  destruct (checker_reports [unfilled_funcs]) as (_ & _ & _ & H).
  destruct (H unfilled_funcs (lit "a.py") [lit "Key funcs: TODO"])
    as (text & header & Hcontent & -> & _ & _ & Hfull);
    [vm_compute; reflexivity|].
  injection Hcontent as <-.
  destruct Hfull as (_ & Hissue); [vm_compute; lia|].
  destruct (Hissue (lit "Key funcs: TODO") (or_introl eq_refl))
    as (_ & _ & _ & [(_ & _ & H1)|(H1 & _)]).
  - split; [vm_compute; reflexivity|]. split; [vm_compute; reflexivity|].
    exact H1.
  - vm_compute in H1. discriminate.
Defined.

(** C9 as stated fails for a header window shorter than 20 lines: the file
    is reported, and the exit status is 1, although no Key funcs or
    Entrypoints line is involved and the file has neither a function nor an
    entrypoint. *)
Lemma checker_reports_counterexample :
  let header :=
    CH._extract_header_lines
      (splitlines false (default [] (CH.content marker_only))) in
  header = [lit "# @codex-header: v1 | 20 lines | keep updated"]
  /\ CH.check_file marker_only = Some (lit "a.py", [CH.NO_VALID_HEADER])
  /\ CH.main [marker_only] = 1%Z
  /\ startswith CH.NO_VALID_HEADER CH.KEY_FUNCS = false
  /\ startswith CH.NO_VALID_HEADER CH.ENTRYPOINTS = false
  /\ CH._has_functions (CH.content marker_only) (CH.suffix marker_only) = false
  /\ CH._has_entrypoint (CH.content marker_only) (CH.suffix marker_only)
     = false.
Proof. vm_compute. repeat split. Qed.

(** * Further properties *)

Lemma fmt_from_length (pairs : list (list N * Z)) (limit : nat) :
  forall seen out,
    (length out < limit)%nat ->
    (length (fmt_from pairs limit seen out) <= limit)%nat.
Proof.
  induction pairs as [|[name ln] pairs IH]; intros seen out Hlen;
    cbn [fmt_from]; [lia|].
  case_bool_decide; [apply IH, Hlen|].
  destruct (limit <=? _)%nat eqn:E.
  - rewrite length_app. cbn [length]. lia.
  - apply IH. apply Nat.leb_gt in E. exact E.
Qed.

(** X1.  Whatever the file, [_extract_symbols] lists at most 4 types, 6
    functions and 2 entrypoints. *)
Theorem extract_symbols_capped (suffix : list N) (body_lines : list (list N))
    (final_body_offset : Z) :
  (length (symbols_of TypeSym
             (_extract_symbols suffix body_lines final_body_offset)) <= 4)%nat
  /\ (length (symbols_of FuncSym
                (_extract_symbols suffix body_lines final_body_offset)) <= 6)%nat
  /\ (length (symbols_of EntrySym
                (_extract_symbols suffix body_lines final_body_offset)) <= 2)%nat.
Proof.
  unfold _extract_symbols, symbols_of, fmt. cbn [fst snd].
  repeat split; apply fmt_from_length; cbn [length]; lia.
Qed.

Lemma fmt_from_sublist (pairs : list (list N * Z)) (limit : nat) :
  forall seen out,
    exists sub,
      sublist sub pairs
      /\ NoDup sub.*1
      /\ (forall n, n ∈ sub.*1 -> n ∉ seen)
      /\ fmt_from pairs limit seen out = out ++ map ref_of sub.
Proof.
  induction pairs as [|[name ln] pairs IH]; intros seen out; cbn [fmt_from].
  - exists []. rewrite app_nil_r.
    split; [constructor|]. split; [constructor|]. split; [|reflexivity].
    intros n Hn. cbn in Hn. set_solver.
  - case_bool_decide as Hin.
    + destruct (IH seen out) as (sub & Hs & Hn & Hd & ->).
      exists sub. split; [apply sublist_cons, Hs|]. auto.
    + destruct (limit <=? _)%nat.
      * exists [(name, ln)].
        split; [apply sublist_skip, sublist_nil_l|].
        split; [cbn; apply NoDup_singleton|].
        split; [|reflexivity].
        intros n Hn. cbn in Hn. apply list_elem_of_singleton in Hn.
        subst. exact Hin.
      * destruct (IH ({[name]} ∪ seen) (out ++ [name ++ lit "@L" ++ dec ln]))
          as (sub & Hs & Hn & Hd & ->).
        exists ((name, ln) :: sub).
        split; [apply sublist_skip, Hs|].
        split.
        { cbn. apply NoDup_cons. split; [|exact Hn].
          intros Hc. apply Hd in Hc. set_solver. }
        split; [|rewrite <- app_assoc; reflexivity].
        intros n Hm. cbn in Hm.
        apply elem_of_cons in Hm as [->|Hm]; [exact Hin|].
        apply Hd in Hm. set_solver.
Qed.

Lemma scan_symbols_lookup (k : symkind) (suffix : list N) (body : list (list N)) :
  forall (idx off : Z) (name : list N) (ln : Z),
    (name, ln) ∈ scan_symbols k suffix body idx off ->
    exists (i : nat) (line : list N),
      body !! i = Some line
      /\ ln = (off + idx + Z.of_nat i)%Z
      /\ symbol_of_line suffix line = Some (k, name).
Proof.
  induction body as [|line body IH]; intros idx off name ln Hin;
    cbn [scan_symbols] in Hin; [set_solver|].
  assert ((name, ln) ∈ scan_symbols k suffix body (idx + 1) off ->
          exists (i : nat) (l : list N),
            (line :: body) !! i = Some l
            /\ ln = (off + idx + Z.of_nat i)%Z
            /\ symbol_of_line suffix l = Some (k, name)) as Hrest.
  { intros H. destruct (IH _ _ _ _ H) as (i & l & Hl & -> & Hs).
    exists (S i), l. repeat split; [exact Hl | lia | exact Hs]. }
  destruct (LONG_LINE <? len line)%Z; [auto|].
  destruct (symbol_of_line suffix line) as [[sk nm]|] eqn:Es; [|auto].
  destruct sk, k; auto;
    (apply elem_of_cons in Hin as [Heq|Hin]; [|auto]);
    injection Heq as -> ->; exists 0%nat, line;
    (split; [reflexivity|]); (split; [lia | exact Es]).
Qed.

(** X2.  Every reference [Name@L<n>] that [_extract_symbols] returns for the
    offset [len(prolog) + 20] points at line [n] of the file as it is laid
    out (prolog, 20 header lines, body), and that line is the body line on
    which the patterns of the language recognise [Name] as a symbol of that
    kind. *)
Theorem symbol_refs_point_at_lines (k : symkind) (suffix : list N)
    (prolog header body : list (list N)) (e : list N) :
  length header = HEADER_LINES ->
  e ∈ symbols_of k
        (_extract_symbols suffix body (len prolog + Z.of_nat HEADER_LINES)) ->
  exists (name : list N) (n : nat) (line : list N),
    e = name ++ lit "@L" ++ dec (Z.of_nat n)
    /\ (1 <= n)%nat
    /\ (prolog ++ header ++ body) !! (n - 1)%nat = Some line
    /\ symbol_of_line suffix line = Some (k, name).
Proof.
  intros Hh He.
  assert (exists limit,
            e ∈ fmt (scan_symbols k suffix body 1
                       (len prolog + Z.of_nat HEADER_LINES)) limit)
    as (limit & Hin).
  { unfold _extract_symbols, symbols_of in He. destruct k; cbn [fst snd] in He;
      eauto. }
  unfold fmt in Hin.
  destruct (fmt_from_sublist
              (scan_symbols k suffix body 1 (len prolog + Z.of_nat HEADER_LINES))
              limit ∅ []) as (sub & Hsub & _ & _ & Heq).
  rewrite Heq in Hin. cbn [app] in Hin.
  apply list_elem_of_fmap in Hin as ([name ln] & -> & Hp).
  apply (elem_of_sublist _ _ _ Hp) in Hsub as Hq. clear Hp; rename Hq into Hp.
  apply scan_symbols_lookup in Hp as (i & line & Hl & -> & Hs).
  exists name, (length prolog + HEADER_LINES + 1 + i)%nat, line.
  repeat split.
  - unfold ref_of, len. cbn [fst snd]. do 3 f_equal. lia.
  - lia.
  - rewrite lookup_app_r by lia. rewrite lookup_app_r by lia.
    rewrite <- Hl. f_equal. lia.
  - exact Hs.
Qed.

(** X3.  The references of one kind follow the order of the file and no
    name is listed twice: they are the references of a sub-sequence of the
    scanned declarations whose names are pairwise distinct. *)
Theorem extract_symbols_distinct (k : symkind) (suffix : list N)
    (body_lines : list (list N)) (final_body_offset : Z) :
  exists sub,
    sublist sub (scan_symbols k suffix body_lines 1 final_body_offset)
    /\ NoDup sub.*1
    /\ symbols_of k (_extract_symbols suffix body_lines final_body_offset)
       = map ref_of sub.
Proof.
  assert (exists limit,
            symbols_of k (_extract_symbols suffix body_lines final_body_offset)
            = fmt (scan_symbols k suffix body_lines 1 final_body_offset) limit)
    as (limit & ->).
  { unfold _extract_symbols, symbols_of. destruct k; cbn [fst snd]; eauto. }
  destruct (fmt_from_sublist
              (scan_symbols k suffix body_lines 1 final_body_offset) limit ∅ [])
    as (sub & Hsub & Hnd & _ & Heq).
  exists sub. auto.
Qed.

Lemma type_pair_symbol (suffix line : list N) :
  type_pair_of_line suffix line
  = match symbol_of_line suffix line with
    | Some (TypeSym, name) => Some name
    | _ => None
    end.
Proof.
  unfold type_pair_of_line, symbol_of_line, js_function.
  repeat match goal with
         | |- context [if ?b then _ else _] => destruct b
         | |- context [match rmatch ?r ?l with _ => _ end] =>
             destruct (rmatch r l)
         | |- context [match first_match ?r ?l with _ => _ end] =>
             destruct (first_match r l)
         | |- context [match first_group ?m ?a ?b with _ => _ end] =>
             destruct (first_group m a b)
         end; reflexivity.
Qed.

Lemma scan_type_pairs_symbols (suffix : list N) (body_lines : list (list N))
    (final_body_offset : Z) :
  _scan_type_pairs suffix body_lines final_body_offset
  = scan_symbols TypeSym suffix body_lines 1 final_body_offset.
Proof.
  unfold _scan_type_pairs. generalize 1%Z as idx.
  induction body_lines as [|line body IH]; intros idx;
    cbn [scan_type_pairs_from scan_symbols]; [reflexivity|].
  rewrite IH, type_pair_symbol.
  destruct (LONG_LINE <? len line)%Z; [reflexivity|].
  destruct (symbol_of_line suffix line) as [[[| |] nm]|]; reflexivity.
Qed.

(** X4.  The types listed in the header are the first four distinct names of
    what [_scan_type_pairs] records for the cross-file index: the two scans
    read the same declarations. *)
Theorem key_types_from_scan (suffix : list N) (body_lines : list (list N))
    (final_body_offset : Z) :
  symbols_of TypeSym (_extract_symbols suffix body_lines final_body_offset)
  = fmt (_scan_type_pairs suffix body_lines final_body_offset) 4.
Proof. rewrite scan_type_pairs_symbols. reflexivity. Qed.

Lemma add_edges_length (child_ref : list N) (bases : list (list N * list N))
    (tl : gmap (list N) Z) (ti : option (gmap (list N) (list (list N * Z)))) :
  forall edges,
    (length edges < MAX_INHERIT_EDGES)%nat ->
    let r := add_edges child_ref bases tl ti edges in
    (length r.1 <= MAX_INHERIT_EDGES)%nat
    /\ (r.2 = false -> (length r.1 < MAX_INHERIT_EDGES)%nat).
Proof.
  induction bases as [|[rel parent] bases IH]; intros edges Hlen;
    cbn [add_edges].
  - cbn. lia.
  - destruct (negb (truthy parent)); [apply IH, Hlen|].
    destruct (MAX_INHERIT_EDGES <=? _)%nat eqn:E.
    + cbn [fst snd]. rewrite length_app. cbn [length]. split; [lia|discriminate].
    + apply IH. apply Nat.leb_gt in E. exact E.
Qed.

Lemma inheritance_edges_length (suffix : list N) (body : list (list N))
    (off : Z) (tl : gmap (list N) Z)
    (ti : option (gmap (list N) (list (list N * Z)))) :
  forall idx edges,
    (length edges < MAX_INHERIT_EDGES)%nat ->
    (length (inheritance_edges suffix body idx off tl ti edges)
     <= MAX_INHERIT_EDGES)%nat.
Proof.
  induction body as [|line body IH]; intros idx edges Hlen;
    cbn [inheritance_edges]; [lia|].
  destruct (line_bases suffix line tl) as [child bases].
  destruct (_ || _); [apply IH, Hlen|].
  pose proof (add_edges_length
                (child ++ lit "@L" ++ dec (default (off + idx)%Z (tl !! child)))
                bases tl ti edges Hlen) as [H1 H2].
  destruct (add_edges _ bases tl ti edges) as [edges' stop].
  cbn [fst snd] in *. destruct stop; [exact H1|].
  apply IH. auto.
Qed.

(** X5.  [_extract_inheritance] returns at most [MAX_INHERIT_EDGES] = 6
    edges. *)
Theorem extract_inheritance_capped (suffix : list N)
    (body_lines : list (list N)) (final_body_offset : Z)
    (type_index : option (gmap (list N) (list (list N * Z)))) :
  (length (_extract_inheritance suffix body_lines final_body_offset type_index)
   <= 6)%nat.
Proof.
  unfold _extract_inheritance.
  apply (inheritance_edges_length suffix body_lines final_body_offset).
  unfold MAX_INHERIT_EDGES. cbn [length]. lia.
Qed.

Lemma type_lines_none (suffix : list N) (body : list (list N)) (off : Z) :
  is_python suffix = false -> is_js_like suffix = false ->
  is_java_kt suffix = false -> str_eqb suffix (lit ".cs") = false ->
  forall idx acc, type_lines suffix body idx off acc = acc.
Proof.
  intros H1 H2 H3 H4.
  induction body as [|line body IH]; intros idx acc; cbn [type_lines];
    [reflexivity|].
  unfold declared_type. rewrite H1, H2, H3, H4. apply IH.
Qed.

Lemma line_bases_none (suffix line : list N) :
  is_python suffix = false -> is_js_like suffix = false ->
  is_java_kt suffix = false -> str_eqb suffix (lit ".cs") = false ->
  line_bases suffix line ∅ = ([], []).
Proof.
  intros H1 H2 H3 H4. unfold line_bases. rewrite H1, H2, H4.
  assert (str_eqb suffix (lit ".java") = false) as ->.
  { apply str_eqb_neq. intros ->. discriminate. }
  assert (str_eqb suffix (lit ".kt") = false) as ->.
  { apply str_eqb_neq. intros ->. discriminate. }
  destruct (str_eqb suffix (lit ".rs")); [|reflexivity].
  destruct (rmatch _RE_RS_IMPL_FOR line); [|reflexivity].
  rewrite lookup_empty.
  rewrite (bool_decide_eq_false_2 (is_Some None)) by (intros [? [=]]).
  rewrite andb_false_r. reflexivity.
Qed.

(** X6.  Outside Python, JavaScript and TypeScript, Java, Kotlin and C# no
    edge is ever produced.  This includes Rust: the first loop records no
    type for [.rs], so that the test [impl_for in type_line_by_name] of the
    Rust branch never holds. *)
Theorem extract_inheritance_none (suffix : list N)
    (body_lines : list (list N)) (final_body_offset : Z)
    (type_index : option (gmap (list N) (list (list N * Z)))) :
  is_python suffix = false -> is_js_like suffix = false ->
  is_java_kt suffix = false -> suffix <> lit ".cs" ->
  _extract_inheritance suffix body_lines final_body_offset type_index = [].
Proof.
  intros H1 H2 H3 H4. apply str_eqb_neq in H4.
  unfold _extract_inheritance. rewrite type_lines_none by assumption.
  generalize 1%Z as idx.
  induction body_lines as [|line body IH]; intros idx;
    cbn [inheritance_edges]; [reflexivity|].
  rewrite line_bases_none by assumption. cbn. apply IH.
Qed.

Lemma generic_or_call_class :
  _RE_GENERIC_OR_CALL = Cls false [CChar 60; CChar 40].
Proof. reflexivity. Qed.

Lemma before_match_class (items : list citem) (s : list N) :
  forall prev,
    Forall (fun c => cls_matches false items c = false)
      (before_match (Cls false items) prev s).
Proof.
  induction s as [|c s IH]; intros prev; cbn [before_match run].
  - constructor.
  - destruct (cls_matches false items c) eqn:E; constructor; auto.
Qed.

Lemma strip_Forall (P : N -> Prop) (s : list N) :
  Forall P s -> Forall P (strip s).
Proof. intros H. apply rstrip_by_Forall, lstrip_by_Forall, H. Qed.

Lemma find_single_before (c : N) (s : list N) :
  forall i, find s [c] = Some i ->
            (i < length s)%nat /\ Forall (fun x => x <> c) (take i s).
Proof.
  induction s as [|x s IH]; intros i; cbn [find startswith].
  - discriminate.
  - destruct (c =? x) eqn:E; cbn [andb].
    + intros [= <-]. cbn. split; [lia|constructor].
    + destruct (find s [c]) as [j|] eqn:Ej; [|discriminate].
      intros [= <-]. destruct (IH j eq_refl) as [Hj Hf].
      cbn [length take]. split; [lia|]. constructor; [|exact Hf].
      apply N.eqb_neq in E. congruence.
Qed.

Lemma find_single_none (c : N) (s : list N) :
  find s [c] = None -> Forall (fun x => x <> c) s.
Proof.
  induction s as [|x s IH]; cbn [find startswith]; [constructor|].
  destruct (c =? x) eqn:E; cbn [andb]; [discriminate|].
  destruct (find s [c]) eqn:Ej; [discriminate|].
  intros _. apply N.eqb_neq in E.
  constructor; [congruence | apply IH; reflexivity].
Qed.

Lemma after_last_single (c : N) (s : list N) :
  Forall (fun x => x <> c) (after_last [c] s).
Proof.
  unfold after_last. cbn [rev app].
  destruct (find (rev s) [c]) as [i|] eqn:E.
  - apply find_single_before in E as [Hi Hf].
    rewrite length_rev in Hi.
    rewrite firstn_rev in Hf. apply Forall_rev in Hf.
    rewrite rev_involutive in Hf. exact Hf.
  - apply find_single_none in E. apply Forall_rev in E.
    rewrite rev_involutive in E. exact E.
Qed.

Lemma after_last_Forall (P : N -> Prop) (sep s : list N) :
  Forall P s -> Forall P (after_last sep s).
Proof.
  intros H. unfold after_last. destruct (find _ _); [|exact H].
  apply Forall_drop, H.
Qed.

Lemma contains_single_false (c : N) (s : list N) :
  contains s [c] = false -> Forall (fun x => x <> c) s.
Proof.
  induction s as [|x s IH]; cbn [contains startswith]; [constructor|].
  destruct (c =? x) eqn:E; cbn [andb orb]; [discriminate|].
  intros H. apply N.eqb_neq in E.
  constructor; [congruence | apply IH, H].
Qed.

(** X7.  A cleaned base name contains no dot, no [<] and no opening
    parenthesis. *)
Theorem clean_base_name_plain (s : list N) :
  Forall (fun c => c <> 46 /\ c <> 60 /\ c <> 40) (_clean_base_name s).
Proof.
  unfold _clean_base_name.
  destruct (negb (truthy (strip s))); [constructor|].
  assert (Forall (fun c => c <> 60 /\ c <> 40)
            (strip (before_generic (strip s)))) as Hg.
  { apply strip_Forall. unfold before_generic. rewrite generic_or_call_class.
    eapply Forall_impl; [apply before_match_class|].
    intros c Hc. unfold cls_matches in Hc. cbn in Hc.
    rewrite orb_false_r in Hc. apply orb_false_iff in Hc as [H1 H2].
    split; apply N.eqb_neq; assumption. }
  destruct (contains _ (lit ".")) eqn:E.
  - apply Forall_and. split; [apply (after_last_single 46)|].
    apply after_last_Forall, Hg.
  - apply Forall_and. split; [|exact Hg].
    apply (contains_single_false 46), E.
Qed.

(** ** Stripping *)

Lemma lstrip_by_stripped (p : N -> bool) (s : list N) :
  match lstrip_by p s with [] => True | c :: _ => p c = false end.
Proof.
  induction s as [|c s IH]; cbn [lstrip_by]; [exact I|].
  destruct (p c) eqn:E; [exact IH | exact E].
Qed.

Lemma lstrip_by_idem (p : N -> bool) (s : list N) :
  lstrip_by p (lstrip_by p s) = lstrip_by p s.
Proof.
  pose proof (lstrip_by_stripped p s) as H.
  destruct (lstrip_by p s) as [|c r]; [reflexivity|].
  apply lstrip_by_head, H.
Qed.

Lemma rstrip_by_idem (p : N -> bool) (s : list N) :
  rstrip_by p (rstrip_by p s) = rstrip_by p s.
Proof. unfold rstrip_by. rewrite rev_involutive, lstrip_by_idem. reflexivity. Qed.

Lemma lstrip_by_snoc (p : N -> bool) (s : list N) (c : N) :
  p c = false -> lstrip_by p (s ++ [c]) = lstrip_by p s ++ [c].
Proof.
  intros Hc. induction s as [|x s IH]; cbn [app lstrip_by].
  - rewrite Hc. reflexivity.
  - destruct (p x); [exact IH | reflexivity].
Qed.

Lemma rstrip_by_cons (p : N -> bool) (c : N) (s : list N) :
  p c = false -> rstrip_by p (c :: s) = c :: rstrip_by p s.
Proof.
  intros Hc. unfold rstrip_by. cbn [rev].
  rewrite lstrip_by_snoc by exact Hc. apply rev_unit.
Qed.

Lemma rstrip_by_snoc (p : N -> bool) (s : list N) (c : N) :
  p c = false -> rstrip_by p (s ++ [c]) = s ++ [c].
Proof. intros Hc. apply (rstrip_by_last p _ c); [apply last_snoc | exact Hc]. Qed.

(** What [rstrip] keeps is a prefix of the text. *)
Lemma rstrip_by_take (p : N -> bool) (s : list N) :
  exists k, rstrip_by p s = take k s.
Proof.
  unfold rstrip_by.
  assert (forall t, exists k, lstrip_by p t = drop k t) as Hl.
  { induction t as [|c t [k Hk]]; cbn [lstrip_by]; [exists 0%nat; reflexivity|].
    destruct (p c); [exists (S k); exact Hk | exists 0%nat; reflexivity]. }
  destruct (Hl (rev s)) as [k ->].
  exists (length s - k)%nat.
  rewrite skipn_rev, rev_involutive. reflexivity.
Qed.

Lemma strip_idem (s : list N) : strip (strip s) = strip s.
Proof.
  unfold strip, lstrip, rstrip.
  pose proof (lstrip_by_stripped isspace s) as H.
  destruct (lstrip_by isspace s) as [|c r]; [reflexivity|].
  rewrite (rstrip_by_cons _ _ _ H), (lstrip_by_head _ _ _ H).
  rewrite <- (rstrip_by_cons _ _ _ H). apply rstrip_by_idem.
Qed.

(** A stripped text begins and ends with a character that is not
    whitespace. *)
Lemma strip_ends (s : list N) :
  match strip s with [] => True | c :: _ => isspace c = false end
  /\ match last (strip s) with None => True | Some c => isspace c = false end.
Proof.
  unfold strip, lstrip, rstrip. split.
  - pose proof (lstrip_by_stripped isspace s) as H.
    destruct (lstrip_by isspace s) as [|c r]; [exact I|].
    rewrite (rstrip_by_cons _ _ _ H). exact H.
  - unfold rstrip_by.
    pose proof (lstrip_by_stripped isspace (rev (lstrip_by isspace s))) as H.
    destruct (lstrip_by isspace (rev (lstrip_by isspace s))) as [|c r];
      [exact I|].
    cbn [rev]. rewrite last_snoc. exact H.
Qed.

Lemma strip_fixed (s : list N) :
  match s with [] => True | c :: _ => isspace c = false end ->
  match last s with None => True | Some c => isspace c = false end ->
  strip s = s.
Proof.
  intros Hh Hl. unfold strip, lstrip, rstrip.
  destruct s as [|c r]; [reflexivity|].
  rewrite (lstrip_by_head _ _ _ Hh).
  destruct (last (c :: r)) as [d|] eqn:E.
  - apply (rstrip_by_last _ _ d E Hl).
  - apply last_None in E. discriminate.
Qed.

(** ** Splitting *)

Lemma split_fuel_Forall (P : N -> Prop) (sep : list N) :
  forall fuel s, Forall P s -> Forall (Forall P) (split_fuel fuel sep s).
Proof.
  induction fuel as [|fuel IH]; intros s Hs; cbn [split_fuel].
  - constructor; [exact Hs | constructor].
  - destruct (find s sep) as [i|].
    + constructor; [apply Forall_take, Hs | apply IH, Forall_drop, Hs].
    + constructor; [exact Hs | constructor].
Qed.

(** With enough fuel no piece contains the separator character. *)
Lemma split_single (c : N) :
  forall fuel s,
    (length s < fuel)%nat ->
    Forall (Forall (fun x => x <> c)) (split_fuel fuel [c] s).
Proof.
  induction fuel as [|fuel IH]; intros s Hlen; [lia|]. cbn [split_fuel].
  destruct (find s [c]) as [i|] eqn:E.
  - apply find_single_before in E as [Hi Hf].
    constructor; [exact Hf|]. apply IH. rewrite length_drop.
    cbn [length] in *. lia.
  - constructor; [apply find_single_none, E | constructor].
Qed.

(** The text before the first occurrence of a separator character. *)
Lemma split_first_single (c : N) (s : list N) :
  Forall (fun x => x <> c) (nth 0 (split_max [c] s 1) []).
Proof.
  unfold split_max. cbn [split_fuel].
  destruct (find s [c]) as [i|] eqn:E; cbn [nth].
  - apply find_single_before in E as [_ Hf]. exact Hf.
  - apply find_single_none, E.
Qed.

Lemma split_first_Forall (P : N -> Prop) (sep s : list N) :
  Forall P s -> Forall P (nth 0 (split_max sep s 1) []).
Proof.
  intros Hs. unfold split_max. cbn [split_fuel].
  destruct (find s sep); cbn [nth]; [apply Forall_take, Hs | exact Hs].
Qed.

(** X8.  Every item of [_split_supertype_list] is non-empty, has no
    whitespace around it and contains neither a comma nor an opening
    brace. *)
Theorem split_supertype_list_items (raw : list N) :
  Forall (fun p => p <> [] /\ strip p = p
                   /\ Forall (fun c => c <> 44 /\ c <> 123) p)
    (_split_supertype_list raw).
Proof.
  unfold _split_supertype_list.
  set (r1 := strip (nth 0 (split_max (lit "{") (strip raw) 1) [])).
  set (r2 := strip (nth 0 (split_max (lit "where") r1 1) [])).
  destruct (negb (truthy r2)); [constructor|].
  assert (Forall (fun c => c <> 123) r2) as Hb.
  { apply strip_Forall, split_first_Forall, strip_Forall.
    apply (split_first_single 123). }
  apply List.Forall_forall. intros p Hp.
  apply filter_In in Hp as [Hp Ht].
  apply in_map_iff in Hp as (q & <- & Hq).
  split; [intros E; rewrite E in Ht; discriminate|].
  split; [apply strip_idem|].
  apply strip_Forall.
  pose proof (split_single 44 (S (length r2)) r2 (Nat.lt_succ_diag_r _)) as Hc.
  pose proof (split_fuel_Forall (fun c => c <> 123) (lit ",") (S (length r2))
                r2 Hb) as Hd.
  rewrite List.Forall_forall in Hc, Hd.
  apply Forall_and. split; [apply (Hc q Hq) | apply (Hd q Hq)].
Qed.

(** ** Rendering a rendered value *)

Lemma collapse_from_length (b : bool) (s : list N) :
  (length (collapse_from b s) <= length s)%nat.
Proof.
  revert b. induction s as [|c s IH]; intros b; cbn [collapse_from length];
    [lia|].
  destruct (isspace c), b; cbn [length];
    try (pose proof (IH true)); try (pose proof (IH false)); lia.
Qed.

Lemma collapse_from_idem (s : list N) :
  forall b, collapse_from b (collapse_from b s) = collapse_from b s.
Proof.
  induction s as [|c s IH]; intros b; cbn [collapse_from]; [reflexivity|].
  destruct (isspace c) eqn:Hc.
  - destruct b; [apply IH|].
    cbn [collapse_from].
    change (isspace SPACE) with true. cbn iota. rewrite IH. reflexivity.
  - cbn [collapse_from]. rewrite Hc, IH. reflexivity.
Qed.

Lemma collapse_from_snoc (s : list N) (c : N) :
  isspace c = false ->
  forall b, collapse_from b (s ++ [c]) = collapse_from b s ++ [c].
Proof.
  intros Hc. induction s as [|x s IH]; intros b; cbn [app collapse_from].
  - rewrite Hc. reflexivity.
  - destruct (isspace x); [destruct b|]; rewrite IH; reflexivity.
Qed.

Lemma collapse_from_take (t : list N) :
  forall b n, collapse_from b t = t ->
              collapse_from b (take n t) = take n t.
Proof.
  induction t as [|c t IH]; intros b n H; [destruct n; reflexivity|].
  destruct n as [|n]; [reflexivity|].
  cbn [take collapse_from] in *.
  destruct (isspace c) eqn:Hc.
  - destruct b.
    + pose proof (collapse_from_length true t) as Hl.
      rewrite H in Hl. cbn [length] in Hl. lia.
    + injection H as H1 H2. rewrite IH by exact H2. rewrite H1. reflexivity.
  - injection H as H2. rewrite IH by exact H2. reflexivity.
Qed.

Lemma collapse_ws_ends (x : list N) :
  match x with [] => True | c :: _ => isspace c = false end ->
  match last x with None => True | Some c => isspace c = false end ->
  strip (collapse_ws x) = collapse_ws x.
Proof.
  intros Hh Hl. apply strip_fixed.
  - destruct x as [|c r]; [exact I|].
    unfold collapse_ws. cbn [collapse_from]. rewrite Hh. exact Hh.
  - destruct (decide (x = [])) as [->|Hne]; [exact I|].
    destruct (exists_last Hne) as (r & d & ->).
    rewrite last_snoc in Hl. unfold collapse_ws.
    rewrite collapse_from_snoc by exact Hl. rewrite last_snoc. exact Hl.
Qed.

Lemma normalized_idem (s : list N) : normalized (normalized s) = normalized s.
Proof.
  unfold normalized.
  destruct (strip_ends s) as [Hh Hl].
  rewrite (collapse_ws_ends _ Hh Hl).
  unfold collapse_ws. apply collapse_from_idem.
Qed.

Lemma normalized_head (s : list N) (c : N) (r : list N) :
  normalized s = c :: r -> isspace c = false.
Proof.
  unfold normalized, collapse_ws. destruct (strip_ends s) as [Hh _].
  destruct (strip s) as [|d t]; [discriminate|].
  cbn [collapse_from]. rewrite Hh. intros [= <- _]. exact Hh.
Qed.

Lemma normalized_collapsed (s : list N) :
  collapse_from false (normalized s) = normalized s.
Proof. unfold normalized, collapse_ws. apply collapse_from_idem. Qed.

Lemma ellipsis_not_space : isspace ELLIPSIS = false.
Proof. reflexivity. Qed.

Lemma normalized_cut (s : list N) (n : nat) :
  (0 < n)%nat -> normalized s <> [] ->
  normalized (rstrip (take n (normalized s)) ++ [ELLIPSIS])
  = rstrip (take n (normalized s)) ++ [ELLIPSIS].
Proof.
  intros Hn Hne.
  destruct (normalized s) as [|c r] eqn:Et; [congruence|].
  pose proof (normalized_head s c r Et) as Hc.
  pose proof (normalized_collapsed s) as Hcol. rewrite Et in Hcol.
  destruct n as [|n]; [lia|]. cbn [take]. unfold rstrip.
  rewrite (rstrip_by_cons _ _ _ Hc).
  unfold normalized.
  rewrite strip_fixed.
  - unfold collapse_ws.
    rewrite collapse_from_snoc by exact ellipsis_not_space.
    f_equal.
    destruct (rstrip_by_take isspace (take n r)) as [k Hk].
    rewrite Hk.
    change (c :: take k (take n r)) with (take (S k) (take (S n) (c :: r))).
    apply collapse_from_take, collapse_from_take, Hcol.
  - exact Hc.
  - change (c :: rstrip_by isspace (take n r) ++ [ELLIPSIS])
      with ((c :: rstrip_by isspace (take n r)) ++ [ELLIPSIS]).
    rewrite last_snoc. exact ellipsis_not_space.
Qed.

(** A rendered value is its own normal form. *)
Lemma truncate_is_normalized (s : list N) (mw : Z) :
  (0 <= mw)%Z -> normalized (_truncate s mw) = _truncate s mw.
Proof.
  intros Hmw. rewrite (truncate_normalized s mw).
  destruct (len (normalized s) <=? mw)%Z eqn:E1; [apply normalized_idem|].
  apply Z.leb_gt in E1.
  destruct (mw <=? 1)%Z eqn:E2.
  - apply Z.leb_le in E2. unfold slice_to.
    rewrite (proj2 (Z.leb_le 0 mw) Hmw).
    destruct (normalized s) as [|c r] eqn:Et.
    + rewrite take_nil. reflexivity.
    + pose proof (normalized_head s c r Et) as Hc.
      assert (mw = 0 \/ mw = 1)%Z as [-> | ->] by lia; [reflexivity|].
      cbn [Z.to_nat Pos.to_nat Pos.iter_op Nat.add take].
      apply normalized_no_space. constructor; [exact Hc | constructor].
  - apply Z.leb_gt in E2. unfold slice_to.
    rewrite (proj2 (Z.leb_le 0 (mw - 1))) by lia.
    apply normalized_cut; [lia|].
    intros E. rewrite E in E1. unfold len in E1. cbn in E1. lia.
Qed.

(** X9.  For a width that is not negative, rendering a rendered value again
    changes nothing. *)
Theorem truncate_idempotent (s : list N) (mw : Z) :
  (0 <= mw)%Z -> _truncate (_truncate s mw) mw = _truncate s mw.
Proof.
  intros Hmw.
  rewrite (truncate_fits (_truncate s mw) mw);
    rewrite (truncate_is_normalized s mw Hmw);
    [reflexivity | apply truncate_le, Hmw].
Qed.

Lemma docstring_body_truncated (quote : list N) (following : list (list N)) :
  forall collected d,
    docstring_body quote following collected = Some d ->
    exists x, d = _truncate x 300.
Proof.
  induction following as [|ln more IH]; intros collected d;
    cbn [docstring_body]; [discriminate|].
  destruct (contains ln quote); [intros [= <-]; eauto | apply IH].
Qed.

Lemma peek_docstring_truncated (lines : list (list N)) (d : list N) :
  _peek_py_module_docstring lines = Some d -> exists x, d = _truncate x 300.
Proof.
  unfold _peek_py_module_docstring.
  destruct (lines !! _) as [l|]; [|discriminate].
  destruct (startswith (lstrip l) TRIPLE_DQ).
  - destruct (_ && _); [intros [= <-]; eauto | apply docstring_body_truncated].
  - destruct (startswith (lstrip l) TRIPLE_SQ); [|discriminate].
    destruct (_ && _); [intros [= <-]; eauto | apply docstring_body_truncated].
Qed.

Lemma count_while_all {A} (p : A -> bool) (l : list A) :
  Forall (fun x => p x = true) l -> count_while p l = length l.
Proof.
  induction 1 as [|x l Hx _ IH]; cbn [count_while length]; [reflexivity|].
  rewrite Hx, IH. reflexivity.
Qed.

(** X10.  The docstring hint, when there is one, is a single line of at most
    300 characters in normal form (stripped, single spaces); there is none
    when all the lines are blank. *)
Theorem peek_docstring_hint (lines : list (list N)) :
  (forall d, _peek_py_module_docstring lines = Some d ->
             (len d <= 300)%Z /\ no_linebreak d /\ normalized d = d)
  /\ (Forall (fun l => is_blank l = true) lines ->
      _peek_py_module_docstring lines = None).
Proof.
  split.
  - intros d Hd. apply peek_docstring_truncated in Hd as [x ->].
    split; [apply truncate_le; lia|].
    split; [apply truncate_no_linebreak | apply truncate_is_normalized; lia].
  - intros Hb. unfold _peek_py_module_docstring.
    rewrite (count_while_all _ _ Hb).
    rewrite lookup_ge_None_2 by lia. reflexivity.
Qed.

(** ** Fields read from a header *)

Lemma prefixes_end_in_colon :
  Forall (fun prefix => but_last prefix ++ lit ":" = prefix)
    _HEADER_FIELD_PREFIXES.
Proof. repeat constructor. Qed.

Lemma matching_prefix_inv (clean prefix : list N) :
  matching_prefix clean = Some prefix ->
  prefix ∈ _HEADER_FIELD_PREFIXES /\ startswith clean prefix = true.
Proof.
  unfold matching_prefix. intros H. apply find_some in H as [H1 H2].
  split; [apply list_elem_of_In, H1 | exact H2].
Qed.

(** X11.  Every entry of [_parse_existing_header_fields] has one of the 19
    field names as its key and a stripped value, and comes from a header line
    whose cleaned text starts with the key and a colon: the value is the
    stripped rest of that line. *)
Theorem parsed_fields_sound (header_lines : list (list N)) (k v : list N) :
  _parse_existing_header_fields header_lines !! k = Some v ->
  k ++ lit ":" ∈ _HEADER_FIELD_PREFIXES
  /\ strip v = v
  /\ exists ln,
       ln ∈ header_lines
       /\ startswith (_strip_header_comment_syntax ln) (k ++ lit ":") = true
       /\ v = strip (drop (length k + 1)
                       (_strip_header_comment_syntax ln)).
Proof.
  unfold _parse_existing_header_fields.
  assert (forall (ls : list (list N)) (acc : gmap (list N) (list N)),
            (forall k v, acc !! k = Some v ->
               k ++ lit ":" ∈ _HEADER_FIELD_PREFIXES
               /\ strip v = v
               /\ exists ln,
                    ln ∈ header_lines
                    /\ startswith (_strip_header_comment_syntax ln)
                         (k ++ lit ":") = true
                    /\ v = strip (drop (length k + 1)
                                    (_strip_header_comment_syntax ln))) ->
            (forall ln, ln ∈ ls -> ln ∈ header_lines) ->
            forall k v, foldl parse_header_line acc ls !! k = Some v ->
               k ++ lit ":" ∈ _HEADER_FIELD_PREFIXES
               /\ strip v = v
               /\ exists ln,
                    ln ∈ header_lines
                    /\ startswith (_strip_header_comment_syntax ln)
                         (k ++ lit ":") = true
                    /\ v = strip (drop (length k + 1)
                                    (_strip_header_comment_syntax ln))) as Hfold.
  { induction ls as [|ln ls IH]; intros acc Hacc Hsub; [exact Hacc|].
    cbn [foldl]. apply IH; [|intros l Hl; apply Hsub; right; exact Hl].
    intros k' v'. unfold parse_header_line.
    destruct (matching_prefix _) as [prefix|] eqn:Em; [|apply Hacc].
    apply matching_prefix_inv in Em as [Hin Hst].
    pose proof prefixes_end_in_colon as Hcol.
    rewrite Forall_forall in Hcol. specialize (Hcol _ Hin).
    intros Hl. apply lookup_insert_Some in Hl as [[<- <-]|[_ Hl]];
      [|apply Hacc, Hl].
    rewrite Hcol. split; [exact Hin|]. split; [apply strip_idem|].
    exists ln. split; [apply Hsub; left|]. split; [exact Hst|].
    do 2 f_equal. rewrite <- Hcol at 1. rewrite length_app. reflexivity. }
  apply Hfold; [|auto].
  intros k' v' H. rewrite lookup_empty in H. discriminate.
Qed.

(** ** A rendered header is found again *)

Lemma truncate_marker_field (mw : Z) :
  (18 <= mw)%Z -> contains (_truncate marker_field mw) CODEX_MARKER = true.
Proof.
  intros H.
  destruct (Z_lt_le_dec mw 43) as [Hlt|Hge].
  - assert (exists k, (k < 25)%nat /\ mw = (18 + Z.of_nat k)%Z) as (k & Hk & ->).
    { exists (Z.to_nat (mw - 18)). lia. }
    do 25 (destruct k as [|k]; [vm_compute; reflexivity|]). lia.
  - rewrite truncate_fits; [reflexivity|].
    change (len (normalized marker_field)) with 43%Z. exact Hge.
Qed.

Lemma contains_prefix_app (p s sub : list N) :
  contains s sub = true -> contains (p ++ s) sub = true.
Proof.
  intros H. apply contains_inv in H as (a & b & ->).
  rewrite app_assoc. apply contains_app.
Qed.

Lemma contains_app_suffix (s t sub : list N) :
  contains s sub = true -> contains (s ++ t) sub = true.
Proof.
  intros H. apply contains_inv in H as (a & b & ->).
  rewrite <- !app_assoc. apply contains_app.
Qed.

Lemma ensure_newline_contains (l sub : list N) :
  contains l sub = true -> contains (ensure_newline l) sub = true.
Proof.
  intros H. unfold ensure_newline.
  destruct (endswith l [NL]); [exact H | apply contains_app_suffix, H].
Qed.

Lemma first_item_block_fields (m x : list N) (more : list (list N)) :
  first_item (block_fields (m :: x :: more)) = m.
Proof.
  unfold block_fields, HEADER_LINES.
  destruct (20 <? length (m :: x :: more))%nat eqn:E1.
  - assert (length (take (20 - 1) (m :: x :: more)
                    ++ [last_item (m :: x :: more)]) = 20%nat) as L.
    { apply Nat.ltb_lt in E1. rewrite length_app, length_take.
      cbn [length] in *. lia. }
    rewrite L, Nat.ltb_irrefl. reflexivity.
  - destruct (length (m :: x :: more) <? 20)%nat; reflexivity.
Qed.

(** Some line of a header rendered from fields that begin with the marker
    field holds the marker. *)
Lemma render_holds_marker (style : CommentStyle) (more : list (list N))
    (mw : Z) :
  (18 <= mw)%Z ->
  existsb (fun ln => contains ln CODEX_MARKER)
    (_render_header_lines style (marker_field :: more) mw) = true.
Proof.
  intros Hw. pose proof (truncate_marker_field mw Hw) as Hm.
  apply existsb_exists.
  destruct (decide (kind style = Block)) as [Hb|Hb].
  - rewrite (render_block _ _ _ Hb).
    destruct more as [|x more].
    + eexists. split; [apply in_or_app; right; apply in_or_app; right; left;
                        reflexivity|].
      rewrite (last_item_last _ marker_field)
        by (apply block_fields_last; reflexivity).
      apply contains_prefix_app, contains_app_suffix, Hm.
    + eexists. split; [left; reflexivity|].
      rewrite first_item_block_fields.
      apply contains_prefix_app, contains_prefix_app, Hm.
  - rewrite (render_line _ _ _ Hb). cbn [map]. unfold HEADER_LINES.
    cbn [take app]. eexists. split; [left; reflexivity|].
    apply contains_prefix_app, Hm.
Qed.

(** X12.  With a width of at least 18, the 20 lines rendered from fields that
    begin with the marker field, followed by any body, are split off again by
    [_split_existing_codex_header] exactly: the header written is the header
    found. *)
Theorem rendered_header_found (style : CommentStyle) (more : list (list N))
    (mw : Z) (body : list (list N)) (path : list N) :
  (18 <= mw)%Z ->
  let header :=
    map ensure_newline (_render_header_lines style (marker_field :: more) mw) in
  _split_existing_codex_header (header ++ body) path
  = Ok (Some header, body, true).
Proof.
  intros Hw header.
  assert (length header = 20%nat) as Hlen
    by (unfold header; rewrite length_map; apply render_length).
  assert (marker_in_header (header ++ body) = true) as Hh.
  { unfold marker_in_header, HEADER_LINES.
    rewrite take_app_length' by (symmetry; exact Hlen).
    pose proof (render_holds_marker style more mw Hw) as H.
    apply existsb_exists in H as (ln & Hin & Hc).
    apply existsb_exists. exists (ensure_newline ln).
    split; [apply in_map, Hin | apply ensure_newline_contains, Hc]. }
  pose proof (marker_in_header_scan _ Hh) as Hs.
  unfold _split_existing_codex_header.
  rewrite split_header_scan.
  unfold marker_in_scan in Hs. rewrite Hs. cbn [negb].
  unfold marker_in_header in Hh. rewrite Hh.
  assert ((length (header ++ body) <? HEADER_LINES)%nat = false) as ->.
  { apply Nat.ltb_ge. rewrite length_app. unfold HEADER_LINES. lia. }
  unfold HEADER_LINES.
  rewrite take_app_length', drop_app_length' by (symmetry; exact Hlen).
  reflexivity.
Qed.

(** ** Writing *)

(** X13.  A call that returns reports a change exactly when it computed a
    text that differs from the input, and it writes exactly when it reports
    a change outside dry-run mode; what it writes is the text it computed. *)
Theorem annotate_file_writes (rq : request) (raw : list N) (o : outcome) :
  annotate_file rq raw = Ok o ->
  (changed o = true <-> exists text, new_raw o = Some text /\ text <> raw)
  /\ (written o = if changed o && negb (dry_run rq) then new_raw o else None).
Proof.
  unfold annotate_file.
  destruct (annotate_code_headers._detect_comment_style (suffix rq))
    as [style|].
  - destruct (_split_prolog _ _) as [prolog rest].
    destruct (_split_existing_codex_header rest (path rq))
      as [[[eh body] removed]|msg]; [|discriminate].
    cbv zeta.
    match goal with
    | |- context [str_eqb ?t raw] =>
        generalize t; intros text; destruct (str_eqb text raw) eqn:E
    end; intros [= <-]; cbn [changed new_raw written andb].
    + apply str_eqb_eq in E. subst text. split; [|reflexivity].
      split; [discriminate|]. intros (t & [= <-] & Hne). congruence.
    + apply str_eqb_neq in E. split; [|destruct (dry_run rq); reflexivity].
      split; [|reflexivity]. intros _. exists text. auto.
  - intros [= <-]. cbn [changed new_raw written andb]. split; [|reflexivity].
    split; [discriminate|]. intros (t & [=] & _).
Qed.

(** ** Last line *)

Lemma render_last_line (style : CommentStyle) (fields : list (list N))
    (mw : Z) (f : list N) :
  length fields = 20%nat -> last fields = Some f ->
  _render_header_lines style fields mw !! 19%nat
  = Some (inner_prefix style ++ _truncate f mw ++ closing style).
Proof.
  intros Hlen Hf. unfold inner_prefix, closing.
  destruct (decide (kind style = Block)) as [Hb|Hb].
  - rewrite (render_block _ _ _ Hb), Hb, (block_fields_id _ Hlen).
    rewrite (last_item_last _ _ Hf).
    change 19%nat with (1 + 18)%nat.
    rewrite lookup_app_r by (cbn [length]; lia). cbn [length].
    rewrite lookup_app_r by (rewrite length_map, middle_length; lia).
    rewrite length_map, middle_length, Hlen. reflexivity.
  - rewrite (render_line _ _ _ Hb), Hlen. unfold HEADER_LINES. simpl.
    rewrite app_nil_r, take_ge by (rewrite length_map; lia).
    assert (fields !! 19%nat = Some f) as Hl.
    { rewrite last_lookup, Hlen in Hf. exact Hf. }
    assert (map (fun f0 => line_prefix style ++ _truncate f0 mw) fields
              !! 19%nat
            = Some (line_prefix style ++ _truncate f mw)) as ->.
    { apply (map_lookup (fun f0 => line_prefix style ++ _truncate f0 mw)), Hl. }
    destruct (kind style); [|congruence|]; rewrite app_nil_r; reflexivity.
Qed.

Lemma set_last_last (l : list (list N)) (x : list N) :
  l <> [] -> last (set_last l x) = Some x.
Proof.
  intros H. destruct l as [|y l]; [congruence|].
  unfold set_last. apply last_snoc.
Qed.

Lemma computed_fields_last (rq : request) (prolog rest : list (list N))
    (eh : option (list (list N))) (body : list (list N)) :
  last (computed_fields rq prolog rest eh body)
  = Some (lit "Last update: " ++ last_update rq (existing_fields_of eh)).
Proof. reflexivity. Qed.

(** The fields of a changed file end with today's date. *)
Lemma final_fields_dated (rq : request) (raw : list N) (style : CommentStyle)
    (prolog rest : list (list N)) (eh : option (list (list N)))
    (body : list (list N)) :
  assemble prolog
    (_render_header_lines style
       (final_fields rq raw style prolog rest eh body) (max_width rq)) body
  <> raw ->
  last (final_fields rq raw style prolog rest eh body)
  = Some (lit "Last update: " ++ today rq).
Proof.
  unfold final_fields.
  destruct (bumps _ _ _ _) eqn:Eb.
  - intros _. apply set_last_last. intros E.
    apply (f_equal length) in E. rewrite computed_fields_length in E.
    discriminate.
  - intros Hne. rewrite computed_fields_last. do 2 f_equal.
    unfold bumps in Eb. unfold last_update in *.
    destruct (refresh rq); [reflexivity|]. cbn [negb andb] in Eb.
    destruct eh as [[|l h]|].
    + cbn [existing_fields_of]. rewrite lookup_empty. reflexivity.
    + cbn [andb] in Eb.
      apply andb_false_iff in Eb as [Eb|Eb].
      * apply negb_false_iff, str_eqb_eq in Eb. congruence.
      * apply negb_false_iff, str_eqb_eq in Eb. exact Eb.
    + cbn [existing_fields_of]. rewrite lookup_empty. reflexivity.
Qed.

(** X14.  Whenever [annotate_file] reports a change, the last header line
    carries today's date, in both modes and with or without a prior
    header. *)
Theorem changed_file_dated (rq : request) (raw : list N)
    (style : CommentStyle) (prolog rest : list (list N))
    (eh : option (list (list N))) (body : list (list N)) (removed : bool) :
  annotate_code_headers._detect_comment_style (suffix rq) = Some style ->
  _split_prolog (splitlines true raw) (suffix rq) = (prolog, rest) ->
  _split_existing_codex_header rest (path rq) = Ok (eh, body, removed) ->
  exists o header,
    annotate_file rq raw = Ok o
    /\ new_raw o = Some (concat prolog ++ concat header ++ concat body)
    /\ length header = 20%nat
    /\ (changed o = true ->
        header !! 19%nat
        = Some (inner_prefix style
                ++ _truncate (lit "Last update: " ++ today rq) (max_width rq)
                ++ closing style ++ [NL])).
Proof.
  intros Hs Hp He.
  destruct (annotate_file_ok rq raw style prolog rest eh body removed Hs Hp He)
    as (o & Ho & Hnew & Hch & _).
  pose proof (detected_style_one_line _ _ Hs) as Hone.
  eexists o, (map ensure_newline (_render_header_lines style _ _)).
  split; [exact Ho|].
  split; [rewrite Hnew, assemble_concat; reflexivity|].
  split; [rewrite length_map; apply render_length|].
  intros Hc. rewrite Hc in Hch. symmetry in Hch.
  apply negb_true_iff, str_eqb_neq in Hch.
  pose proof (final_fields_dated _ _ _ _ _ _ _ Hch) as Hl.
  pose proof (render_last_line style _ (max_width rq) _
                (final_fields_length _ _ _ _ _ _ _) Hl) as Hline.
  rewrite (map_lookup ensure_newline _ _ _ Hline).
  rewrite ensure_newline_append, <- !app_assoc; [reflexivity|].
  pose proof (render_no_linebreak style
                (final_fields rq raw style prolog rest eh body)
                (max_width rq) Hone) as Hall.
  rewrite Forall_forall in Hall. apply Hall.
  apply list_elem_of_lookup. exists 19%nat. exact Hline.
Qed.

(** ** Overrides and defaults *)

(** X15.  A non-empty [purpose] or [index_hint] argument is what the Purpose
    line (third line of the header) and the Index line (19th) are rendered
    from, in both modes and whatever the prior header holds. *)
Theorem overrides_win (rq : request) (raw : list N) (style : CommentStyle)
    (prolog rest : list (list N)) (eh : option (list (list N)))
    (body : list (list N)) (removed : bool) :
  annotate_code_headers._detect_comment_style (suffix rq) = Some style ->
  _split_prolog (splitlines true raw) (suffix rq) = (prolog, rest) ->
  _split_existing_codex_header rest (path rq) = Ok (eh, body, removed) ->
  exists o header,
    annotate_file rq raw = Ok o
    /\ new_raw o = Some (concat prolog ++ concat header ++ concat body)
    /\ length header = 20%nat
    /\ (purpose rq <> [] ->
        header !! 2%nat
        = Some (inner_prefix style
                ++ _truncate (lit "Purpose: " ++ purpose rq) (max_width rq)
                ++ [NL]))
    /\ (index_hint rq <> [] ->
        header !! 18%nat
        = Some (inner_prefix style
                ++ _truncate (lit "Index: " ++ index_hint rq) (max_width rq)
                ++ [NL])).
Proof.
  intros Hs Hp He.
  destruct (annotate_file_ok rq raw style prolog rest eh body removed Hs Hp He)
    as (o & Ho & Hnew & _).
  pose proof (detected_style_one_line _ _ Hs) as Hone.
  eexists o, (map ensure_newline (_render_header_lines style _ _)).
  split; [exact Ho|].
  split; [rewrite Hnew, assemble_concat; reflexivity|].
  split; [rewrite length_map; apply render_length|].
  assert (forall i f, (1 <= i <= 18)%nat ->
            computed_fields rq prolog rest eh body !! i = Some f ->
            map ensure_newline
              (_render_header_lines style
                 (final_fields rq raw style prolog rest eh body)
                 (max_width rq)) !! i
            = Some (inner_prefix style ++ _truncate f (max_width rq) ++ [NL]))
    as Hline.
  { intros i f Hi Hf.
    assert (final_fields rq raw style prolog rest eh body !! i = Some f) as Hf'
      by (rewrite final_fields_lookup by lia; exact Hf).
    pose proof (render_inner_line style _ (max_width rq) i f
                  (final_fields_length _ _ _ _ _ _ _) Hi Hf') as Hl.
    rewrite (map_lookup ensure_newline _ _ _ Hl).
    rewrite ensure_newline_append, <- app_assoc; [reflexivity|].
    pose proof (render_no_linebreak style
                  (final_fields rq raw style prolog rest eh body)
                  (max_width rq) Hone) as Hall.
    rewrite Forall_forall in Hall. apply Hall.
    apply list_elem_of_lookup. exists i. exact Hl. }
  split.
  - intros Hpur. apply Hline; [lia|].
    unfold computed_fields, _extract_symbols, header_fields. cbv zeta.
    cbn [lookup list_lookup app]. do 3 f_equal.
    unfold final_purpose, or_else.
    destruct (purpose rq) as [|c p] eqn:E; [congruence|].
    cbn [truthy]. destruct (refresh rq); reflexivity.
  - intros Hix. apply Hline; [lia|].
    unfold computed_fields, _extract_symbols, header_fields. cbv zeta.
    cbn [lookup list_lookup app map MANUAL_KEYS]. do 3 f_equal.
    unfold index_value, or_else.
    destruct (index_hint rq) as [|c p] eqn:E; [congruence|].
    cbn [truthy]. destruct (refresh rq); reflexivity.
Qed.

(** ** Block headers and the checker *)

Lemma lstrip_by_keep (p : N -> bool) (x : list N) (c : N) (y : list N) :
  p c = false -> lstrip_by p (x ++ c :: y) = lstrip_by p x ++ c :: y.
Proof.
  intros Hc. induction x as [|d x IH]; cbn [app lstrip_by].
  - rewrite Hc. reflexivity.
  - destruct (p d); [exact IH | reflexivity].
Qed.

Lemma rstrip_by_keep (p : N -> bool) (a : list N) (c : N) (b : list N) :
  p c = false -> rstrip_by p (a ++ c :: b) = a ++ c :: rstrip_by p b.
Proof.
  intros Hc. unfold rstrip_by.
  rewrite rev_app_distr. cbn [rev]. rewrite <- app_assoc. cbn [app].
  rewrite lstrip_by_keep by exact Hc.
  rewrite rev_app_distr. cbn [rev]. rewrite rev_involutive, <- app_assoc.
  reflexivity.
Qed.

Lemma split_fuel_S (f : nat) (sep s : list N) :
  split_fuel (S f) sep s
  = match find s sep with
    | None => [s]
    | Some i => take i s :: split_fuel f sep (drop (i + length sep) s)
    end.
Proof. reflexivity. Qed.

(** A character at which the separator does not start is kept. *)
Lemma remove_all_cons (sep : list N) (c : N) (s : list N) :
  sep <> [] -> startswith (c :: s) sep = false ->
  remove_all sep (c :: s) = c :: remove_all sep s.
Proof.
  intros Hsep Hst. unfold remove_all, split. cbn [length].
  assert (0 < length sep)%nat as Hpos
    by (destruct sep; [congruence | cbn [length]; lia]).
  rewrite (split_fuel_S (S (length s))), (split_fuel_S (length s)).
  cbn [find]. rewrite Hst.
  destruct (find s sep) as [j|] eqn:Ej; cbn [fmap option_fmap option_map].
  - cbn [take drop Nat.add concat app]. do 3 f_equal.
    apply find_bound in Ej.
    apply split_fuel_enough; [exact Hsep| |]; rewrite length_drop; lia.
  - reflexivity.
Qed.

Lemma remove_all_nil (sep : list N) : sep <> [] -> remove_all sep [] = [].
Proof. intros H. destruct sep; [congruence|reflexivity]. Qed.

(** At an occurrence the separator is dropped. *)
Lemma remove_all_at (sep s : list N) :
  sep <> [] -> remove_all sep (sep ++ s) = remove_all sep s.
Proof.
  intros Hsep. unfold remove_all, split.
  assert (0 < length sep)%nat as Hpos
    by (destruct sep; [congruence | cbn [length]; lia]).
  rewrite (split_fuel_S (length (sep ++ s))).
  assert (find (sep ++ s) sep = Some 0%nat) as ->.
  { destruct sep as [|a sep]; [congruence|].
    pose proof (startswith_app (a :: sep) s) as H.
    cbn [app find] in *. rewrite H. reflexivity. }
  cbn [Nat.add concat]. rewrite drop_app_length, take_0. cbn [app].
  f_equal.
  apply split_fuel_enough; [exact Hsep| |]; rewrite ?length_app; lia.
Qed.

Lemma block_line_clean (v : list N) :
  exists z, CH._strip_comment_prefix (lit " * " ++ v) CH.BlockStyle = 42 :: z.
Proof.
  unfold CH._strip_comment_prefix, rstrip.
  change (lit " * " ++ v) with ([32] ++ 42 :: 32 :: v).
  rewrite (rstrip_by_keep isspace [32] 42 (32 :: v) eq_refl).
  destruct (rstrip_by_take isspace (32 :: v)) as [k ->].
  destruct k as [|k]; cbn [take app].
  - exists []. reflexivity.
  - set (t := take k v).
    rewrite !(remove_all_cons (lit "/*")) by (discriminate || reflexivity).
    set (t' := remove_all (lit "/*") t).
    rewrite !(remove_all_cons (lit "*/")) by (discriminate || reflexivity).
    eexists. reflexivity.
Qed.

Lemma first_line_clean (v : list N) :
  exists z, CH._strip_comment_prefix (lit "/* @" ++ v) CH.BlockStyle = 64 :: z.
Proof.
  unfold CH._strip_comment_prefix, rstrip.
  change (lit "/* @" ++ v) with (lit "/* " ++ 64 :: v).
  rewrite (rstrip_by_keep isspace (lit "/* ") 64 v eq_refl).
  change (lit "/* " ++ 64 :: rstrip_by isspace v)
    with (lit "/*" ++ 32 :: 64 :: rstrip_by isspace v).
  rewrite remove_all_at by discriminate.
  rewrite !(remove_all_cons (lit "/*")) by (discriminate || reflexivity).
  rewrite !(remove_all_cons (lit "*/")) by (discriminate || reflexivity).
  eexists. reflexivity.
Qed.

Lemma first_line_style (v : list N) :
  CH._detect_comment_style (lit "/* @" ++ v) = CH.BlockStyle.
Proof.
  unfold CH._detect_comment_style, strip, lstrip, rstrip.
  change (lit "/* @" ++ v) with (47 :: 42 :: 32 :: 64 :: v).
  rewrite (lstrip_by_head isspace 47 _ eq_refl).
  change (47 :: 42 :: 32 :: 64 :: v) with (lit "/* " ++ 64 :: v).
  rewrite (rstrip_by_keep isspace (lit "/* ") 64 v eq_refl).
  reflexivity.
Qed.

Lemma incomplete_field_other (content : option (list N)) (suffix : list N)
    (st : CH.style) (line : list N) (c : N) (z : list N) :
  CH._strip_comment_prefix line st = c :: z -> c <> 75 -> c <> 69 ->
  CH.incomplete_field content suffix st line = [].
Proof.
  intros H HK HE. unfold CH.incomplete_field. rewrite H.
  assert (forall (a : ascii) (p : string),
            c <> N_of_ascii a -> startswith (c :: z) (lit (String a p)) = false)
    as Hst.
  { intros a p Hne. cbn [lit startswith].
    destruct (N.eqb_spec (N_of_ascii a) c) as [E|E]; [congruence|reflexivity]. }
  unfold CH.AUTO_POPULATED_FIELDS, CH.KEY_FUNCS, CH.ENTRYPOINTS.
  cbn [List.find]. rewrite !Hst by assumption. reflexivity.
Qed.

Lemma block_lines_skipped (content : option (list N)) (suffix : list N)
    (others : list (list N)) :
  Forall (fun l => exists v, l = lit " * " ++ v) others ->
  flat_map (CH.incomplete_field content suffix CH.BlockStyle) others = [].
Proof.
  induction 1 as [|l others [v ->] _ IH]; [reflexivity|].
  cbn [flat_map]. destruct (block_line_clean v) as [z Hz].
  rewrite (incomplete_field_other _ _ _ _ _ _ Hz) by discriminate.
  exact IH.
Qed.

(** X16.  For a header in the block style of the annotator (first line
    [/* @...], the others starting with [ * ]) the checker reports nothing,
    whatever the fields hold and whatever the file contains: the cleaned
    lines keep their star. *)
Theorem checker_skips_block_header (content : option (list N))
    (suffix v0 : list N) (others : list (list N)) :
  (19 <= length others)%nat ->
  Forall (fun l => exists v, l = lit " * " ++ v) others ->
  CH._check_header_incomplete ((lit "/* @" ++ v0) :: others) content suffix
  = (false, []).
Proof.
  intros Hlen Hall. unfold CH._check_header_incomplete.
  assert ((length ((lit "/* @" ++ v0) :: others) <? CH.HEADER_LINES)%nat
          = false) as ->.
  { apply Nat.ltb_ge. unfold CH.HEADER_LINES. cbn [length]. lia. }
  cbn [nth]. rewrite first_line_style.
  cbn [flat_map].
  destruct (first_line_clean v0) as [z Hz].
  rewrite (incomplete_field_other _ _ _ _ _ _ Hz) by discriminate.
  rewrite (block_lines_skipped _ _ _ Hall). reflexivity.
Qed.

(** ** AGENTS.md *)

Lemma str_ltb_asym (a b : list N) : str_ltb a b = true -> str_ltb b a = false.
Proof.
  revert b. induction a as [|x a IH]; intros [|y b]; cbn [str_ltb];
    try discriminate; try reflexivity.
  intros H. apply orb_true_iff in H as [H|H].
  - apply N.ltb_lt in H.
    rewrite (proj2 (N.ltb_ge y x)) by lia.
    rewrite (proj2 (N.eqb_neq y x)) by lia. reflexivity.
  - apply andb_true_iff in H as [H1 H2]. apply N.eqb_eq in H1. subst y.
    rewrite N.ltb_irrefl, N.eqb_refl, (IH _ H2). reflexivity.
Qed.

Lemma insert_by_perm {A} (key : A -> list N) (x : A) (l : list A) :
  insert_by key x l ≡ₚ x :: l.
Proof.
  induction l as [|y l IH]; cbn [insert_by]; [reflexivity|].
  destruct (str_ltb (key y) (key x)); [|reflexivity].
  rewrite IH. apply Permutation_swap.
Qed.

Lemma sorted_by_perm {A} (key : A -> list N) (l : list A) :
  sorted_by key l ≡ₚ l.
Proof.
  induction l as [|x l IH]; [reflexivity|].
  unfold sorted_by in *. cbn [foldr]. rewrite insert_by_perm, IH. reflexivity.
Qed.

Lemma insert_by_sorted {A} (key : A -> list N) (x : A) (l : list A) :
  Sorted (fun a b => str_ltb (key b) (key a) = false) l ->
  Sorted (fun a b => str_ltb (key b) (key a) = false) (insert_by key x l).
Proof.
  induction 1 as [|y l Hs IH Hh]; cbn [insert_by].
  - repeat constructor.
  - destruct (str_ltb (key y) (key x)) eqn:E.
    + constructor; [exact IH|].
      destruct l as [|z l]; cbn [insert_by].
      * constructor. apply str_ltb_asym, E.
      * destruct (str_ltb (key z) (key x)).
        -- constructor. inversion Hh; assumption.
        -- constructor. apply str_ltb_asym, E.
    + constructor; [constructor; assumption|]. constructor. exact E.
Qed.

Lemma sorted_by_sorted {A} (key : A -> list N) (l : list A) :
  Sorted (fun a b => str_ltb (key b) (key a) = false) (sorted_by key l).
Proof.
  induction l as [|x l IH]; [constructor|].
  unfold sorted_by in *. cbn [foldr]. apply insert_by_sorted, IH.
Qed.

Lemma join_cons_nonempty (sep x : list N) (l : list (list N)) :
  x <> [] -> join sep (x :: l) <> [].
Proof.
  intros Hx. destruct l; cbn [join]; [exact Hx|].
  destruct x; [congruence|discriminate].
Qed.

Lemma generate_index_empty (files : list annotated) :
  _generate_agents_md_index files = [] <-> files = [].
Proof.
  split; [|intros ->; reflexivity].
  destruct files as [|f files]; [reflexivity|]. intros H. exfalso.
  unfold _generate_agents_md_index in H.
  pose proof (sorted_by_perm a_path (f :: files)) as Hp.
  destruct (sorted_by a_path (f :: files)) as [|g l].
  - apply Permutation_nil_l in Hp. discriminate.
  - cbn [map] in H. revert H. apply join_cons_nonempty. discriminate.
Qed.

(** X17.  The index of [AGENTS.md] is empty exactly when no file is given;
    otherwise it is made of one row per file, the rows being ordered by
    path. *)
Theorem agents_index_rows (files : list annotated) :
  (_generate_agents_md_index files = [] <-> files = [])
  /\ exists rows,
       rows ≡ₚ files
       /\ Sorted (fun a b => str_ltb (a_path b) (a_path a) = false) rows
       /\ (files <> [] ->
           _generate_agents_md_index files = join [NL] (map index_row rows)).
Proof.
  split; [apply generate_index_empty|].
  exists (sorted_by a_path files).
  split; [apply sorted_by_perm|]. split; [apply sorted_by_sorted|].
  intros H. destruct files; [congruence|reflexivity].
Qed.

Lemma split_fuel_nonempty (fuel : nat) (sep s : list N) :
  split_fuel fuel sep s <> [].
Proof. destruct fuel; cbn [split_fuel]; [|destruct (find s sep)]; discriminate. Qed.

(** The first occurrence is replaced. *)
Lemma replace_first (old new s : list N) (i : nat) :
  find s old = Some i ->
  exists r, replace old new s = take i s ++ new ++ r.
Proof.
  intros H. unfold replace, split. cbn [split_fuel]. rewrite H.
  pose proof (split_fuel_nonempty (length s) old (drop (i + length old) s)) as Hne.
  destruct (split_fuel (length s) old (drop (i + length old) s)) as [|y l];
    [congruence|].
  eexists. reflexivity.
Qed.

(** The place of the section heading in the template, whatever the date. *)
Lemma template_section (today : list N) :
  find (format_date AGENTS_MD_TEMPLATE today) section_marker = Some 1027%nat
  /\ take 1027 (format_date AGENTS_MD_TEMPLATE today)
     = take 1027 AGENTS_MD_TEMPLATE.
Proof. split; vm_compute; reflexivity. Qed.

Lemma contains_find (s sub : list N) :
  contains s sub = true -> exists i, find s sub = Some i.
Proof.
  induction s as [|x s IH]; cbn [contains find]; intros H.
  - rewrite orb_false_r in H. rewrite H. eauto.
  - destruct (startswith (x :: s) sub); [eauto|].
    cbn [orb] in H. destruct (IH H) as [i ->]. eexists. reflexivity.
Qed.

Lemma find_zero (s sub : list N) :
  find s sub = Some 0%nat -> startswith s sub = true.
Proof.
  destruct s as [|x s]; cbn [find].
  - destruct (startswith [] sub); [reflexivity|discriminate].
  - destruct (startswith (x :: s) sub); [reflexivity|].
    destruct (find s sub); discriminate.
Qed.

Lemma find_contains (s sub : list N) :
  forall i, find s sub = Some i -> contains s sub = true.
Proof.
  induction s as [|x s IH]; intros i; cbn [contains find].
  - destruct (startswith [] sub); [reflexivity|discriminate].
  - destruct (startswith (x :: s) sub); [reflexivity|].
    destruct (find s sub) as [j|] eqn:E; [|discriminate].
    intros _. cbn [orb]. apply (IH j). reflexivity.
Qed.

Lemma index_truthy (files : list annotated) :
  files <> [] -> truthy (_generate_agents_md_index files) = true.
Proof.
  intros H. destruct (_generate_agents_md_index files) eqn:E; [|reflexivity].
  apply generate_index_empty in E. congruence.
Qed.

Lemma existing_parts_fresh (existing : option (list N)) :
  has_index existing = false -> existing_parts existing = ([], []).
Proof.
  unfold has_index, existing_parts. destruct existing as [c|]; [|reflexivity].
  intros ->. reflexivity.
Qed.

Lemma agents_md_created (today : list N) (files : list annotated) :
  files <> [] ->
  exists r,
    _update_agents_md None today files
    = (true,
       Some (TEMPLATE_HEAD
             ++ index_section (_generate_agents_md_index files)
             ++ section_marker ++ r)).
Proof.
  intros Hne. unfold _update_agents_md.
  rewrite (index_truthy _ Hne). cbn [existing_parts truthy orb].
  destruct (template_section today) as [Hfind Htake].
  rewrite (find_contains _ _ _ Hfind).
  destruct (replace_first section_marker
              (index_section (_generate_agents_md_index files)
               ++ section_marker)
              _ _ Hfind) as [r ->].
  exists r. rewrite Htake, <- !app_assoc. reflexivity.
Qed.

Lemma agents_md_parts (existing : option (list N)) (today : list N)
    (files : list annotated) :
  existing_parts existing = ([], []) ->
  _update_agents_md existing today files = _update_agents_md None today files.
Proof. intros H. unfold _update_agents_md. rewrite H. reflexivity. Qed.

(** X18.  Without annotated files [_update_agents_md] returns [False] and
    writes nothing.  With some, and no index in an existing [AGENTS.md], it
    returns [True] and writes the template with the index section, which
    holds the rows between the two markers, inserted before the heading of
    the file structure section. *)
Theorem update_agents_md_fresh (existing : option (list N)) (today : list N)
    (files : list annotated) :
  (files = [] -> _update_agents_md existing today files = (false, None))
  /\ (files <> [] -> has_index existing = false ->
      exists r,
        _update_agents_md existing today files
        = (true,
           Some (TEMPLATE_HEAD
                 ++ index_section (_generate_agents_md_index files)
                 ++ section_marker ++ r))).
Proof.
  split.
  - intros ->. reflexivity.
  - intros Hne Hfresh.
    rewrite (agents_md_parts _ _ _ (existing_parts_fresh _ Hfresh)).
    apply agents_md_created, Hne.
Qed.

Lemma existing_pre_nonempty (c : list N) :
  contains c marker_start = true -> startswith c marker_start = false ->
  nth 0 (split marker_start c) [] <> [].
Proof.
  intros Hc Hs. apply contains_find in Hc as [i Hi].
  unfold split. cbn [split_fuel]. rewrite Hi. cbn [nth].
  destruct i as [|i].
  - apply find_zero in Hi. congruence.
  - apply find_bound in Hi. destruct c as [|x c]; [cbn in Hi; lia|].
    discriminate.
Qed.

Lemma index_section_markers (idx : list N) :
  contains (index_section idx) marker_start = true
  /\ contains (index_section idx) marker_end = true.
Proof.
  unfold index_section. split.
  - do 3 apply contains_prefix_app. apply contains_startswith, startswith_app.
  - do 8 apply contains_prefix_app. apply contains_startswith, startswith_app.
Qed.

(** X19.  When [AGENTS.md] holds the two markers and does not begin with the
    first one, [_update_agents_md] writes the bare template: the text it
    builds from the existing content is not the one it writes, so that the
    existing content and the index are both lost.  In particular a second
    update of the file the first update created removes the index. *)
Theorem update_agents_md_overwrites (today : list N) (files : list annotated) :
  files <> [] ->
  (forall c,
     contains c marker_start = true -> contains c marker_end = true ->
     startswith c marker_start = false ->
     _update_agents_md (Some c) today files
     = (true, Some (format_date AGENTS_MD_TEMPLATE today)))
  /\ (forall today0 files0 written,
        files0 <> [] ->
        _update_agents_md None today0 files0 = (true, Some written) ->
        _update_agents_md (Some written) today files
        = (true, Some (format_date AGENTS_MD_TEMPLATE today))).
Proof.
  intros Hne.
  assert (forall c,
            contains c marker_start = true -> contains c marker_end = true ->
            startswith c marker_start = false ->
            _update_agents_md (Some c) today files
            = (true, Some (format_date AGENTS_MD_TEMPLATE today))) as Hover.
  { intros c H1 H2 H3. unfold _update_agents_md.
    rewrite (index_truthy _ Hne). unfold existing_parts. rewrite H1, H2.
    cbn [andb].
    pose proof (existing_pre_nonempty c H1 H3) as Hpre.
    destruct (nth 0 (split marker_start c) []); [congruence|].
    reflexivity. }
  split; [exact Hover|].
  intros today0 files0 written Hne0 Hw.
  destruct (agents_md_created today0 files0 Hne0) as [r Hr].
  rewrite Hr in Hw. apply (f_equal snd) in Hw. cbn [snd] in Hw.
  apply (inj Some) in Hw. subst written.
  destruct (index_section_markers (_generate_agents_md_index files0))
    as [Hs He].
  apply Hover.
  - apply contains_prefix_app, contains_app_suffix, Hs.
  - apply contains_prefix_app, contains_app_suffix, He.
  - generalize (index_section (_generate_agents_md_index files0)
                ++ section_marker ++ r).
    intros X. reflexivity.
Qed.

(** ** Type index *)

Lemma index_file_cases (index : gmap (list N) (list (list N * Z)))
    (f : source) :
  match header_error f with
  | Some msg => index_file index f = ValueError msg
  | None =>
      index_file index f
      = Ok (foldl (index_add (src_relpath f)) index (indexed_pairs f))
  end.
Proof.
  unfold header_error, index_file, indexed_pairs.
  destruct (_detect_comment_style (src_suffix f)); [|reflexivity].
  destruct (_split_prolog _ _) as [prolog rest]. cbn [snd].
  destruct (_split_existing_codex_header rest (src_path f))
    as [[[eh body] removed]|msg]; reflexivity.
Qed.

(** X20.  [_build_type_index] raises exactly when the header of some
    supported file cannot be split, with the error of the first such file;
    otherwise it returns an index. *)
Theorem build_type_index_raises (paths : list source) :
  match _build_type_index paths with
  | ValueError msg => head (omap header_error paths) = Some msg
  | Ok _ => omap header_error paths = []
  end.
Proof.
  unfold _build_type_index. generalize (∅ : gmap (list N) (list (list N * Z))).
  induction paths as [|f paths IH]; intros index; [reflexivity|].
  cbn [build_type_index_from omap list_omap].
  pose proof (index_file_cases index f) as Hf.
  destruct (header_error f) as [msg|]; rewrite Hf; [reflexivity|].
  apply IH.
Qed.

Lemma index_add_sound (rel : list N) (P : list N -> list N * Z -> Prop)
    (pairs : list (list N * Z)) :
  forall index,
    (forall name entries e, index !! name = Some entries -> e ∈ entries ->
                            name <> [] /\ P name e) ->
    (forall name ln, (name, ln) ∈ pairs -> name <> [] -> P name (rel, ln)) ->
    forall name entries e,
      foldl (index_add rel) index pairs !! name = Some entries ->
      e ∈ entries -> name <> [] /\ P name e.
Proof.
  induction pairs as [|[nm ln] pairs IH]; intros index Hix Hp;
    [exact Hix|].
  cbn [foldl]. apply IH; [|intros n l Hin; apply Hp; right; exact Hin].
  intros name entries e. unfold index_add.
  destruct (truthy nm) eqn:Et; [|apply Hix].
  intros Hl He. apply lookup_insert_Some in Hl as [[<- <-]|[_ Hl]];
    [|apply (Hix _ _ _ Hl He)].
  assert (nm <> []) as Hne by (intros ->; discriminate).
  apply elem_of_app in He as [He|He].
  - destruct (index !! nm) as [old|] eqn:Eo; cbn [default] in He;
      [apply (Hix _ _ _ Eo He) | set_solver].
  - apply list_elem_of_singleton in He. subst e.
    split; [exact Hne|]. apply Hp; [left | exact Hne].
Qed.

Lemma indexed_pairs_inv (f : source) (name : list N) (ln : Z) :
  (name, ln) ∈ indexed_pairs f ->
  exists prolog rest eh body removed (i : nat) line,
    _split_prolog (splitlines true (src_raw f)) (src_suffix f) = (prolog, rest)
    /\ _split_existing_codex_header rest (src_path f) = Ok (eh, body, removed)
    /\ body !! i = Some line
    /\ ln = (len prolog + Z.of_nat HEADER_LINES + 1 + Z.of_nat i)%Z
    /\ type_pair_of_line (src_suffix f) line = Some name.
Proof.
  unfold indexed_pairs.
  destruct (_detect_comment_style (src_suffix f)); [|set_solver].
  destruct (_split_prolog _ _) as [prolog rest].
  destruct (_split_existing_codex_header rest (src_path f))
    as [[[eh body] removed]|msg] eqn:He; [|set_solver].
  rewrite scan_type_pairs_symbols. intros H.
  apply scan_symbols_lookup in H as (i & line & Hl & -> & Hs).
  exists prolog, rest, eh, body, removed, i, line.
  split; [reflexivity|]. split; [exact He|]. split; [exact Hl|].
  split; [lia|]. rewrite type_pair_symbol, Hs. reflexivity.
Qed.

Lemma type_index_entries (paths : list source)
    (index : gmap (list N) (list (list N * Z))) (name rel : list N) (ln : Z)
    (entries : list (list N * Z)) :
  _build_type_index paths = Ok index ->
  index !! name = Some entries -> (rel, ln) ∈ entries ->
  name <> []
  /\ exists f prolog rest eh body removed (i : nat) line,
       f ∈ paths /\ src_relpath f = rel
       /\ _split_prolog (splitlines true (src_raw f)) (src_suffix f)
          = (prolog, rest)
       /\ _split_existing_codex_header rest (src_path f)
          = Ok (eh, body, removed)
       /\ body !! i = Some line
       /\ ln = (len prolog + Z.of_nat HEADER_LINES + 1 + Z.of_nat i)%Z
       /\ type_pair_of_line (src_suffix f) line = Some name.
Proof.
  unfold _build_type_index.
  assert (forall ps acc,
            (forall name entries e, acc !! name = Some entries -> e ∈ entries ->
               name <> []
               /\ exists f, f ∈ paths /\ src_relpath f = e.1
                            /\ (name, e.2) ∈ indexed_pairs f) ->
            (forall f, f ∈ ps -> f ∈ paths) ->
            forall index,
              build_type_index_from ps acc = Ok index ->
              forall name entries e,
                index !! name = Some entries -> e ∈ entries ->
                name <> []
                /\ exists f, f ∈ paths /\ src_relpath f = e.1
                             /\ (name, e.2) ∈ indexed_pairs f) as Hgen.
  { induction ps as [|f ps IH]; intros acc Hacc Hsub ix;
      cbn [build_type_index_from].
    - intros [= <-]. exact Hacc.
    - pose proof (index_file_cases acc f) as Hf.
      destruct (header_error f); rewrite Hf; [discriminate|].
      apply IH; [|intros g Hg; apply Hsub; right; exact Hg].
      apply (index_add_sound (src_relpath f)
               (fun name e => exists g, g ∈ paths /\ src_relpath g = e.1
                                        /\ (name, e.2) ∈ indexed_pairs g)).
      + exact Hacc.
      + intros nm l Hin _. exists f. cbn [fst snd].
        split; [apply Hsub; left|]. auto. }
  intros Hb Hl He.
  destruct (Hgen paths ∅) with (index := index) (name := name)
    (entries := entries) (e := (rel, ln)) as [Hne (f & Hf & Hr & Hp)]; auto.
  - intros n es e H. rewrite lookup_empty in H. discriminate.
  - split; [exact Hne|]. cbn [fst snd] in *.
    apply indexed_pairs_inv in Hp
      as (prolog & rest & eh & body & removed & i & line & H1 & H2 & H3 & H4
          & H5).
    exists f, prolog, rest, eh, body, removed, i, line. auto 10.
Qed.

(** X21.  Every entry [(rel, ln)] the index holds for a name comes from a
    supported file of relative path [rel]: the name is not empty, and line
    [ln] of that file, counted with its prolog and a 20-line header in place,
    is a body line on which the type patterns recognise the name. *)
Theorem type_index_sound (paths : list source)
    (index : gmap (list N) (list (list N * Z))) (name rel : list N) (ln : Z)
    (entries : list (list N * Z)) :
  _build_type_index paths = Ok index ->
  index !! name = Some entries -> (rel, ln) ∈ entries ->
  name <> []
  /\ exists f prolog rest eh body removed (i : nat) line,
       f ∈ paths /\ src_relpath f = rel
       /\ _split_prolog (splitlines true (src_raw f)) (src_suffix f)
          = (prolog, rest)
       /\ _split_existing_codex_header rest (src_path f)
          = Ok (eh, body, removed)
       /\ body !! i = Some line
       /\ ln = (len prolog + Z.of_nat HEADER_LINES + 1 + Z.of_nat i)%Z
       /\ type_pair_of_line (src_suffix f) line = Some name.
Proof. apply type_index_entries. Qed.

(** ** Prolog of ordinary files and of files with build tags *)

(** X22.  An empty file has an empty prolog, and so has a file whose first
    line is neither a shebang, an XML declaration, an encoding cookie (in a
    Python file), a build tag nor a Rust inner attribute: all its lines are
    left for the body. *)
Theorem split_prolog_plain (sfx : list N) :
  _split_prolog [] sfx = ([], [])
  /\ forall first more,
       is_shebang first = false -> is_xml_decl first = false ->
       (is_python sfx = true -> is_coding_cookie first = false) ->
       is_go_build_tag first = false -> is_rust_inner_attr first = false ->
       _split_prolog (first :: more) sfx = ([], first :: more).
Proof.
  split; [reflexivity|].
  intros first more Hsb Hxml Hck Hgo Hrs.
  unfold _split_prolog, prolog_scan. rewrite Hsb.
  assert (consume_if is_xml_decl (first :: more) ([], 0%nat) = ([], 0%nat))
    as -> by (unfold consume_if; cbn [lookup list_lookup]; rewrite Hxml;
          reflexivity).
  assert ((if is_python sfx
           then consume_if is_coding_cookie (first :: more) ([], 0%nat)
           else ([], 0%nat)) = ([], 0%nat)) as ->.
  { destruct (is_python sfx); [|reflexivity].
    unfold consume_if. cbn [lookup list_lookup]. rewrite Hck; reflexivity. }
  unfold go_build_block, rust_attr_block, test_at.
  cbn [snd lookup list_lookup]. rewrite Hgo.
  cbn [snd lookup list_lookup]. rewrite Hrs. reflexivity.
Qed.

Lemma go_build_tag_slashes (l : list N) :
  is_go_build_tag l = true -> exists t, l = 47 :: 47 :: t.
Proof.
  unfold is_go_build_tag. intros H. apply orb_true_iff in H as [H|H];
    apply startswith_inv in H as [t ->]; eexists; reflexivity.
Qed.

(** X23.  When the first line is a build tag, the prolog starts with the
    block of consecutive build tags followed by a blank line: the line that
    follows the block when it is blank, a synthesized newline otherwise. *)
Theorem go_build_tags_blank (first : list N) (more : list (list N))
    (sfx : list N) :
  is_go_build_tag first = true ->
  let lines := first :: more in
  let tags := take (count_while is_go_build_tag lines) lines in
  exists blank attrs,
    (_split_prolog lines sfx).1 = tags ++ blank :: attrs
    /\ tags <> []
    /\ Forall (fun l => is_go_build_tag l = true) tags
    /\ is_blank blank = true
    /\ (lines !! length tags = Some blank
        \/ blank = [NL]
           /\ forall l, lines !! length tags = Some l -> is_blank l = false).
Proof.
  intros Hgo. cbv zeta.
  change (_split_prolog (first :: more) sfx).1
    with (prolog_scan first (first :: more) sfx).1.
  set (lines := first :: more).
  set (tags := take (count_while is_go_build_tag lines) lines).
  destruct (go_build_tag_slashes _ Hgo) as [t Ht].
  assert (tags <> []) as Hne.
  { unfold tags, lines. cbn [count_while]. rewrite Hgo. discriminate. }
  assert (Forall (fun l => is_go_build_tag l = true) tags) as Hall
    by apply count_while_Forall.
  assert (length tags = count_while is_go_build_tag lines) as Hlen.
  { unfold tags. apply length_take_le.
    clear. induction lines as [|x l IH]; cbn [count_while length]; [lia|].
    destruct (is_go_build_tag x); lia. }
  unfold prolog_scan.
  assert (is_shebang first = false) as -> by (rewrite Ht; reflexivity).
  assert (consume_if is_xml_decl lines ([], 0%nat) = ([], 0%nat)) as ->
    by (unfold consume_if, lines; cbn [lookup list_lookup]; rewrite Ht;
        reflexivity).
  assert ((if is_python sfx
           then consume_if is_coding_cookie lines ([], 0%nat)
           else ([], 0%nat)) = ([], 0%nat)) as ->.
  { destruct (is_python sfx); [|reflexivity].
    unfold consume_if, lines. cbn [lookup list_lookup]. rewrite Ht.
    reflexivity. }
  destruct (rust_attr_block_extends lines
              (go_build_block lines ([], 0%nat))) as (attrs & ->).
  unfold go_build_block, test_at. cbn [snd].
  unfold lines at 1. cbn [lookup list_lookup]. rewrite Hgo.
  unfold consume_while. cbn [app Nat.add].
  change (drop 0 lines) with lines. fold tags. rewrite <- Hlen.
  destruct (lines !! length tags) as [l|] eqn:El.
  - destruct (is_blank l) eqn:Eb; cbn [fst].
    + exists l, attrs. rewrite <- app_assoc. auto 10.
    + exists [NL], attrs. rewrite <- app_assoc.
      split; [reflexivity|]. split; [exact Hne|]. split; [exact Hall|].
      split; [reflexivity|]. right. split; [reflexivity|].
      intros l' [= <-]. exact Eb.
  - cbn [fst]. exists [NL], attrs. rewrite <- app_assoc.
    split; [reflexivity|]. split; [exact Hne|]. split; [exact Hall|].
    split; [reflexivity|]. right. split; [reflexivity|]. discriminate.
Qed.

(** ** Reading back a header line *)

(** *** The closing pattern *)

Lemma star_ws_inv {A} (k : option N -> list N -> caps -> option A)
    (cs : caps) (x : A) (t : list N) :
  forall p,
    run (Star WS) p t cs k = Some x ->
    exists w t' q,
      t = w ++ t' /\ Forall (fun c => isspace c = true) w
      /\ k q t' cs = Some x.
Proof.
  induction t as [|d t IH]; intros p H.
  - rewrite run_star_ws_stop in H by exact I.
    exists [], [], p. auto.
  - destruct (isspace d) eqn:Hd.
    + rewrite (run_star_ws_cons _ _ _ _ _ Hd) in H.
      destruct (run (Star WS) (Some d) t cs k) as [y|] eqn:E.
      * injection H as ->. destruct (IH _ E) as (w & t' & q & -> & Hw & Hk).
        exists (d :: w), t', q. repeat split; auto.
      * exists [], (d :: t), p. auto.
    + rewrite run_star_ws_stop in H by exact Hd.
      exists [], (d :: t), p. auto.
Qed.

Lemma closer_inv {A} (k : option N -> list N -> caps -> option A)
    (cs : caps) (x : A) (p : option N) (t : list N) :
  run CLOSER p t cs k = Some x ->
  exists t' q,
    (t = lit "*/" ++ t' \/ t = lit "-->" ++ t') /\ k q t' cs = Some x.
Proof.
  unfold CLOSER. cbn [run].
  destruct t as [|a t]; [discriminate|].
  destruct (a =? 42) eqn:Ea.
  - apply N.eqb_eq in Ea. subst a.
    destruct t as [|b t]; [discriminate|].
    destruct (b =? 47) eqn:Eb; [|discriminate].
    apply N.eqb_eq in Eb. subst b.
    destruct (k (Some 47) t cs) eqn:Ek; [|discriminate].
    intros [= ->]. exists t, (Some 47). auto.
  - destruct (a =? 45) eqn:Ed; [|discriminate].
    apply N.eqb_eq in Ed. subst a.
    destruct t as [|b t]; [discriminate|].
    destruct (b =? 45) eqn:Eb; [|discriminate].
    apply N.eqb_eq in Eb. subst b.
    destruct t as [|c t]; [discriminate|].
    destruct (c =? 62) eqn:Ec; [|discriminate].
    apply N.eqb_eq in Ec. subst c.
    intros H. exists t, (Some 62). auto.
Qed.

Lemma eol_inv {A} (k : option N -> list N -> caps -> option A)
    (cs : caps) (x : A) (p : option N) (t : list N) :
  run Eol p t cs k = Some x -> Forall (fun c => isspace c = true) t.
Proof.
  cbn [run]. destruct t as [|a [|b t]]; [constructor| |discriminate].
  destruct (a =? NL) eqn:E; [|discriminate].
  apply N.eqb_eq in E. subst a. repeat constructor.
Qed.

Lemma header_suffix_shape : _RE_HEADER_SUFFIX
  = Seq (Star WS) (Seq CLOSER (Seq (Star WS) Eol)).
Proof. reflexivity. Qed.

(** A match of the closing pattern ends the text with a closing token
    followed by whitespace only. *)
Lemma header_suffix_inv {A} (k : option N -> list N -> caps -> option A)
    (cs : caps) (x : A) (p : option N) (t : list N) :
  run _RE_HEADER_SUFFIX p t cs k = Some x ->
  exists w closer w',
    t = w ++ closer ++ w'
    /\ (closer = lit "*/" \/ closer = lit "-->")
    /\ Forall (fun c => isspace c = true) w'.
Proof.
  rewrite header_suffix_shape, run_seq. intros H.
  apply star_ws_inv in H as (w & t1 & q & -> & _ & H).
  rewrite run_seq in H.
  apply closer_inv in H as (t2 & q2 & Ht1 & H).
  rewrite run_seq in H.
  apply star_ws_inv in H as (w2 & t3 & q3 & -> & Hw2 & H).
  apply eol_inv in H.
  assert (Forall (fun c => isspace c = true) (w2 ++ t3)) as Hsp
    by (apply Forall_app; auto).
  destruct Ht1 as [-> | ->]; eexists w, _, (w2 ++ t3); eauto.
Qed.

Lemma endswith_app (a p : list N) : endswith (a ++ p) p = true.
Proof. unfold endswith. rewrite rev_app_distr. apply startswith_app. Qed.

(** No closing token at the end: nothing is removed. *)
Lemma sub_del_suffix_none (s : list N) (c : N) :
  last s = Some c -> isspace c = false ->
  endswith s (lit "*/") = false -> endswith s (lit "-->") = false ->
  sub_del _RE_HEADER_SUFFIX s = s.
Proof.
  intros Hl Hc H1 H2.
  assert (forall a t p B (k : option N -> list N -> caps -> option B),
            s = a ++ t -> run _RE_HEADER_SUFFIX p t [] k = None) as Hno.
  { intros a t p B k Hs.
    destruct (run _RE_HEADER_SUFFIX p t [] k) as [x|] eqn:E; [|reflexivity].
    exfalso. apply header_suffix_inv in E as (w & closer & w' & -> & Hcl & Hw).
    destruct (decide (w' = [])) as [->|Hne].
    - rewrite app_nil_r, app_assoc in Hs. subst s.
      destruct Hcl as [-> | ->]; rewrite endswith_app in *; congruence.
    - destruct (exists_last Hne) as (w0 & d & ->).
      subst s. rewrite !app_assoc, last_snoc in Hl. injection Hl as ->.
      apply Forall_app in Hw as [_ Hd]. inversion Hd; congruence. }
  assert (forall t prev fuel,
            (exists a, s = a ++ t) ->
            sub_from _RE_HEADER_SUFFIX [] fuel prev t = t) as Hsub.
  { induction t as [|x t IH]; intros prev fuel [a Ha].
    - destruct fuel; reflexivity.
    - destruct fuel as [|fuel]; [reflexivity|]. cbn [sub_from].
      rewrite (Hno a (x :: t)) by exact Ha. f_equal.
      apply IH. exists (a ++ [x]). rewrite <- app_assoc. exact Ha. }
  unfold sub_del, sub. apply Hsub. exists []. reflexivity.
Qed.

(** *** The opening pattern *)

Lemma header_prefix_shape : _RE_HEADER_PREFIX
  = Seq Bol (Seq (Star WS) (Seq OPENER (Seq (Star WS)
      (Seq STARS (Seq MARK (Star WS)))))).
Proof. reflexivity. Qed.

Lemma run_alt {A} (a b : re) (p : option N) (inp : list N) (cs : caps)
    (k : option N -> list N -> caps -> option A) :
  run (Alt a b) p inp cs k
  = match run a p inp cs k with
    | Some x => Some x
    | None => run b p inp cs k
    end.
Proof. reflexivity. Qed.

Lemma run_bol_start {A} (inp : list N) (cs : caps)
    (k : option N -> list N -> caps -> option A) :
  run Bol None inp cs k = k None inp cs.
Proof. reflexivity. Qed.

Lemma run_chr_hit {A} (c : N) (p : option N) (t : list N) (cs : caps)
    (k : option N -> list N -> caps -> option A) :
  run (Chr c) p (c :: t) cs k = k (Some c) t cs.
Proof. cbn [run]. rewrite N.eqb_refl. reflexivity. Qed.

Lemma run_star_chr_stop {A} (c d : N) (p : option N) (t : list N) (cs : caps)
    (k : option N -> list N -> caps -> option A) :
  d <> c -> run (Star (Chr c)) p (d :: t) cs k = k p (d :: t) cs.
Proof.
  intros H. cbn [run star_loop length]. apply N.eqb_neq in H. rewrite H.
  reflexivity.
Qed.

Section Opening.
Context {A : Type}.
Variable k : option N -> list N -> caps -> option A.
Variable cs : caps.

Lemma opener_skip (p : option N) (c : N) (t : list N) :
  c <> 47 -> c <> 60 -> run OPENER p (c :: t) cs k = k p (c :: t) cs.
Proof.
  intros H1 H2. unfold OPENER. cbn [run].
  apply N.eqb_neq in H1, H2. rewrite H1, H2. reflexivity.
Qed.

Lemma stars_skip (p : option N) (c : N) (t : list N) :
  c <> 42 -> run STARS p (c :: t) cs k = k p (c :: t) cs.
Proof.
  intros H1. unfold STARS. cbn [run].
  apply N.eqb_neq in H1. rewrite H1. reflexivity.
Qed.

Lemma mark_skip (p : option N) (c : N) (t : list N) :
  c <> 35 -> c <> 47 -> c <> 45 -> run MARK p (c :: t) cs k = k p (c :: t) cs.
Proof.
  intros H1 H2 H3. unfold MARK. cbn [run].
  apply N.eqb_neq in H1, H2, H3. rewrite H1, H2, H3. reflexivity.
Qed.

Lemma mark_hash (p : option N) (t : list N) (x : A) :
  k (Some 35) t cs = Some x -> run MARK p (35 :: t) cs k = Some x.
Proof. intros H. unfold MARK. cbn [run N.eqb Pos.eqb]. rewrite H. reflexivity. Qed.

Lemma mark_dash (p : option N) (t : list N) (x : A) :
  k (Some 45) t cs = Some x -> run MARK p (45 :: 45 :: t) cs k = Some x.
Proof. intros H. unfold MARK. cbn [run N.eqb Pos.eqb]. rewrite H. reflexivity. Qed.

Lemma stars_hit (p : option N) (d : N) (t : list N) (x : A) :
  d <> 42 ->
  run (Star WS) (Some 42) (d :: t) cs k = Some x ->
  run STARS p (42 :: d :: t) cs k = Some x.
Proof.
  intros Hd H. unfold STARS.
  rewrite run_alt, !run_seq, run_chr_hit. cbv beta.
  rewrite run_star_chr_stop by exact Hd. rewrite H. reflexivity.
Qed.

Lemma sw_consume (p : option N) (d : N) (t : list N) (x : A) :
  isspace d = true ->
  run (Star WS) (Some d) t cs k = Some x ->
  run (Star WS) p (d :: t) cs k = Some x.
Proof. intros Hd H. rewrite (run_star_ws_cons _ _ _ _ _ Hd), H. reflexivity. Qed.

Lemma sw_stop (p : option N) (c : N) (t : list N) :
  isspace c = false -> run (Star WS) p (c :: t) cs k = k p (c :: t) cs.
Proof. intros H. apply run_star_ws_stop. exact H. Qed.

End Opening.

Lemma upper_facts (c : N) :
  in_range 65 90 c = true ->
  isspace c = false /\ c <> 47 /\ c <> 60 /\ c <> 42 /\ c <> 35 /\ c <> 45.
Proof.
  unfold in_range. rewrite andb_true_iff, !N.leb_le. intros [H1 H2].
  split; [|lia].
  unfold isspace, whitespace_ranges. cbn [in_ranges]. unfold in_range.
  repeat (apply orb_false_iff; split); try reflexivity;
    apply andb_false_iff;
    (left; apply N.leb_gt; lia) || (right; apply N.leb_gt; lia).
Qed.

Lemma header_prefix_match {A} (k : option N -> list N -> caps -> option A)
    (pre : list N) (c : N) (f : list N) (x : A) :
  pre ∈ field_prefixes -> in_range 65 90 c = true ->
  k (Some 32) (c :: f) [] = Some x ->
  run _RE_HEADER_PREFIX None (pre ++ c :: f) [] k = Some x.
Proof.
  intros Hpre Hc Hk.
  destruct (upper_facts c Hc) as (Hsp & H47 & H60 & H42 & H35 & H45).
  rewrite header_prefix_shape.
  unfold field_prefixes in Hpre.
  rewrite !elem_of_cons in Hpre.
  destruct Hpre as [-> | [-> | [-> | [-> | Hnil]]]];
    [| | | |apply elem_of_nil in Hnil; contradiction];
    cbn [lit app N_of_ascii]; rewrite run_seq, run_bol_start; cbv beta.
  - (* hash and space *)
    rewrite run_seq, sw_stop by reflexivity. cbv beta.
    rewrite run_seq, opener_skip by discriminate. cbv beta.
    rewrite run_seq, sw_stop by reflexivity. cbv beta.
    rewrite run_seq, stars_skip by discriminate. cbv beta.
    rewrite run_seq. apply mark_hash.
    apply sw_consume; [reflexivity|].
    rewrite sw_stop by exact Hsp. exact Hk.
  - (* two dashes and space *)
    rewrite run_seq, sw_stop by reflexivity. cbv beta.
    rewrite run_seq, opener_skip by discriminate. cbv beta.
    rewrite run_seq, sw_stop by reflexivity. cbv beta.
    rewrite run_seq, stars_skip by discriminate. cbv beta.
    rewrite run_seq. apply mark_dash.
    apply sw_consume; [reflexivity|].
    rewrite sw_stop by exact Hsp. exact Hk.
  - (* space, star, space *)
    rewrite run_seq. apply sw_consume; [reflexivity|].
    rewrite sw_stop by reflexivity. cbv beta.
    rewrite run_seq, opener_skip by discriminate. cbv beta.
    rewrite run_seq, sw_stop by reflexivity. cbv beta.
    rewrite run_seq. apply stars_hit; [discriminate|].
    apply sw_consume; [reflexivity|].
    rewrite sw_stop by exact Hsp. cbv beta.
    rewrite run_seq, mark_skip by assumption. cbv beta.
    rewrite sw_stop by exact Hsp. exact Hk.
  - (* two spaces *)
    rewrite run_seq. apply sw_consume; [reflexivity|].
    apply sw_consume; [reflexivity|].
    rewrite sw_stop by exact Hsp. cbv beta.
    rewrite run_seq, opener_skip by assumption. cbv beta.
    rewrite run_seq, sw_stop by exact Hsp. cbv beta.
    rewrite run_seq, stars_skip by assumption. cbv beta.
    rewrite run_seq, mark_skip by assumption. cbv beta.
    rewrite sw_stop by exact Hsp. exact Hk.
Qed.

Lemma sub_from_bol (r : re) (repl : list N) (fuel : nat) :
  forall p inp, sub_from (Seq Bol r) repl fuel (Some p) inp = inp.
Proof.
  induction fuel as [|fuel IH]; intros p inp; [reflexivity|].
  cbn [sub_from run]. destruct inp as [|c t]; [reflexivity|].
  rewrite IH. reflexivity.
Qed.

Lemma sub_del_prefix (pre : list N) (c : N) (f : list N) :
  pre ∈ field_prefixes -> in_range 65 90 c = true ->
  sub_del _RE_HEADER_PREFIX (pre ++ c :: f) = c :: f.
Proof.
  intros Hpre Hc. unfold sub_del, sub. cbn [sub_from].
  rewrite (header_prefix_match _ pre c f (Some 32, c :: f) Hpre Hc).
  - cbn [app]. rewrite header_prefix_shape. apply sub_from_bol.
  - rewrite (proj2 (Nat.ltb_lt _ _)); [reflexivity|].
    rewrite length_app. unfold field_prefixes in Hpre.
    rewrite !elem_of_cons in Hpre.
    destruct Hpre as [-> | [-> | [-> | [-> | Hnil]]]];
      [| | | |apply elem_of_nil in Hnil; contradiction];
      cbn [length lit]; lia.
Qed.

(** *** A field line *)

Lemma rstrip_by_drop_last (p : N -> bool) (x : list N) (c : N) :
  p c = true -> rstrip_by p (x ++ [c]) = rstrip_by p x.
Proof.
  intros H. unfold rstrip_by. rewrite rev_unit. cbn [lstrip_by].
  rewrite H. reflexivity.
Qed.

Lemma startswith_before_space (q y z : list N) :
  Forall (fun c => c <> 32) q ->
  startswith (y ++ 32 :: z) q = startswith y q.
Proof.
  intros Hq. revert y. induction Hq as [|c q Hc _ IH]; intros y.
  - destruct y; reflexivity.
  - destruct y as [|d y]; cbn [app startswith].
    + apply N.eqb_neq in Hc. rewrite Hc. reflexivity.
    + rewrite IH. reflexivity.
Qed.

Lemma endswith_after_space (a v q : list N) :
  Forall (fun c => c <> 32) q ->
  endswith (a ++ 32 :: v) q = endswith v q.
Proof.
  intros Hq. unfold endswith. rewrite rev_app_distr. cbn [rev].
  rewrite <- app_assoc. cbn [app].
  apply startswith_before_space, Forall_rev, Hq.
Qed.

(** A value in normal form is stripped and has single spaces only. *)
Lemma normalized_fixed (v : list N) :
  normalized v = v -> strip v = v /\ collapse_ws v = v.
Proof.
  intros H.
  assert (strip v = v) as Hs.
  { rewrite <- H. unfold normalized. destruct (strip_ends v) as [Hh Hl].
    apply collapse_ws_ends; assumption. }
  split; [exact Hs|]. unfold normalized in H. rewrite Hs in H. exact H.
Qed.

Lemma stripped_ends (v : list N) :
  strip v = v -> v <> [] ->
  exists c, last v = Some c /\ isspace c = false
            /\ match v with [] => True | d :: _ => isspace d = false end.
Proof.
  intros Hs Hne. destruct (strip_ends v) as [Hh Hl]. rewrite Hs in Hh, Hl.
  destruct (last v) as [c|] eqn:E.
  - exists c. auto.
  - apply last_None in E. congruence.
Qed.

Lemma field_prefixes_ok : Forall field_prefix_ok _HEADER_FIELD_PREFIXES.
Proof.
  repeat (constructor;
          [split; [eexists _, _; split; reflexivity|];
           split; [reflexivity|]; split; intros v; reflexivity|]).
  constructor.
Qed.

Lemma style_prefixes :
  Forall (fun kv => inner_prefix kv.2 ∈ field_prefixes)
    COMMENT_STYLES_BY_SUFFIX.
Proof.
  repeat (constructor; [unfold field_prefixes; cbn; set_solver|]).
  constructor.
Qed.

Lemma detected_style_prefix (sfx : list N) (style : CommentStyle) :
  annotate_code_headers._detect_comment_style sfx = Some style ->
  inner_prefix style ∈ field_prefixes.
Proof.
  unfold annotate_code_headers._detect_comment_style.
  destruct (mem sfx SKIP_SUFFIXES); [discriminate|].
  intros H. apply table_get_In in H.
  pose proof style_prefixes as T.
  rewrite Forall_forall in T. apply list_elem_of_In in H. apply (T _ H).
Qed.

Lemma field_line_clean (pre key v : list N) :
  pre ∈ field_prefixes -> key ++ lit ":" ∈ _HEADER_FIELD_PREFIXES ->
  v <> [] -> normalized v = v ->
  endswith v (lit "*/") = false -> endswith v (lit "-->") = false ->
  _strip_header_comment_syntax (pre ++ (key ++ lit ": " ++ v) ++ [NL])
  = key ++ lit ": " ++ v.
Proof.
  intros Hpre Hkey Hne Hn H1 H2.
  destruct (normalized_fixed v Hn) as [Hs Hc].
  destruct (stripped_ends v Hs Hne) as (d & Hl & Hd & Hh).
  pose proof field_prefixes_ok as Hok. rewrite Forall_forall in Hok.
  destruct (Hok _ Hkey) as ((c & k & Hck & Hup) & _ & _ & _).
  assert (key ++ lit ": " ++ v = c :: (k ++ 32 :: v)) as Hf.
  { change (lit ": " ++ v) with (lit ":" ++ 32 :: v).
    rewrite app_assoc, Hck. reflexivity. }
  assert (last (pre ++ key ++ lit ": " ++ v) = Some d) as Hlast.
  { destruct (exists_last Hne) as (v0 & e & ->).
    rewrite last_snoc in Hl. injection Hl as ->.
    rewrite !app_assoc. apply last_snoc. }
  assert (d <> NL /\ d <> CR) as [HdN HdC]
    by (split; intros ->; discriminate).
  unfold _strip_header_comment_syntax, rstrip_chars.
  rewrite app_assoc, rstrip_by_drop_last by reflexivity.
  rewrite (rstrip_by_last _ _ d Hlast)
    by (cbn; apply N.eqb_neq in HdN; rewrite HdN; reflexivity).
  rewrite (rstrip_by_last _ _ d Hlast)
    by (cbn; apply N.eqb_neq in HdC; rewrite HdC; reflexivity).
  rewrite (sub_del_suffix_none _ d Hlast Hd).
  - rewrite Hf, (sub_del_prefix pre c _ Hpre Hup).
    apply strip_fixed.
    + destruct (upper_facts c Hup) as [Hsp _]. exact Hsp.
    + rewrite <- Hf. rewrite app_assoc.
      destruct (exists_last Hne) as (v0 & e & Ev). rewrite Ev in *.
      rewrite !app_assoc, last_snoc. rewrite last_snoc in Hl.
      injection Hl as ->. exact Hd.
  - change (lit ": " ++ v) with (lit ":" ++ 32 :: v).
    rewrite !app_assoc, endswith_after_space by (repeat constructor; discriminate).
    exact H1.
  - change (lit ": " ++ v) with (lit ":" ++ 32 :: v).
    rewrite !app_assoc, endswith_after_space by (repeat constructor; discriminate).
    exact H2.
Qed.

Lemma field_normalized (key v : list N) :
  key ++ lit ":" ∈ _HEADER_FIELD_PREFIXES -> v <> [] -> normalized v = v ->
  normalized (key ++ lit ": " ++ v) = key ++ lit ": " ++ v.
Proof.
  intros Hkey Hne Hn.
  destruct (normalized_fixed v Hn) as [Hs Hc].
  destruct (stripped_ends v Hs Hne) as (d & Hl & Hd & Hh).
  pose proof field_prefixes_ok as Hok. rewrite Forall_forall in Hok.
  destruct (Hok _ Hkey) as ((c & k & Hck & Hup) & _ & _ & Hcol).
  change (lit ": " ++ v) with (lit ":" ++ 32 :: v). rewrite app_assoc.
  unfold normalized. rewrite strip_fixed.
  - unfold collapse_ws. rewrite Hcol, collapse_from_true.
    unfold lstrip. destruct v as [|e v]; [congruence|].
    rewrite (lstrip_by_head _ _ _ Hh). fold (collapse_ws (e :: v)).
    rewrite Hc. reflexivity.
  - rewrite Hck. destruct (upper_facts c Hup) as [Hsp _]. exact Hsp.
  - destruct (exists_last Hne) as (v0 & e & Ev). rewrite Ev in *.
    change (32 :: v0 ++ [e]) with ((32 :: v0) ++ [e]).
    rewrite app_assoc, last_snoc. rewrite last_snoc in Hl.
    injection Hl as ->. exact Hd.
Qed.

(** X24.  A field line written by the annotator is read back as it was
    written: for a style of the table, a field name of the table and a
    non-empty value in normal form that fits the width and does not end in a
    comment-closing token, the header line cleans to [name: value] and
    [_parse_existing_header_fields] records the value under the name. *)
Theorem field_line_read_back (sfx : list N) (style : CommentStyle)
    (key v : list N) (mw : Z) (fields : gmap (list N) (list N)) :
  annotate_code_headers._detect_comment_style sfx = Some style ->
  key ++ lit ":" ∈ _HEADER_FIELD_PREFIXES ->
  v <> [] -> normalized v = v ->
  endswith v (lit "*/") = false -> endswith v (lit "-->") = false ->
  (len (key ++ lit ": " ++ v) <= mw)%Z ->
  let line :=
    inner_prefix style ++ _truncate (key ++ lit ": " ++ v) mw ++ [NL] in
  _strip_header_comment_syntax line = key ++ lit ": " ++ v
  /\ parse_header_line fields line = <[ key := v ]> fields.
Proof.
  intros Hst Hkey Hne Hn H1 H2 Hfit line.
  pose proof (detected_style_prefix _ _ Hst) as Hpre.
  pose proof (field_normalized key v Hkey Hne Hn) as Hfn.
  assert (_truncate (key ++ lit ": " ++ v) mw = key ++ lit ": " ++ v) as Ht
    by (rewrite truncate_fits; rewrite Hfn; auto).
  assert (_strip_header_comment_syntax line = key ++ lit ": " ++ v) as Hclean.
  { unfold line. rewrite Ht. apply field_line_clean; assumption. }
  split; [exact Hclean|].
  unfold parse_header_line. rewrite Hclean.
  pose proof field_prefixes_ok as Hok. rewrite Forall_forall in Hok.
  destruct (Hok _ Hkey) as (_ & Hbl & Hm & _).
  destruct (normalized_fixed v Hn) as [Hs _].
  change (lit ": " ++ v) with (lit ":" ++ 32 :: v). rewrite app_assoc, Hm.
  rewrite drop_app_length.
  assert (but_last (key ++ lit ":") = key) as ->.
  { unfold but_last. rewrite length_app. cbn [length lit].
    replace (length key + 1 - 1)%nat with (length key) by lia.
    apply take_app_length. }
  f_equal.
  unfold strip, lstrip in *. cbn [lstrip_by]. change (isspace 32) with true.
  cbn iota. exact Hs.
Qed.

(** ** Shape of the inheritance edges *)

Lemma tagged_rel (rel : list N) (names : list (list N)) :
  rel ∈ RELATIONS -> Forall (fun rp => rp.1 ∈ RELATIONS) (tagged rel names).
Proof.
  intros H. unfold tagged. apply Forall_map, Forall_forall. intros; exact H.
Qed.

Lemma map_rel (rel : list N) (names : list (list N)) :
  rel ∈ RELATIONS ->
  Forall (fun rp : list N * list N => rp.1 ∈ RELATIONS)
    (map (fun p => (rel, p)) names).
Proof. intros H. apply Forall_map, Forall_forall. intros; exact H. Qed.

Lemma arrow_rel : ARROW ∈ RELATIONS.
Proof. left. Qed.
Lemma plus_rel : PLUS ∈ RELATIONS.
Proof. right; left. Qed.
Lemma implements_rel : IMPLEMENTS ∈ RELATIONS.
Proof. right; right; left. Qed.

Lemma kt_with_super_rel (raw_clean : list (list N * list N)) :
  forall used, Forall (fun rp => rp.1 ∈ RELATIONS)
                 (kt_with_super used raw_clean).
Proof.
  induction raw_clean as [|[rel parent] more IH]; intros used;
    cbn [kt_with_super]; [constructor|].
  destruct (negb (truthy parent)); [apply IH|].
  destruct (_ && _); constructor;
    solve [apply arrow_rel | apply implements_rel | apply IH].
Qed.

Lemma kt_without_super_rel (raw_clean : list (list N * list N)) :
  forall j, Forall (fun rp => rp.1 ∈ RELATIONS)
              (kt_without_super j raw_clean).
Proof.
  induction raw_clean as [|[rel parent] more IH]; intros j;
    cbn [kt_without_super]; [constructor|].
  destruct (negb (truthy parent)); [apply IH|].
  constructor; [|apply IH].
  cbn [fst]. destruct (j =? 0)%nat; [apply arrow_rel | apply implements_rel].
Qed.

Lemma line_bases_rel (suffix line : list N) (tl : gmap (list N) Z) :
  Forall (fun rp => rp.1 ∈ RELATIONS) (line_bases suffix line tl).2.
Proof.
  pose proof arrow_rel as Ha. pose proof plus_rel as Hp.
  pose proof implements_rel as Hi.
  unfold line_bases.
  repeat match goal with
         | |- context [if ?b then _ else _] => destruct b
         | |- context [match rmatch ?r ?l with _ => _ end] =>
             destruct (rmatch r l)
         | |- context [match List.filter ?f ?l with _ => _ end] =>
             destruct (List.filter f l)
         end;
    cbn [fst snd];
    repeat first
      [ apply Forall_nil_2
      | apply Forall_app; split
      | apply Forall_cons; split; [assumption|]
      | apply tagged_rel; assumption
      | apply map_rel; assumption
      | apply kt_with_super_rel
      | apply kt_without_super_rel ].
  all: unfold kt_class_bases;
    destruct (existsb _ _);
    [apply kt_with_super_rel | apply kt_without_super_rel].
Qed.

Lemma add_edges_shaped (child : list N) (n : Z)
    (bases : list (list N * list N)) (tl : gmap (list N) Z)
    (ti : option (gmap (list N) (list (list N * Z)))) :
  child <> [] ->
  Forall (fun rp => rp.1 ∈ RELATIONS) bases ->
  forall edges,
    Forall (edge_shaped tl ti) edges ->
    Forall (edge_shaped tl ti)
      (add_edges (child ++ lit "@L" ++ dec n) bases tl ti edges).1.
Proof.
  intros Hc Hb. induction Hb as [|[rel parent] bases Hr _ IH];
    intros edges He; cbn [add_edges]; [exact He|].
  destruct (truthy parent) eqn:Ep; cbn [negb]; [|apply IH, He].
  assert (Forall (edge_shaped tl ti)
            (edges ++ [(child ++ lit "@L" ++ dec n) ++ rel
                       ++ _resolve_type_ref parent tl ti])) as He'.
  { apply Forall_app. split; [exact He|]. constructor; [|constructor].
    exists child, n, rel, parent. split; [reflexivity|].
    split; [exact Hc|]. split; [|exact Hr].
    intros ->. discriminate. }
  destruct (MAX_INHERIT_EDGES <=? _)%nat; [exact He'|]. apply IH, He'.
Qed.

(** X25.  Every edge [_extract_inheritance] returns is made of a non-empty
    child name with its line reference, one of the relation signs [->], [+]
    and [~>], and the reference of a non-empty parent name. *)
Theorem inheritance_edges_shaped (suffix : list N)
    (body_lines : list (list N)) (final_body_offset : Z)
    (type_index : option (gmap (list N) (list (list N * Z)))) :
  Forall (edge_shaped (type_lines suffix body_lines 1 final_body_offset ∅)
            type_index)
    (_extract_inheritance suffix body_lines final_body_offset type_index).
Proof.
  unfold _extract_inheritance.
  set (tl := type_lines suffix body_lines 1 final_body_offset ∅).
  assert (Forall (edge_shaped tl type_index) []) as H0 by constructor.
  revert H0. generalize (@nil (list N)) as edges. generalize 1%Z as idx.
  clearbody tl.
  induction body_lines as [|line body IH]; intros idx edges He;
    cbn [inheritance_edges]; [exact He|].
  pose proof (line_bases_rel suffix line tl) as Hrel.
  destruct (line_bases suffix line tl) as [child bases]. cbn [snd] in Hrel.
  destruct (truthy child) eqn:Ec; cbn [negb orb]; [|apply IH, He].
  destruct bases as [|b bases]; [apply IH, He|].
  assert (child <> []) as Hne by (intros ->; discriminate).
  pose proof (add_edges_shaped child
                (default (final_body_offset + idx)%Z (tl !! child))
                (b :: bases) tl type_index Hne Hrel edges He) as Ha.
  destruct (add_edges _ (b :: bases) tl type_index edges) as [edges' stop].
  cbn [fst] in Ha. destruct stop; [exact Ha | apply IH, Ha].
Qed.

(** ** Suffixes the checker has no rule for *)

(** X26.  For a suffix other than those of Python, JavaScript and
    TypeScript, Go and Rust the checker finds no entrypoint; when the suffix
    is not that of Java or Kotlin either, it reports nothing for a header of
    20 lines, whatever the fields hold. *)
Theorem checker_ignores_other_suffixes (header_lines : list (list N))
    (content : option (list N)) (suffix : list N) :
  CH.in_suffixes suffix [".py"; ".pyi"]%string = false ->
  CH.in_suffixes suffix [".js"; ".jsx"; ".ts"; ".tsx"]%string = false ->
  suffix <> lit ".go" -> suffix <> lit ".rs" ->
  CH._has_entrypoint content suffix = false
  /\ (CH.in_suffixes suffix [".java"; ".kt"]%string = false ->
      (20 <= length header_lines)%nat ->
      CH._check_header_incomplete header_lines content suffix = (false, [])).
Proof.
  intros Hpy Hjs Hgo Hrs. apply str_eqb_neq in Hgo, Hrs.
  assert (CH._has_entrypoint content suffix = false) as He.
  { unfold CH._has_entrypoint. destruct content; [|reflexivity].
    rewrite Hpy, Hjs, Hrs, Hgo. reflexivity. }
  split; [exact He|]. intros Hjava Hlen.
  assert (CH._has_functions content suffix = false) as Hf.
  { unfold CH._has_functions. destruct content as [text|]; [|reflexivity].
    apply not_true_is_false. intros H.
    apply existsb_exists in H as (line & _ & H).
    unfold CH.function_line in H. rewrite Hpy, Hjs, Hgo, Hrs, Hjava in H.
    destruct (5000 <? len line)%Z; discriminate. }
  unfold CH._check_header_incomplete.
  rewrite (proj2 (Nat.ltb_ge _ _)) by (unfold CH.HEADER_LINES; lia).
  assert (forall st ls,
            flat_map (CH.incomplete_field content suffix st) ls = []) as ->;
    [|reflexivity].
  intros st ls. induction ls as [|l ls IH]; [reflexivity|].
  cbn [flat_map]. rewrite IH, app_nil_r.
  unfold CH.incomplete_field. rewrite Hf, He.
  destruct (List.find _ _); [|reflexivity].
  destruct (_ || _); [|reflexivity].
  destruct (str_eqb _ CH.KEY_FUNCS); [reflexivity|].
  destruct (str_eqb _ CH.ENTRYPOINTS); reflexivity.
Qed.

(** ** Resolving a parent *)

(** X27.  With the index [_build_type_index] returns, a parent declared in
    the file itself is referred to by its own line, whatever the index holds;
    a parent that is not is either left as the bare name or referred to as
    [Name@rel#L<n>], and then the index holds exactly one entry for the name
    and line [n] of the indexed file [rel] declares it. *)
Theorem resolved_parent_sound (paths : list source)
    (index : gmap (list N) (list (list N * Z))) (name : list N)
    (tl : gmap (list N) Z) :
  _build_type_index paths = Ok index ->
  (forall n, tl !! name = Some n ->
             _resolve_type_ref name tl (Some index)
             = name ++ lit "@L" ++ dec n)
  /\ (tl !! name = None ->
      _resolve_type_ref name tl (Some index) = name
      \/ exists rel ln f prolog rest eh body removed (i : nat) line,
           _resolve_type_ref name tl (Some index)
           = name ++ lit "@" ++ rel ++ lit "#L" ++ dec ln
           /\ index !! name = Some [(rel, ln)]
           /\ f ∈ paths /\ src_relpath f = rel
           /\ _split_prolog (splitlines true (src_raw f)) (src_suffix f)
              = (prolog, rest)
           /\ _split_existing_codex_header rest (src_path f)
              = Ok (eh, body, removed)
           /\ body !! i = Some line
           /\ ln = (len prolog + Z.of_nat HEADER_LINES + 1 + Z.of_nat i)%Z
           /\ type_pair_of_line (src_suffix f) line = Some name).
Proof.
  intros Hb. split.
  - intros n Hn. unfold _resolve_type_ref. rewrite Hn. reflexivity.
  - intros Hn. unfold _resolve_type_ref. rewrite Hn.
    destruct (index !! name) as [entries|] eqn:Ei; cbn [default];
      [|left; reflexivity].
    destruct entries as [|[rel ln] [|e entries]]; try (left; reflexivity).
    right.
    destruct (type_index_entries paths index name rel ln [(rel, ln)] Hb Ei)
      as (_ & f & prolog & rest & eh & body & removed & i & line & H);
      [left|].
    exists rel, ln, f, prolog, rest, eh, body, removed, i, line.
    split; [reflexivity|]. split; [reflexivity|]. exact H.
Qed.

(** ** Manual fields without a kept value *)

(** X28.  A manual field has the value [TODO] in the written header when
    the run refreshes, or when the previous header has no such field or holds
    a placeholder there: line [7 + k] of the header is the comment prefix
    followed by [key: TODO]. *)
Theorem manual_field_default (rq : request) (raw : list N)
    (style : CommentStyle) (prolog rest : list (list N))
    (eh : option (list (list N))) (body : list (list N)) (removed : bool)
    (k : nat) (key : list N) :
  annotate_code_headers._detect_comment_style (suffix rq) = Some style ->
  _split_prolog (splitlines true raw) (suffix rq) = (prolog, rest) ->
  _split_existing_codex_header rest (path rq) = Ok (eh, body, removed) ->
  MANUAL_KEYS !! k = Some key ->
  refresh rq = true
  \/ _is_placeholder (existing_fields_of eh !! key) = true ->
  (len (key ++ lit ": TODO") <= max_width rq)%Z ->
  exists o (header : list (list N)),
    annotate_file rq raw = Ok o
    /\ new_raw o = Some (concat prolog ++ concat header ++ concat body)
    /\ length header = 20%nat
    /\ header !! (7 + k)%nat
       = Some (inner_prefix style ++ (key ++ lit ": TODO") ++ [NL]).
Proof.
  intros Hs Hp He Hk Hmode Hfit.
  assert (computed_fields rq prolog rest eh body !! (7 + k)%nat
          = Some (key ++ lit ": TODO")) as Hfield.
  { rewrite (computed_fields_manual _ _ _ _ _ _ _ Hk).
    unfold manual_value, keep_or_todo.
    destruct (refresh rq); [reflexivity|].
    destruct Hmode as [Hr|Hph]; [discriminate|].
    destruct (existing_fields_of eh !! key) as [v|]; [|reflexivity].
    rewrite Hph. reflexivity. }
  assert (1 <= 7 + k <= 18)%nat as Hi
    by (apply lookup_lt_Some in Hk; cbn [length MANUAL_KEYS] in Hk; lia).
  destruct (annotate_file_line rq raw style prolog rest eh body removed
              (7 + k)%nat _ Hs Hp He Hi Hfield)
    as (o & header & Ho & Hnew & Hlen & Hline).
  exists o, header. split; [exact Ho|]. split; [exact Hnew|].
  split; [exact Hlen|]. rewrite Hline.
  assert (normalized (key ++ lit ": TODO") = key ++ lit ": TODO") as Hn.
  { apply list_elem_of_lookup_2 in Hk.
    unfold MANUAL_KEYS in Hk. rewrite !elem_of_cons in Hk.
    repeat (destruct Hk as [-> | Hk]; [reflexivity|]).
    apply elem_of_nil in Hk. contradiction. }
  rewrite truncate_fits; rewrite Hn; [reflexivity | exact Hfit].
Qed.

Lemma symbol_refs_point_at_lines_witness :
  exists name n line,
    lit "A@L21" = name ++ lit "@L" ++ dec (Z.of_nat n)
    /\ (1 <= n)%nat
    /\ ([] ++ replicate 20 [] ++ [lit "class A:" ++ [NL]]) !! (n - 1)%nat
       = Some line
    /\ symbol_of_line (lit ".py") line = Some (TypeSym, name).
Proof.
  apply (symbol_refs_point_at_lines TypeSym (lit ".py") []
           (replicate 20 []) [lit "class A:" ++ [NL]] (lit "A@L21")).
  - reflexivity.
  - vm_compute. left.
Defined.

Lemma extract_inheritance_none_witness :
  _extract_inheritance (lit ".rs") rust_impl 20 None = [].
Proof.
  apply extract_inheritance_none; try reflexivity. discriminate.
Defined.

Lemma truncate_idempotent_witness :
  _truncate (_truncate (lit "one   two three") 9) 9
  = _truncate (lit "one   two three") 9.
Proof. apply truncate_idempotent. lia. Defined.

Lemma peek_docstring_hint_witness :
  (len (lit "Reads the feed.") <= 300)%Z
  /\ no_linebreak (lit "Reads the feed.")
  /\ normalized (lit "Reads the feed.") = lit "Reads the feed.".
Proof.
  destruct (peek_docstring_hint
              [TRIPLE_DQ ++ lit "Reads the feed." ++ TRIPLE_DQ ++ [NL]])
    as [H _].
  apply H. vm_compute. reflexivity.
Defined.

Lemma parsed_fields_sound_witness :
  let header := take 20 (splitlines true (text (annotated_py "stable API"))) in
  lit "Public API" ++ lit ":" ∈ _HEADER_FIELD_PREFIXES
  /\ strip (lit "stable API") = lit "stable API"
  /\ exists ln,
       ln ∈ header
       /\ startswith (_strip_header_comment_syntax ln)
            (lit "Public API" ++ lit ":") = true
       /\ lit "stable API"
          = strip (drop (length (lit "Public API") + 1)
                     (_strip_header_comment_syntax ln)).
Proof.
  intros header.
  apply (parsed_fields_sound header (lit "Public API") (lit "stable API")).
  vm_compute. reflexivity.
Defined.

Lemma rendered_header_found_witness :
  let header :=
    map ensure_newline
      (_render_header_lines c_block [marker_field; lit "Path: a.ts"] 120) in
  _split_existing_codex_header (header ++ [lit "let x = 1;" ++ [NL]])
    (lit "a.ts")
  = Ok (Some header, [lit "let x = 1;" ++ [NL]], true).
Proof.
  apply (rendered_header_found c_block [lit "Path: a.ts"] 120
           [lit "let x = 1;" ++ [NL]] (lit "a.ts")).
  lia.
Defined.

Lemma annotate_file_writes_witness :
  exists o,
    annotate_file (call "a.py" ".py" false) (text ["x = 1"]%string) = Ok o
    /\ changed o = true
    /\ written o = new_raw o.
Proof.
  destruct (annotate_file (call "a.py" ".py" false) (text ["x = 1"]%string))
    as [o|msg] eqn:E; [|vm_compute in E; discriminate].
  destruct (annotate_file_writes _ _ o E) as [Hc Hw].
  assert (changed o = true) as Hch.
  { vm_compute in E. injection E as <-. reflexivity. }
  exists o. split; [reflexivity|]. split; [exact Hch|].
  rewrite Hw, Hch. reflexivity.
Defined.

Lemma changed_file_dated_witness :
  let rq := call "a.py" ".py" false in
  let raw := text (annotated_py "TODO" ++ ["def f():"]%string) in
  exists o (header : list (list N)),
    annotate_file rq raw = Ok o
    /\ changed o = true
    /\ header !! 19%nat = Some (lit "# Last update: 2026-11-03" ++ [NL]).
Proof.
  intros rq raw.
  pose (rest := splitlines true raw).
  destruct (changed_file_dated rq raw (line_style "# ") [] rest
              (Some (take 20 rest)) (drop 20 rest) true)
    as (o & header & Ho & _ & _ & Hline);
    try (vm_compute; reflexivity).
  assert (changed o = true) as Hch.
  { vm_compute in Ho. injection Ho as <-. reflexivity. }
  exists o, header. split; [exact Ho|]. split; [exact Hch|].
  rewrite (Hline Hch). vm_compute. reflexivity.
Defined.

Lemma overrides_win_witness :
  let rq :=
    {| path := lit "a.py"; suffix := lit ".py"; relpath := lit "a.py";
       today := lit "2026-11-03"; purpose := lit "Parse feeds";
       index_hint := lit "Imports@L21"; max_width := 120; dry_run := true;
       refresh := false; type_index := None |} in
  let raw := text (annotated_py "stable API") in
  exists o (header : list (list N)),
    annotate_file rq raw = Ok o
    /\ header !! 2%nat = Some (lit "# Purpose: Parse feeds" ++ [NL])
    /\ header !! 18%nat = Some (lit "# Index: Imports@L21" ++ [NL]).
Proof.
  intros rq raw.
  pose (rest := splitlines true raw).
  destruct (overrides_win rq raw (line_style "# ") [] rest
              (Some (take 20 rest)) (drop 20 rest) true)
    as (o & header & Ho & _ & _ & Hp & Hi);
    try (vm_compute; reflexivity).
  exists o, header. split; [exact Ho|]. split.
  - rewrite Hp by discriminate. vm_compute. reflexivity.
  - rewrite Hi by discriminate. vm_compute. reflexivity.
Defined.

Lemma checker_skips_block_header_witness :
  let content := text annotated_ts in
  let header := take 20 (splitlines false content) in
  CH._has_functions (Some content) (lit ".ts") = true
  /\ CH._check_header_incomplete header (Some content) (lit ".ts")
     = (false, []).
Proof.
  intros content header. split; [vm_compute; reflexivity|].
  assert (header
          = (lit "/* @" ++ lit "codex-header: v1 | 20 lines | keep updated")
            :: drop 1 header) as -> by (vm_compute; reflexivity).
  apply checker_skips_block_header.
  - vm_compute. lia.
  - vm_compute.
    repeat (constructor; [eexists; reflexivity|]). constructor.
Defined.

Lemma agents_index_rows_witness :
  exists rows,
    rows ≡ₚ two_annotated
    /\ Sorted (fun a b => str_ltb (a_path b) (a_path a) = false) rows
    /\ _generate_agents_md_index two_annotated
       = join [NL] (map index_row rows).
Proof.
  destruct (agents_index_rows two_annotated) as (_ & rows & Hp & Hs & H).
  exists rows. split; [exact Hp|]. split; [exact Hs|].
  apply H. discriminate.
Defined.

Lemma update_agents_md_fresh_witness :
  exists r,
    _update_agents_md None (lit "2026-11-03") two_annotated
    = (true,
       Some (TEMPLATE_HEAD
             ++ index_section (_generate_agents_md_index two_annotated)
             ++ section_marker ++ r)).
Proof.
  destruct (update_agents_md_fresh None (lit "2026-11-03") two_annotated)
    as [_ H].
  apply H; [discriminate | reflexivity].
Defined.

Lemma update_agents_md_overwrites_witness :
  _update_agents_md (Some agents_md_with_index) (lit "2026-11-04")
    two_annotated
  = (true, Some (format_date AGENTS_MD_TEMPLATE (lit "2026-11-04"))).
Proof.
  assert (two_annotated <> []) as Hne by discriminate.
  destruct (update_agents_md_overwrites (lit "2026-11-04") two_annotated Hne)
    as [H _].
  apply H; reflexivity.
Defined.

Lemma build_type_index_raises_witness :
  _build_type_index [base_py; misplaced_py]
  = ValueError (misplaced_header_message (lit "bad.py"))
  /\ head (omap header_error [base_py; misplaced_py])
     = Some (misplaced_header_message (lit "bad.py")).
Proof.
  pose proof (build_type_index_raises [base_py; misplaced_py]) as H.
  destruct (_build_type_index [base_py; misplaced_py]) as [ix|msg] eqn:E;
    vm_compute in E; [discriminate|].
  injection E as <-. split; [reflexivity | exact H].
Defined.

Lemma type_index_sound_witness :
  exists index,
    _build_type_index [base_py] = Ok index
    /\ index !! lit "Base" = Some [(lit "base.py", 21%Z)]
    /\ exists line,
         splitlines true (src_raw base_py) !! 0%nat = Some line
         /\ type_pair_of_line (lit ".py") line = Some (lit "Base").
Proof.
  destruct (_build_type_index [base_py]) as [index|msg] eqn:E;
    [|vm_compute in E; discriminate].
  assert (index !! lit "Base" = Some [(lit "base.py", 21%Z)]) as Hl.
  { vm_compute in E. injection E as <-. vm_compute. reflexivity. }
  destruct (type_index_sound [base_py] index (lit "Base") (lit "base.py") 21
              [(lit "base.py", 21%Z)] E Hl)
    as (_ & f & prolog & rest & eh & body & removed & i & line & Hf & _ & Hp
        & He & Hb & Hn & Ht); [left|].
  exists index. split; [reflexivity|]. split; [exact Hl|].
  apply list_elem_of_singleton in Hf. subst f.
  vm_compute in Hp. injection Hp as <- <-.
  vm_compute in He. injection He as <- <- <-.
  assert (i = 0%nat) as ->
    by (unfold len, HEADER_LINES in Hn; cbn [length] in Hn; lia).
  exists line. split; [exact Hb | exact Ht].
Defined.

Lemma split_prolog_plain_witness :
  _split_prolog [lit "x = 1" ++ [NL]; lit "y = 2" ++ [NL]] (lit ".py")
  = ([], [lit "x = 1" ++ [NL]; lit "y = 2" ++ [NL]]).
Proof.
  destruct (split_prolog_plain (lit ".py")) as [_ H].
  apply H; reflexivity.
Defined.

Lemma go_build_tags_blank_witness :
  exists blank attrs,
    (_split_prolog go_tagged (lit ".go")).1
    = [lit "//go:build linux" ++ [NL]] ++ blank :: attrs
    /\ is_blank blank = true.
Proof.
  destruct (go_build_tags_blank (lit "//go:build linux" ++ [NL])
              [lit "package main" ++ [NL]] (lit ".go") eq_refl)
    as (blank & attrs & H1 & _ & _ & H2 & _).
  exists blank, attrs. split; [exact H1 | exact H2].
Defined.

Lemma field_line_read_back_witness :
  parse_header_line ∅ (lit " * Public API: load(), save()" ++ [NL])
  = <[ lit "Public API" := lit "load(), save()" ]> ∅.
Proof.
  assert (lit "Public API" ++ lit ":" ∈ _HEADER_FIELD_PREFIXES) as Hin
    by (vm_compute; do 6 right; left).
  assert (len (lit "Public API" ++ lit ": " ++ lit "load(), save()") <= 120)%Z
    as Hfit by (vm_compute; discriminate).
  assert (lit "load(), save()" <> []) as Hne by discriminate.
  exact (proj2 (field_line_read_back (lit ".ts") c_block (lit "Public API")
                  (lit "load(), save()") 120 ∅ eq_refl Hin Hne eq_refl
                  eq_refl eq_refl Hfit)).
Defined.

Lemma checker_ignores_other_suffixes_witness :
  let content := text (annotated_py "TODO" ++ ["int main() {"]%string) in
  CH._check_header_incomplete (take 20 (splitlines false content))
    (Some content) (lit ".c")
  = (false, []).
Proof.
  intros content.
  assert (lit ".c" <> lit ".go") as Hgo by discriminate.
  assert (lit ".c" <> lit ".rs") as Hrs by discriminate.
  pose proof (checker_ignores_other_suffixes
                (take 20 (splitlines false content)) (Some content) (lit ".c")
                eq_refl eq_refl Hgo Hrs) as [_ H].
  apply H; [reflexivity|]. vm_compute. lia.
Defined.

Lemma resolved_parent_sound_witness :
  exists index,
    _build_type_index [base_py] = Ok index
    /\ _resolve_type_ref (lit "Base") ∅ (Some index)
       = lit "Base@base.py#L21".
Proof.
  destruct (_build_type_index [base_py]) as [index|msg] eqn:E;
    [|vm_compute in E; discriminate].
  assert (index !! lit "Base" = Some [(lit "base.py", 21%Z)]) as Hl.
  { vm_compute in E. injection E as <-. vm_compute. reflexivity. }
  destruct (resolved_parent_sound [base_py] index (lit "Base") ∅ E)
    as [_ H].
  exists index. split; [reflexivity|].
  destruct (H (lookup_empty _))
    as [Hr | (rel & ln & _ & _ & _ & _ & _ & _ & _ & _ & Hr & Hi & _)].
  - unfold _resolve_type_ref in Hr. rewrite lookup_empty, Hl in Hr.
    vm_compute in Hr. discriminate.
  - rewrite Hr. rewrite Hl in Hi. injection Hi as <- <-.
    vm_compute. reflexivity.
Defined.

Lemma manual_field_default_witness :
  let rq :=
    {| path := lit "a.py"; suffix := lit ".py"; relpath := lit "a.py";
       today := lit "2026-11-03"; purpose := []; index_hint := [];
       max_width := 120; dry_run := true; refresh := false;
       type_index := None |} in
  exists o (header : list (list N)),
    annotate_file rq (text ["x = 1"]) = Ok o
    /\ header !! 9%nat = Some (lit "# Core flow: TODO" ++ [NL]).
Proof.
  intros rq.
  pose (rest := splitlines true (text ["x = 1"])).
  destruct (manual_field_default rq (text ["x = 1"]) (line_style "# ") []
              rest None rest false 2 (lit "Core flow"))
    as (o & header & Ho & _ & _ & Hl);
    try (vm_compute; reflexivity).
  - right. vm_compute. reflexivity.
  - vm_compute. discriminate.
  - exists o, header. split; [exact Ho | exact Hl].
Defined.

(** With a width of 17 the marker itself is cut, and the rendered header is
    not recognised. *)
Example narrow_header_not_found :
  let header :=
    map ensure_newline
      (_render_header_lines c_block [marker_field; lit "Path: a.ts"] 17) in
  _split_existing_codex_header (header ++ [lit "let x = 1;" ++ [NL]])
    (lit "a.ts")
  = Ok (None, header ++ [lit "let x = 1;" ++ [NL]], false).
Proof. vm_compute. reflexivity. Qed.

(** The rows of two files, in path order. *)
Example agents_index_text :
  _generate_agents_md_index two_annotated
  = lit "| `src/a.py` | TODO | - |" ++ [NL]
    ++ lit "| `src/b.py` | Second | Types: B@L21 |".
Proof. vm_compute. reflexivity. Qed.

(** A trait implementation in Rust never makes an edge, although the
    pattern matches the line. *)
Example rust_impl_matched :
  matches _RE_RS_IMPL_FOR (lit "impl Display for Foo {" ++ [NL]) = true
  /\ _extract_inheritance (lit ".rs") rust_impl 20 None = [].
Proof. vm_compute. split; reflexivity. Qed.

(** The second update of a file the first update created. *)
Example second_update_drops_index :
  forall written,
    _update_agents_md None (lit "2026-11-03") two_annotated
    = (true, Some written) ->
    contains written marker_start = true
    /\ _update_agents_md (Some written) (lit "2026-11-04") two_annotated
       = (true, Some (format_date AGENTS_MD_TEMPLATE (lit "2026-11-04")))
    /\ contains (format_date AGENTS_MD_TEMPLATE (lit "2026-11-04"))
         marker_start = false.
Proof.
  intros written Hw. vm_compute in Hw.
  apply (f_equal snd) in Hw. cbn [snd] in Hw. apply (inj Some) in Hw.
  subst written. vm_compute. repeat split.
Qed.
